(** * Proyecto Aurelion: the markdown outline engine of [programa.py]

    A shallow embedding of the pure helpers of class [Menu]
    ([parse_headings], [all_paragraphs], [get_section],
    [extract_code_block]) and of the pure cores of the menu modules
    ([dataset], [sugerencias_copilot], [pseudocodigo_diagrama], the
    local [_norm]), of the interactive loop [seleccionar] as a
    transition function between its calls of [input], and of the
    converter [pasarxlsxacsv.py] ([read_sheets_list],
    [safe_sheet_suffix], [convert_xlsx_to_csv], [main]) with the
    workbook and the output directory as arguments, followed by the
    properties stated over them.

    Python [str] values are sequences of Unicode code points; they are
    modelled as [list N].  Line numbers, heading levels and slice bounds
    are natural numbers (the source never produces a negative index).

    The functions of the Python library that depend on the Unicode
    Character Database ([str.lower], [str.isalnum], [str.isdigit],
    [int], [unicodedata.normalize], [unicodedata.category]) are given
    by tables for the code points below U+0400.  What is stated over
    them is stated for strings of such code points, or evaluated on
    such strings.  What is stated for every document, query or option
    is stated over [General], where these functions are arguments. *)

From Stdlib Require Import String Ascii NArith ZArith Arith Lia Bool List Sorted Relations.
Import ListNotations.

(* ===================================================================== *)
(** * Python strings *)
(* ===================================================================== *)

Module PyStr.

Definition codepoint := N.
Definition str := list codepoint.

(** String literals of this file are UTF-8 byte strings; [py] decodes
    them to code points, so that [py "abc"] is the Python string 'abc'. *)
Fixpoint utf8_decode (acc : N) (pending : nat) (bs : list N) : str :=
  match bs with
  | [] => []
  | b :: bs' =>
      match pending with
      | S k =>
          let acc' := (acc * 64 + b mod 64)%N in
          match k with
          | O => acc' :: utf8_decode 0%N 0 bs'
          | S _ => utf8_decode acc' k bs'
          end
      | O =>
          if (b <? 0x80)%N then b :: utf8_decode 0%N 0 bs'
          else if (b <? 0xE0)%N then utf8_decode (b mod 32)%N 1 bs'
          else if (b <? 0xF0)%N then utf8_decode (b mod 16)%N 2 bs'
          else utf8_decode (b mod 8)%N 3 bs'
      end
  end.

Definition py (s : string) : str :=
  utf8_decode 0%N 0 (map N_of_ascii (list_ascii_of_string s)).

Definition LF : codepoint := 10%N.
Definition HASH : codepoint := 0x23%N.
Definition BACKTICK : codepoint := 0x60%N.

(** [str.isspace] on one character, which is also the class [\s] of
    [re] on [str] patterns: the code points whose bidirectional type is
    WS, B or S, or whose category is Zs. *)
Definition isspace (c : codepoint) : bool :=
  ((0x09 <=? c) && (c <=? 0x0D) || (0x1C <=? c) && (c <=? 0x20)
   || (c =? 0x85) || (c =? 0xA0) || (c =? 0x1680)
   || (0x2000 <=? c) && (c <=? 0x200A)
   || (c =? 0x2028) || (c =? 0x2029) || (c =? 0x202F)
   || (c =? 0x205F) || (c =? 0x3000))%N.

Fixpoint dropwhile (p : codepoint -> bool) (s : str) : str :=
  match s with
  | c :: s' => if p c then dropwhile p s' else s
  | [] => []
  end.

Fixpoint takewhile (p : codepoint -> bool) (s : str) : str :=
  match s with
  | c :: s' => if p c then c :: takewhile p s' else []
  | [] => []
  end.

Definition lstrip (s : str) : str := dropwhile isspace s.
Definition rstrip (s : str) : str := rev (dropwhile isspace (rev s)).

(** [s.strip()] *)
Definition strip (s : str) : str := rstrip (lstrip s).

(** [sep.join(parts)] *)
Fixpoint join (sep : str) (parts : list str) : str :=
  match parts with
  | [] => []
  | [p] => p
  | p :: rest => p ++ sep ++ join sep rest
  end.

(** [s.startswith(prefix)] *)
Fixpoint startswith (s prefix : str) : bool :=
  match prefix, s with
  | [], _ => true
  | p :: prefix', c :: s' => (c =? p)%N && startswith s' prefix'
  | _ :: _, [] => false
  end.

(** [needle in haystack] *)
Fixpoint contains (haystack needle : str) : bool :=
  startswith haystack needle ||
  match haystack with
  | [] => false
  | _ :: h' => contains h' needle
  end.

Definition str_eqb (a b : str) : bool :=
  if list_eq_dec N.eq_dec a b then true else false.

Definition is_some {A} (o : option A) : bool :=
  match o with
  | Some _ => true
  | None => false
  end.

(** [seq[start:end]] for non-negative bounds *)
Definition slice {A} (l : list A) (start stop : nat) : list A :=
  firstn (stop - start) (skipn start l).

End PyStr.
Export PyStr.

(* ===================================================================== *)
(** * Unicode data used by [str.lower] and [unicodedata] *)
(* ===================================================================== *)

(** The tables list the entries of the Unicode Character Database for
    the code points below U+0400 (Basic Latin to Greek and Coptic,
    with the combining diacritical marks U+0300-U+036F).  The functions
    built on them agree with Python on every string of such code
    points; a code point at or above U+0400 is treated as a caseless
    starter without decomposition, which is not what Python does with
    it: the statements over these functions stay below U+0400. *)

Module Unicode.

Definition in_tables (c : codepoint) : bool := (c <? 0x400)%N.

Fixpoint lookup {V} (t : list (codepoint * V)) (c : codepoint) : option V :=
  match t with
  | [] => None
  | (k, v) :: t' => if (c =? k)%N then Some v else lookup t' c
  end.

Definition in_ranges (rs : list (codepoint * codepoint)) (c : codepoint) : bool :=
  existsb (fun r => (fst r <=? c)%N && (c <=? snd r)%N) rs.

(** Full lowercase mapping (UnicodeData.txt and the unconditional
    entries of SpecialCasing.txt), for the code points it changes. *)
Definition lower_table : list (codepoint * str) :=
  [
    (0x0041, [0x0061]); (0x0042, [0x0062]); (0x0043, [0x0063]);
    (0x0044, [0x0064]); (0x0045, [0x0065]); (0x0046, [0x0066]);
    (0x0047, [0x0067]); (0x0048, [0x0068]); (0x0049, [0x0069]);
    (0x004A, [0x006A]); (0x004B, [0x006B]); (0x004C, [0x006C]);
    (0x004D, [0x006D]); (0x004E, [0x006E]); (0x004F, [0x006F]);
    (0x0050, [0x0070]); (0x0051, [0x0071]); (0x0052, [0x0072]);
    (0x0053, [0x0073]); (0x0054, [0x0074]); (0x0055, [0x0075]);
    (0x0056, [0x0076]); (0x0057, [0x0077]); (0x0058, [0x0078]);
    (0x0059, [0x0079]); (0x005A, [0x007A]); (0x00C0, [0x00E0]);
    (0x00C1, [0x00E1]); (0x00C2, [0x00E2]); (0x00C3, [0x00E3]);
    (0x00C4, [0x00E4]); (0x00C5, [0x00E5]); (0x00C6, [0x00E6]);
    (0x00C7, [0x00E7]); (0x00C8, [0x00E8]); (0x00C9, [0x00E9]);
    (0x00CA, [0x00EA]); (0x00CB, [0x00EB]); (0x00CC, [0x00EC]);
    (0x00CD, [0x00ED]); (0x00CE, [0x00EE]); (0x00CF, [0x00EF]);
    (0x00D0, [0x00F0]); (0x00D1, [0x00F1]); (0x00D2, [0x00F2]);
    (0x00D3, [0x00F3]); (0x00D4, [0x00F4]); (0x00D5, [0x00F5]);
    (0x00D6, [0x00F6]); (0x00D8, [0x00F8]); (0x00D9, [0x00F9]);
    (0x00DA, [0x00FA]); (0x00DB, [0x00FB]); (0x00DC, [0x00FC]);
    (0x00DD, [0x00FD]); (0x00DE, [0x00FE]); (0x0100, [0x0101]);
    (0x0102, [0x0103]); (0x0104, [0x0105]); (0x0106, [0x0107]);
    (0x0108, [0x0109]); (0x010A, [0x010B]); (0x010C, [0x010D]);
    (0x010E, [0x010F]); (0x0110, [0x0111]); (0x0112, [0x0113]);
    (0x0114, [0x0115]); (0x0116, [0x0117]); (0x0118, [0x0119]);
    (0x011A, [0x011B]); (0x011C, [0x011D]); (0x011E, [0x011F]);
    (0x0120, [0x0121]); (0x0122, [0x0123]); (0x0124, [0x0125]);
    (0x0126, [0x0127]); (0x0128, [0x0129]); (0x012A, [0x012B]);
    (0x012C, [0x012D]); (0x012E, [0x012F]); (0x0130, [0x0069; 0x0307]);
    (0x0132, [0x0133]); (0x0134, [0x0135]); (0x0136, [0x0137]);
    (0x0139, [0x013A]); (0x013B, [0x013C]); (0x013D, [0x013E]);
    (0x013F, [0x0140]); (0x0141, [0x0142]); (0x0143, [0x0144]);
    (0x0145, [0x0146]); (0x0147, [0x0148]); (0x014A, [0x014B]);
    (0x014C, [0x014D]); (0x014E, [0x014F]); (0x0150, [0x0151]);
    (0x0152, [0x0153]); (0x0154, [0x0155]); (0x0156, [0x0157]);
    (0x0158, [0x0159]); (0x015A, [0x015B]); (0x015C, [0x015D]);
    (0x015E, [0x015F]); (0x0160, [0x0161]); (0x0162, [0x0163]);
    (0x0164, [0x0165]); (0x0166, [0x0167]); (0x0168, [0x0169]);
    (0x016A, [0x016B]); (0x016C, [0x016D]); (0x016E, [0x016F]);
    (0x0170, [0x0171]); (0x0172, [0x0173]); (0x0174, [0x0175]);
    (0x0176, [0x0177]); (0x0178, [0x00FF]); (0x0179, [0x017A]);
    (0x017B, [0x017C]); (0x017D, [0x017E]); (0x0181, [0x0253]);
    (0x0182, [0x0183]); (0x0184, [0x0185]); (0x0186, [0x0254]);
    (0x0187, [0x0188]); (0x0189, [0x0256]); (0x018A, [0x0257]);
    (0x018B, [0x018C]); (0x018E, [0x01DD]); (0x018F, [0x0259]);
    (0x0190, [0x025B]); (0x0191, [0x0192]); (0x0193, [0x0260]);
    (0x0194, [0x0263]); (0x0196, [0x0269]); (0x0197, [0x0268]);
    (0x0198, [0x0199]); (0x019C, [0x026F]); (0x019D, [0x0272]);
    (0x019F, [0x0275]); (0x01A0, [0x01A1]); (0x01A2, [0x01A3]);
    (0x01A4, [0x01A5]); (0x01A6, [0x0280]); (0x01A7, [0x01A8]);
    (0x01A9, [0x0283]); (0x01AC, [0x01AD]); (0x01AE, [0x0288]);
    (0x01AF, [0x01B0]); (0x01B1, [0x028A]); (0x01B2, [0x028B]);
    (0x01B3, [0x01B4]); (0x01B5, [0x01B6]); (0x01B7, [0x0292]);
    (0x01B8, [0x01B9]); (0x01BC, [0x01BD]); (0x01C4, [0x01C6]);
    (0x01C5, [0x01C6]); (0x01C7, [0x01C9]); (0x01C8, [0x01C9]);
    (0x01CA, [0x01CC]); (0x01CB, [0x01CC]); (0x01CD, [0x01CE]);
    (0x01CF, [0x01D0]); (0x01D1, [0x01D2]); (0x01D3, [0x01D4]);
    (0x01D5, [0x01D6]); (0x01D7, [0x01D8]); (0x01D9, [0x01DA]);
    (0x01DB, [0x01DC]); (0x01DE, [0x01DF]); (0x01E0, [0x01E1]);
    (0x01E2, [0x01E3]); (0x01E4, [0x01E5]); (0x01E6, [0x01E7]);
    (0x01E8, [0x01E9]); (0x01EA, [0x01EB]); (0x01EC, [0x01ED]);
    (0x01EE, [0x01EF]); (0x01F1, [0x01F3]); (0x01F2, [0x01F3]);
    (0x01F4, [0x01F5]); (0x01F6, [0x0195]); (0x01F7, [0x01BF]);
    (0x01F8, [0x01F9]); (0x01FA, [0x01FB]); (0x01FC, [0x01FD]);
    (0x01FE, [0x01FF]); (0x0200, [0x0201]); (0x0202, [0x0203]);
    (0x0204, [0x0205]); (0x0206, [0x0207]); (0x0208, [0x0209]);
    (0x020A, [0x020B]); (0x020C, [0x020D]); (0x020E, [0x020F]);
    (0x0210, [0x0211]); (0x0212, [0x0213]); (0x0214, [0x0215]);
    (0x0216, [0x0217]); (0x0218, [0x0219]); (0x021A, [0x021B]);
    (0x021C, [0x021D]); (0x021E, [0x021F]); (0x0220, [0x019E]);
    (0x0222, [0x0223]); (0x0224, [0x0225]); (0x0226, [0x0227]);
    (0x0228, [0x0229]); (0x022A, [0x022B]); (0x022C, [0x022D]);
    (0x022E, [0x022F]); (0x0230, [0x0231]); (0x0232, [0x0233]);
    (0x023A, [0x2C65]); (0x023B, [0x023C]); (0x023D, [0x019A]);
    (0x023E, [0x2C66]); (0x0241, [0x0242]); (0x0243, [0x0180]);
    (0x0244, [0x0289]); (0x0245, [0x028C]); (0x0246, [0x0247]);
    (0x0248, [0x0249]); (0x024A, [0x024B]); (0x024C, [0x024D]);
    (0x024E, [0x024F]); (0x0370, [0x0371]); (0x0372, [0x0373]);
    (0x0376, [0x0377]); (0x037F, [0x03F3]); (0x0386, [0x03AC]);
    (0x0388, [0x03AD]); (0x0389, [0x03AE]); (0x038A, [0x03AF]);
    (0x038C, [0x03CC]); (0x038E, [0x03CD]); (0x038F, [0x03CE]);
    (0x0391, [0x03B1]); (0x0392, [0x03B2]); (0x0393, [0x03B3]);
    (0x0394, [0x03B4]); (0x0395, [0x03B5]); (0x0396, [0x03B6]);
    (0x0397, [0x03B7]); (0x0398, [0x03B8]); (0x0399, [0x03B9]);
    (0x039A, [0x03BA]); (0x039B, [0x03BB]); (0x039C, [0x03BC]);
    (0x039D, [0x03BD]); (0x039E, [0x03BE]); (0x039F, [0x03BF]);
    (0x03A0, [0x03C0]); (0x03A1, [0x03C1]); (0x03A3, [0x03C3]);
    (0x03A4, [0x03C4]); (0x03A5, [0x03C5]); (0x03A6, [0x03C6]);
    (0x03A7, [0x03C7]); (0x03A8, [0x03C8]); (0x03A9, [0x03C9]);
    (0x03AA, [0x03CA]); (0x03AB, [0x03CB]); (0x03CF, [0x03D7]);
    (0x03D8, [0x03D9]); (0x03DA, [0x03DB]); (0x03DC, [0x03DD]);
    (0x03DE, [0x03DF]); (0x03E0, [0x03E1]); (0x03E2, [0x03E3]);
    (0x03E4, [0x03E5]); (0x03E6, [0x03E7]); (0x03E8, [0x03E9]);
    (0x03EA, [0x03EB]); (0x03EC, [0x03ED]); (0x03EE, [0x03EF]);
    (0x03F4, [0x03B8]); (0x03F7, [0x03F8]); (0x03F9, [0x03F2]);
    (0x03FA, [0x03FB]); (0x03FD, [0x037B]); (0x03FE, [0x037C]);
    (0x03FF, [0x037D])
  ]%N.

Definition tolower (c : codepoint) : str :=
  match lookup lower_table c with
  | Some l => l
  | None => [c]
  end.

(** Derived property Cased. *)
Definition cased_ranges : list (codepoint * codepoint) :=
  [
    (0x0041, 0x005A); (0x0061, 0x007A); (0x00AA, 0x00AA); (0x00B5, 0x00B5);
    (0x00BA, 0x00BA); (0x00C0, 0x00D6); (0x00D8, 0x00F6); (0x00F8, 0x01BA);
    (0x01BC, 0x01BF); (0x01C4, 0x0293); (0x0295, 0x02B8); (0x02C0, 0x02C1);
    (0x02E0, 0x02E4); (0x0345, 0x0345); (0x0370, 0x0373); (0x0376, 0x0377);
    (0x037A, 0x037D); (0x037F, 0x037F); (0x0386, 0x0386); (0x0388, 0x038A);
    (0x038C, 0x038C); (0x038E, 0x03A1); (0x03A3, 0x03F5); (0x03F7, 0x03FF)
  ]%N.

(** Derived property Case_Ignorable. *)
Definition case_ignorable_ranges : list (codepoint * codepoint) :=
  [
    (0x0027, 0x0027); (0x002E, 0x002E); (0x003A, 0x003A); (0x005E, 0x005E);
    (0x0060, 0x0060); (0x00A8, 0x00A8); (0x00AD, 0x00AD); (0x00AF, 0x00AF);
    (0x00B4, 0x00B4); (0x00B7, 0x00B8); (0x02B0, 0x036F); (0x0374, 0x0375);
    (0x037A, 0x037A); (0x0384, 0x0385); (0x0387, 0x0387)
  ]%N.

Definition cased (c : codepoint) : bool := in_ranges cased_ranges c.
Definition case_ignorable (c : codepoint) : bool := in_ranges case_ignorable_ranges c.

Definition CAPITAL_SIGMA : codepoint := 0x3A3%N.
Definition SMALL_SIGMA : codepoint := 0x3C3%N.
Definition SMALL_FINAL_SIGMA : codepoint := 0x3C2%N.

(** The Final_Sigma condition of [str.lower]: the capital sigma follows
    a cased character and no cased character follows it, case-ignorable
    characters being skipped on both sides.  [before] holds the
    characters to the left, nearest first. *)
Definition handle_capital_sigma (before after : str) : codepoint :=
  let preceded :=
    match dropwhile case_ignorable before with
    | c :: _ => cased c
    | [] => false
    end in
  let followed :=
    match dropwhile case_ignorable after with
    | c :: _ => cased c
    | [] => false
    end in
  if preceded && negb followed then SMALL_FINAL_SIGMA else SMALL_SIGMA.

Fixpoint lower_from (before s : str) : str :=
  match s with
  | [] => []
  | c :: after =>
      (if (c =? CAPITAL_SIGMA)%N then [handle_capital_sigma before after]
       else tolower c)
      ++ lower_from (c :: before) after
  end.

(** [s.lower()] *)
Definition lower (s : str) : str := lower_from [] s.

(** Full canonical decomposition of the code points that have one
    (the canonical mappings of UnicodeData.txt, expanded). *)
Definition decomposition_table : list (codepoint * str) :=
  [
    (0x00C0, [0x0041; 0x0300]); (0x00C1, [0x0041; 0x0301]);
    (0x00C2, [0x0041; 0x0302]); (0x00C3, [0x0041; 0x0303]);
    (0x00C4, [0x0041; 0x0308]); (0x00C5, [0x0041; 0x030A]);
    (0x00C7, [0x0043; 0x0327]); (0x00C8, [0x0045; 0x0300]);
    (0x00C9, [0x0045; 0x0301]); (0x00CA, [0x0045; 0x0302]);
    (0x00CB, [0x0045; 0x0308]); (0x00CC, [0x0049; 0x0300]);
    (0x00CD, [0x0049; 0x0301]); (0x00CE, [0x0049; 0x0302]);
    (0x00CF, [0x0049; 0x0308]); (0x00D1, [0x004E; 0x0303]);
    (0x00D2, [0x004F; 0x0300]); (0x00D3, [0x004F; 0x0301]);
    (0x00D4, [0x004F; 0x0302]); (0x00D5, [0x004F; 0x0303]);
    (0x00D6, [0x004F; 0x0308]); (0x00D9, [0x0055; 0x0300]);
    (0x00DA, [0x0055; 0x0301]); (0x00DB, [0x0055; 0x0302]);
    (0x00DC, [0x0055; 0x0308]); (0x00DD, [0x0059; 0x0301]);
    (0x00E0, [0x0061; 0x0300]); (0x00E1, [0x0061; 0x0301]);
    (0x00E2, [0x0061; 0x0302]); (0x00E3, [0x0061; 0x0303]);
    (0x00E4, [0x0061; 0x0308]); (0x00E5, [0x0061; 0x030A]);
    (0x00E7, [0x0063; 0x0327]); (0x00E8, [0x0065; 0x0300]);
    (0x00E9, [0x0065; 0x0301]); (0x00EA, [0x0065; 0x0302]);
    (0x00EB, [0x0065; 0x0308]); (0x00EC, [0x0069; 0x0300]);
    (0x00ED, [0x0069; 0x0301]); (0x00EE, [0x0069; 0x0302]);
    (0x00EF, [0x0069; 0x0308]); (0x00F1, [0x006E; 0x0303]);
    (0x00F2, [0x006F; 0x0300]); (0x00F3, [0x006F; 0x0301]);
    (0x00F4, [0x006F; 0x0302]); (0x00F5, [0x006F; 0x0303]);
    (0x00F6, [0x006F; 0x0308]); (0x00F9, [0x0075; 0x0300]);
    (0x00FA, [0x0075; 0x0301]); (0x00FB, [0x0075; 0x0302]);
    (0x00FC, [0x0075; 0x0308]); (0x00FD, [0x0079; 0x0301]);
    (0x00FF, [0x0079; 0x0308]); (0x0100, [0x0041; 0x0304]);
    (0x0101, [0x0061; 0x0304]); (0x0102, [0x0041; 0x0306]);
    (0x0103, [0x0061; 0x0306]); (0x0104, [0x0041; 0x0328]);
    (0x0105, [0x0061; 0x0328]); (0x0106, [0x0043; 0x0301]);
    (0x0107, [0x0063; 0x0301]); (0x0108, [0x0043; 0x0302]);
    (0x0109, [0x0063; 0x0302]); (0x010A, [0x0043; 0x0307]);
    (0x010B, [0x0063; 0x0307]); (0x010C, [0x0043; 0x030C]);
    (0x010D, [0x0063; 0x030C]); (0x010E, [0x0044; 0x030C]);
    (0x010F, [0x0064; 0x030C]); (0x0112, [0x0045; 0x0304]);
    (0x0113, [0x0065; 0x0304]); (0x0114, [0x0045; 0x0306]);
    (0x0115, [0x0065; 0x0306]); (0x0116, [0x0045; 0x0307]);
    (0x0117, [0x0065; 0x0307]); (0x0118, [0x0045; 0x0328]);
    (0x0119, [0x0065; 0x0328]); (0x011A, [0x0045; 0x030C]);
    (0x011B, [0x0065; 0x030C]); (0x011C, [0x0047; 0x0302]);
    (0x011D, [0x0067; 0x0302]); (0x011E, [0x0047; 0x0306]);
    (0x011F, [0x0067; 0x0306]); (0x0120, [0x0047; 0x0307]);
    (0x0121, [0x0067; 0x0307]); (0x0122, [0x0047; 0x0327]);
    (0x0123, [0x0067; 0x0327]); (0x0124, [0x0048; 0x0302]);
    (0x0125, [0x0068; 0x0302]); (0x0128, [0x0049; 0x0303]);
    (0x0129, [0x0069; 0x0303]); (0x012A, [0x0049; 0x0304]);
    (0x012B, [0x0069; 0x0304]); (0x012C, [0x0049; 0x0306]);
    (0x012D, [0x0069; 0x0306]); (0x012E, [0x0049; 0x0328]);
    (0x012F, [0x0069; 0x0328]); (0x0130, [0x0049; 0x0307]);
    (0x0134, [0x004A; 0x0302]); (0x0135, [0x006A; 0x0302]);
    (0x0136, [0x004B; 0x0327]); (0x0137, [0x006B; 0x0327]);
    (0x0139, [0x004C; 0x0301]); (0x013A, [0x006C; 0x0301]);
    (0x013B, [0x004C; 0x0327]); (0x013C, [0x006C; 0x0327]);
    (0x013D, [0x004C; 0x030C]); (0x013E, [0x006C; 0x030C]);
    (0x0143, [0x004E; 0x0301]); (0x0144, [0x006E; 0x0301]);
    (0x0145, [0x004E; 0x0327]); (0x0146, [0x006E; 0x0327]);
    (0x0147, [0x004E; 0x030C]); (0x0148, [0x006E; 0x030C]);
    (0x014C, [0x004F; 0x0304]); (0x014D, [0x006F; 0x0304]);
    (0x014E, [0x004F; 0x0306]); (0x014F, [0x006F; 0x0306]);
    (0x0150, [0x004F; 0x030B]); (0x0151, [0x006F; 0x030B]);
    (0x0154, [0x0052; 0x0301]); (0x0155, [0x0072; 0x0301]);
    (0x0156, [0x0052; 0x0327]); (0x0157, [0x0072; 0x0327]);
    (0x0158, [0x0052; 0x030C]); (0x0159, [0x0072; 0x030C]);
    (0x015A, [0x0053; 0x0301]); (0x015B, [0x0073; 0x0301]);
    (0x015C, [0x0053; 0x0302]); (0x015D, [0x0073; 0x0302]);
    (0x015E, [0x0053; 0x0327]); (0x015F, [0x0073; 0x0327]);
    (0x0160, [0x0053; 0x030C]); (0x0161, [0x0073; 0x030C]);
    (0x0162, [0x0054; 0x0327]); (0x0163, [0x0074; 0x0327]);
    (0x0164, [0x0054; 0x030C]); (0x0165, [0x0074; 0x030C]);
    (0x0168, [0x0055; 0x0303]); (0x0169, [0x0075; 0x0303]);
    (0x016A, [0x0055; 0x0304]); (0x016B, [0x0075; 0x0304]);
    (0x016C, [0x0055; 0x0306]); (0x016D, [0x0075; 0x0306]);
    (0x016E, [0x0055; 0x030A]); (0x016F, [0x0075; 0x030A]);
    (0x0170, [0x0055; 0x030B]); (0x0171, [0x0075; 0x030B]);
    (0x0172, [0x0055; 0x0328]); (0x0173, [0x0075; 0x0328]);
    (0x0174, [0x0057; 0x0302]); (0x0175, [0x0077; 0x0302]);
    (0x0176, [0x0059; 0x0302]); (0x0177, [0x0079; 0x0302]);
    (0x0178, [0x0059; 0x0308]); (0x0179, [0x005A; 0x0301]);
    (0x017A, [0x007A; 0x0301]); (0x017B, [0x005A; 0x0307]);
    (0x017C, [0x007A; 0x0307]); (0x017D, [0x005A; 0x030C]);
    (0x017E, [0x007A; 0x030C]); (0x01A0, [0x004F; 0x031B]);
    (0x01A1, [0x006F; 0x031B]); (0x01AF, [0x0055; 0x031B]);
    (0x01B0, [0x0075; 0x031B]); (0x01CD, [0x0041; 0x030C]);
    (0x01CE, [0x0061; 0x030C]); (0x01CF, [0x0049; 0x030C]);
    (0x01D0, [0x0069; 0x030C]); (0x01D1, [0x004F; 0x030C]);
    (0x01D2, [0x006F; 0x030C]); (0x01D3, [0x0055; 0x030C]);
    (0x01D4, [0x0075; 0x030C]); (0x01D5, [0x0055; 0x0308; 0x0304]);
    (0x01D6, [0x0075; 0x0308; 0x0304]); (0x01D7, [0x0055; 0x0308; 0x0301]);
    (0x01D8, [0x0075; 0x0308; 0x0301]); (0x01D9, [0x0055; 0x0308; 0x030C]);
    (0x01DA, [0x0075; 0x0308; 0x030C]); (0x01DB, [0x0055; 0x0308; 0x0300]);
    (0x01DC, [0x0075; 0x0308; 0x0300]); (0x01DE, [0x0041; 0x0308; 0x0304]);
    (0x01DF, [0x0061; 0x0308; 0x0304]); (0x01E0, [0x0041; 0x0307; 0x0304]);
    (0x01E1, [0x0061; 0x0307; 0x0304]); (0x01E2, [0x00C6; 0x0304]);
    (0x01E3, [0x00E6; 0x0304]); (0x01E6, [0x0047; 0x030C]);
    (0x01E7, [0x0067; 0x030C]); (0x01E8, [0x004B; 0x030C]);
    (0x01E9, [0x006B; 0x030C]); (0x01EA, [0x004F; 0x0328]);
    (0x01EB, [0x006F; 0x0328]); (0x01EC, [0x004F; 0x0328; 0x0304]);
    (0x01ED, [0x006F; 0x0328; 0x0304]); (0x01EE, [0x01B7; 0x030C]);
    (0x01EF, [0x0292; 0x030C]); (0x01F0, [0x006A; 0x030C]);
    (0x01F4, [0x0047; 0x0301]); (0x01F5, [0x0067; 0x0301]);
    (0x01F8, [0x004E; 0x0300]); (0x01F9, [0x006E; 0x0300]);
    (0x01FA, [0x0041; 0x030A; 0x0301]); (0x01FB, [0x0061; 0x030A; 0x0301]);
    (0x01FC, [0x00C6; 0x0301]); (0x01FD, [0x00E6; 0x0301]);
    (0x01FE, [0x00D8; 0x0301]); (0x01FF, [0x00F8; 0x0301]);
    (0x0200, [0x0041; 0x030F]); (0x0201, [0x0061; 0x030F]);
    (0x0202, [0x0041; 0x0311]); (0x0203, [0x0061; 0x0311]);
    (0x0204, [0x0045; 0x030F]); (0x0205, [0x0065; 0x030F]);
    (0x0206, [0x0045; 0x0311]); (0x0207, [0x0065; 0x0311]);
    (0x0208, [0x0049; 0x030F]); (0x0209, [0x0069; 0x030F]);
    (0x020A, [0x0049; 0x0311]); (0x020B, [0x0069; 0x0311]);
    (0x020C, [0x004F; 0x030F]); (0x020D, [0x006F; 0x030F]);
    (0x020E, [0x004F; 0x0311]); (0x020F, [0x006F; 0x0311]);
    (0x0210, [0x0052; 0x030F]); (0x0211, [0x0072; 0x030F]);
    (0x0212, [0x0052; 0x0311]); (0x0213, [0x0072; 0x0311]);
    (0x0214, [0x0055; 0x030F]); (0x0215, [0x0075; 0x030F]);
    (0x0216, [0x0055; 0x0311]); (0x0217, [0x0075; 0x0311]);
    (0x0218, [0x0053; 0x0326]); (0x0219, [0x0073; 0x0326]);
    (0x021A, [0x0054; 0x0326]); (0x021B, [0x0074; 0x0326]);
    (0x021E, [0x0048; 0x030C]); (0x021F, [0x0068; 0x030C]);
    (0x0226, [0x0041; 0x0307]); (0x0227, [0x0061; 0x0307]);
    (0x0228, [0x0045; 0x0327]); (0x0229, [0x0065; 0x0327]);
    (0x022A, [0x004F; 0x0308; 0x0304]); (0x022B, [0x006F; 0x0308; 0x0304]);
    (0x022C, [0x004F; 0x0303; 0x0304]); (0x022D, [0x006F; 0x0303; 0x0304]);
    (0x022E, [0x004F; 0x0307]); (0x022F, [0x006F; 0x0307]);
    (0x0230, [0x004F; 0x0307; 0x0304]); (0x0231, [0x006F; 0x0307; 0x0304]);
    (0x0232, [0x0059; 0x0304]); (0x0233, [0x0079; 0x0304]);
    (0x0340, [0x0300]); (0x0341, [0x0301]); (0x0343, [0x0313]);
    (0x0344, [0x0308; 0x0301]); (0x0374, [0x02B9]); (0x037E, [0x003B]);
    (0x0385, [0x00A8; 0x0301]); (0x0386, [0x0391; 0x0301]);
    (0x0387, [0x00B7]); (0x0388, [0x0395; 0x0301]);
    (0x0389, [0x0397; 0x0301]); (0x038A, [0x0399; 0x0301]);
    (0x038C, [0x039F; 0x0301]); (0x038E, [0x03A5; 0x0301]);
    (0x038F, [0x03A9; 0x0301]); (0x0390, [0x03B9; 0x0308; 0x0301]);
    (0x03AA, [0x0399; 0x0308]); (0x03AB, [0x03A5; 0x0308]);
    (0x03AC, [0x03B1; 0x0301]); (0x03AD, [0x03B5; 0x0301]);
    (0x03AE, [0x03B7; 0x0301]); (0x03AF, [0x03B9; 0x0301]);
    (0x03B0, [0x03C5; 0x0308; 0x0301]); (0x03CA, [0x03B9; 0x0308]);
    (0x03CB, [0x03C5; 0x0308]); (0x03CC, [0x03BF; 0x0301]);
    (0x03CD, [0x03C5; 0x0301]); (0x03CE, [0x03C9; 0x0301]);
    (0x03D3, [0x03D2; 0x0301]); (0x03D4, [0x03D2; 0x0308])
  ]%N.

Definition decompose (c : codepoint) : str :=
  match lookup decomposition_table c with
  | Some d => d
  | None => [c]
  end.

(** Canonical combining class, where it is not zero. *)
Definition combining_table : list (codepoint * codepoint * N) :=
  [
    (0x0300, 0x0314, 230); (0x0315, 0x0315, 232); (0x0316, 0x0319, 220);
    (0x031A, 0x031A, 232); (0x031B, 0x031B, 216); (0x031C, 0x0320, 220);
    (0x0321, 0x0322, 202); (0x0323, 0x0326, 220); (0x0327, 0x0328, 202);
    (0x0329, 0x0333, 220); (0x0334, 0x0338, 1); (0x0339, 0x033C, 220);
    (0x033D, 0x0344, 230); (0x0345, 0x0345, 240); (0x0346, 0x0346, 230);
    (0x0347, 0x0349, 220); (0x034A, 0x034C, 230); (0x034D, 0x034E, 220);
    (0x0350, 0x0352, 230); (0x0353, 0x0356, 220); (0x0357, 0x0357, 230);
    (0x0358, 0x0358, 232); (0x0359, 0x035A, 220); (0x035B, 0x035B, 230);
    (0x035C, 0x035C, 233); (0x035D, 0x035E, 234); (0x035F, 0x035F, 233);
    (0x0360, 0x0361, 234); (0x0362, 0x0362, 233); (0x0363, 0x036F, 230)
  ]%N.

Fixpoint combining_in (t : list (codepoint * codepoint * N)) (c : codepoint) : N :=
  match t with
  | [] => 0%N
  | (lo, hi, v) :: t' =>
      if (lo <=? c)%N && (c <=? hi)%N then v else combining_in t' c
  end.

(** [unicodedata.combining(c)] *)
Definition combining (c : codepoint) : N := combining_in combining_table c.

(** General category Mn (nonspacing mark). *)
Definition Mn_ranges : list (codepoint * codepoint) :=
  [
    (0x0300, 0x036F)
  ]%N.


(** [unicodedata.category(c) == 'Mn'] *)
Definition category_is_Mn (c : codepoint) : bool := in_ranges Mn_ranges c.

(** Canonical ordering, as [unicodedata.normalize] does it: an
    insertion sort that moves a character with a non-zero combining
    class to the left of the marks of greater class before it, and
    never across a starter.  [out] is the ordered output so far, last
    character first. *)
Fixpoint sink (c : codepoint) (out : str) : str :=
  match out with
  | p :: out' =>
      if (combining p =? 0)%N || (combining p <=? combining c)%N
      then c :: out
      else p :: sink c out'
  | [] => [c]
  end.

Definition place (out : str) (c : codepoint) : str :=
  if (combining c =? 0)%N then c :: out else sink c out.

Definition canonical_order (s : str) : str := rev (fold_left place s []).

(** [unicodedata.normalize('NFD', s)] *)
Definition normalize_NFD (s : str) : str :=
  canonical_order (flat_map decompose s).

End Unicode.

(* ===================================================================== *)
(** * The two regular expressions of [Menu] *)
(* ===================================================================== *)

Module Re.

(** [(.+)$] from the current position, without MULTILINE or DOTALL.  The
    greedy [.+] takes every character up to the first line feed; [$]
    holds at the end of the string and just before a final line feed.
    Giving characters back cannot help: the character after a shorter
    group is not a line feed.  The result is group 2. *)
Definition dot_plus_eol (s : str) : option str :=
  let body := takewhile (fun c => negb (c =? LF)%N) s in
  let rest := dropwhile (fun c => negb (c =? LF)%N) s in
  match body, rest with
  | [], _ => None
  | _ :: _, [] => Some body
  | _ :: _, [_] => Some body
  | _ :: _, _ :: _ :: _ => None
  end.

(** [\s*(.+)$]: the greedy star takes a whitespace character when it
    can, and gives it back when the rest fails. *)
Fixpoint spaces_then_text (s : str) : option str :=
  match s with
  | c :: s' =>
      if isspace c then
        match spaces_then_text s' with
        | Some g => Some g
        | None => dot_plus_eol s
        end
      else dot_plus_eol s
  | [] => dot_plus_eol s
  end.

(** [#{1,6}] followed by the continuation [k]: [budget] more '#' may be
    taken, [taken] have been; greedy, with backtracking down to one. *)
Fixpoint hashes {A} (k : str -> option A) (budget taken : nat) (s : str)
  : option (nat * A) :=
  let stop :=
    match taken with
    | O => None
    | S _ => option_map (pair taken) (k s)
    end in
  match budget, s with
  | S budget', c :: s' =>
      if (c =? HASH)%N then
        match hashes k budget' (S taken) s' with
        | Some r => Some r
        | None => stop
        end
      else stop
  | _, _ => stop
  end.

(** [re.match(r'^(#{1,6})\s*(.+)$', ln)]: the length of group 1 and
    group 2. *)
Definition match_heading (ln : str) : option (nat * str) :=
  hashes spaces_then_text 6 0 ln.

(** [re.match(r'^(#{1,6})\s*', ln)] as a truth value: [\s*] always
    matches. *)
Definition match_heading_prefix (ln : str) : bool :=
  match hashes (fun _ => Some tt) 6 0 ln with
  | Some _ => true
  | None => false
  end.

End Re.

(* ===================================================================== *)
(** * Helper functions of [Menu] *)
(* ===================================================================== *)

Definition heading := (nat * nat * str)%type.

Definition h_pos (h : heading) : nat := fst (fst h).
Definition h_level (h : heading) : nat := snd (fst h).
Definition h_title (h : heading) : str := snd h.

(** The loop of [parse_headings] from line number [i] on. *)
Fixpoint parse_headings_from (i : nat) (lines : list str) : list heading :=
  match lines with
  | [] => []
  | ln :: rest =>
      match Re.match_heading ln with
      | Some (level, g2) => (i, level, strip g2) :: parse_headings_from (S i) rest
      | None => parse_headings_from (S i) rest
      end
  end.

Definition parse_headings (lines : list str) : list heading :=
  parse_headings_from 0 lines.

(** The buffer of [all_paragraphs] is emitted when it is not empty. *)
Definition flush (paras buf : list str) : list str :=
  match buf with
  | [] => paras
  | _ :: _ => paras ++ [strip (join [LF] buf)]
  end.

(** The loop of [all_paragraphs] over the state [(paras, buf)]; a
    heading line is skipped by [continue] and leaves the buffer as it
    is. *)
Fixpoint all_paragraphs_loop (paras buf lines : list str) : list str :=
  match lines with
  | [] => flush paras buf
  | ln :: rest =>
      if Re.match_heading_prefix ln then all_paragraphs_loop paras buf rest
      else if str_eqb (strip ln) [] then all_paragraphs_loop (flush paras buf) [] rest
      else all_paragraphs_loop paras (buf ++ [ln]) rest
  end.

Definition all_paragraphs (lines : list str) : list str :=
  all_paragraphs_loop [] [] lines.

(** The inner loop shared by [get_section], [pseudocodigo_diagrama] and
    [sugerencias_copilot]: [end] starts at [n] and becomes the position
    of the first heading of the list with [idx2 > idx] and
    [level2 <= level]. *)
Definition section_end (headings : list heading) (idx level n : nat) : nat :=
  match find (fun h2 => (idx <? h_pos h2) && (h_level h2 <=? level)) headings with
  | Some h2 => h_pos h2
  | None => n
  end.

(** [start] and [end] as [get_section] computes them, when a title
    contains [title_search]. *)
Definition get_section_range (lines : list str) (title_search : str)
  : option (nat * nat) :=
  let headings := parse_headings lines in
  match find (fun h => contains (Unicode.lower (h_title h)) (Unicode.lower title_search))
             headings with
  | Some h => Some (h_pos h + 1, section_end headings (h_pos h) (h_level h) (length lines))
  | None => None
  end.

Definition get_section (lines : list str) (title_search : str) : list str :=
  match get_section_range lines title_search with
  | Some (start, stop) => slice lines start stop
  | None => []
  end.

Definition FENCE : str := [BACKTICK; BACKTICK; BACKTICK].

(** The loop of [extract_code_block] over [(inside_code, code_lines)]. *)
Fixpoint extract_code_loop (inside_code : bool) (code_lines lines : list str)
  : list str :=
  match lines with
  | [] => code_lines
  | ln :: rest =>
      if startswith (strip ln) FENCE
      then extract_code_loop (negb inside_code) code_lines rest
      else if inside_code
           then extract_code_loop inside_code (code_lines ++ [ln]) rest
           else extract_code_loop inside_code code_lines rest
  end.

Definition extract_code_block (lines : list str) : str :=
  strip (join [LF] (extract_code_loop false [] lines)).

(* ===================================================================== *)
(** * Menu modules: the pure part *)
(* ===================================================================== *)

(** The local function [_norm] of [dataset], [pseudocodigo_diagrama]
    and [sugerencias_copilot]. *)
Definition _norm (s : str) : str :=
  let s2 := Unicode.normalize_NFD s in
  let s2 := filter (fun c => negb (Unicode.category_is_Mn c)) s2 in
  Unicode.lower s2.

(** What a sub-menu entry of [dataset] ends in: one of the two "no se
    encontró" messages, or the lines [start:end] being shown. *)
Inductive reason := start_missing | end_missing.

Inductive outcome :=
| NotFound (r : reason)
| Range (start stop : nat).

(** The text handed to [show_text] for a range of lines. *)
Definition shown (lines : list str) (start stop : nat) : str :=
  strip (join [LF] (slice lines start stop)).

(** One iteration of the heading loop of [dataset]: each of the two
    indices is set by the first heading that passes its test and is
    left alone afterwards. *)
Definition scan_step (first_p second_p : nat -> str -> bool)
    (st : option nat * option nat) (h : heading) : option nat * option nat :=
  let n := _norm (h_title h) in
  let a := match fst st with
           | None => if first_p (h_level h) n then Some (h_pos h) else None
           | Some i => Some i
           end in
  let b := match snd st with
           | None => if second_p (h_level h) n then Some (h_pos h) else None
           | Some i => Some i
           end in
  (a, b).

Definition scan (first_p second_p : nat -> str -> bool) (headings : list heading)
  : option nat * option nat :=
  fold_left (scan_step first_p second_p) headings (None, None).

Definition is_dataset_referencia (level : nat) (n : str) : bool :=
  (level =? 2) && contains n (py "dataset") && contains n (py "referenc").

Definition is_tabla_clientes (level : nat) (n : str) : bool :=
  (level =? 3) && contains n (py "tabla") && contains n (py "clientes").

Definition is_programa_interactivo (level : nat) (n : str) : bool :=
  (level =? 2) && contains n (py "programa") && contains n (py "interact").

Inductive choice := choice_a | choice_b.

(** One pass of the sub-menu of [dataset] for the choice typed in. *)
Definition dataset (ch : choice) (lines : list str) : outcome :=
  let headings := parse_headings lines in
  match ch with
  | choice_a =>
      let '(ds_idx, tabla_idx) := scan is_dataset_referencia is_tabla_clientes headings in
      match ds_idx with
      | None => NotFound start_missing
      | Some ds =>
          match tabla_idx with
          | None => NotFound end_missing
          | Some tabla =>
              if tabla <=? ds then NotFound end_missing else Range ds tabla
          end
      end
  | choice_b =>
      let '(tabla_idx, prog_idx) := scan is_tabla_clientes is_programa_interactivo headings in
      match tabla_idx with
      | None => NotFound start_missing
      | Some tabla =>
          let end_idx :=
            match prog_idx with
            | Some prog =>
                if negb (prog =? 0) && (tabla <? prog) then prog else length lines
            | None => length lines
            end in
          Range tabla end_idx
      end
  end.

(** The two entries of [dataset] are one computation with different
    tests and a different treatment of a missing end: [find_range]
    takes both as arguments. *)
Inductive end_fallback := fail | to_end.

Definition find_range (start_predicate end_predicate : nat -> str -> bool)
    (fb : end_fallback) (lines : list str) : outcome :=
  let '(start_idx, end_idx) := scan start_predicate end_predicate (parse_headings lines) in
  match start_idx with
  | None => NotFound start_missing
  | Some s =>
      let missing :=
        match fb with
        | fail => NotFound end_missing
        | to_end => Range s (length lines)
        end in
      match end_idx with
      | Some e => if s <? e then Range s e else missing
      | None => missing
      end
  end.

(** The ranges collected in [sections] by [sugerencias_copilot]: one
    per heading of [headings] inside [start, end) whose level is in
    [levels], from its own line to the first heading before [end] with
    [level2 <= level], or to [end]. *)
Definition sub_end (headings : list heading) (stop : nat) (h : heading) : nat :=
  match find (fun h2 => (h_pos h <? h_pos h2) && (h_pos h2 <? stop)
                        && (h_level h2 <=? h_level h)) headings with
  | Some h2 => h_pos h2
  | None => stop
  end.

Definition subsections (levels : list nat) (headings : list heading)
    (start stop : nat) : list (nat * nat) :=
  flat_map (fun h =>
    if (h_pos h <? start) || (stop <=? h_pos h) then []
    else if existsb (Nat.eqb (h_level h)) levels then [(h_pos h, sub_end headings stop h)]
    else []) headings.

(** With the fallback of [sugerencias_copilot]: the whole block when
    [sections] is empty. *)
Definition partition_subsections (levels : list nat) (headings : list heading)
    (start stop : nat) : list (nat * nat) :=
  match subsections levels headings start stop with
  | [] => [(start, stop)]
  | r :: rs => r :: rs
  end.

(** The text [sugerencias_copilot] hands to [show_text]. *)
Definition sugerencias_copilot (lines : list str) : str :=
  let headings := parse_headings lines in
  match find (fun h => contains (Unicode.lower (h_title h)) (py "sugerencias copilot"))
             headings with
  | None => py "No se encontró la sección 'Sugerencias Copilot'."
  | Some target =>
      let start := h_pos target in
      let stop := section_end headings start (h_level target) (length lines) in
      match subsections [2; 3] headings start stop with
      | [] =>
          match shown lines start stop with
          | [] => py "No hay contenido en 'Sugerencias Copilot'."
          | out => out
          end
      | sections =>
          join [LF; LF] (map (fun r => shown lines (fst r) (snd r)) sections)
      end
  end.

(* ===================================================================== *)
(** * Vocabulary of the properties *)
(* ===================================================================== *)

(** A line as [str.splitlines] produces it holds no line feed. *)
Definition single_line (ln : str) : bool :=
  forallb (fun c => negb (c =? LF)%N) ln.

(** The number of '#' a string starts with. *)
Fixpoint leading_hashes (s : str) : nat :=
  match s with
  | c :: s' => if (c =? HASH)%N then S (leading_hashes s') else 0
  | [] => 0
  end.

(** What the pattern of [parse_headings] makes of a single line: group
    1 takes the leading '#', at most six of them, and leaves at least
    one character of the line to group 2. *)
Definition heading_level (ln : str) : nat :=
  Nat.min (Nat.min 6 (leading_hashes ln)) (List.length ln - 1).

(** The title is what follows group 1, trimmed. *)
Definition heading_title (ln : str) : str :=
  strip (skipn (heading_level ln) ln).

(** The pattern needs one '#' in group 1. *)
Definition is_heading_line (ln : str) : bool := 1 <=? heading_level ln.

(** A match as [parse_headings] uses it: [len(m.group(1))] and
    [m.group(2).strip()]. *)
Definition strip_group (r : option (nat * str)) : option (nat * str) :=
  option_map (fun r => (fst r, strip (snd r))) r.

(** The search of [Re.hashes] once it takes no further '#': group 1 must
    hold one at least, and the continuation decides. *)
Definition hashes_stop {A} (k : str -> option A) (taken : nat) (s : str)
  : option (nat * A) :=
  match taken with
  | O => None
  | S _ => option_map (pair taken) (k s)
  end.

(** The heading line as the specification words it: one to six '#',
    then white space, then text; the level is the number of '#' and the
    title the trimmed remainder. *)
Definition atx_heading (ln : str) : option (nat * str) :=
  let k := leading_hashes ln in
  let rest := skipn k ln in
  match rest with
  | c :: _ =>
      if (1 <=? k) && (k <=? 6) && isspace c && negb (str_eqb (strip rest) [])
      then Some (k, strip rest)
      else None
  | [] => None
  end.

(** A heading list in document order: positions increase strictly. *)
Definition increasing (hs : list heading) : Prop :=
  StronglySorted lt (map h_pos hs).

(** [h] is the heading of least position among those of [hs] that pass
    the test [f]. *)
Definition first_with (f : heading -> bool) (hs : list heading) (h : heading) : Prop :=
  In h hs /\ f h = true /\
  forall h', In h' hs -> f h' = true -> h_pos h <= h_pos h'.

(** A heading closes the section of an anchor at position [P] and level
    [L] when it comes later and is not deeper. *)
Definition closes (P L : nat) (h2 : heading) : bool :=
  (P <? h_pos h2) && (h_level h2 <=? L).

(** [E] is the nesting boundary of the anchor: the position of the
    first heading that closes its section, or [n] when there is none. *)
Definition nesting_boundary (hs : list heading) (P L n E : nat) : Prop :=
  (exists h2, first_with (closes P L) hs h2 /\ E = h_pos h2)
  \/ ((forall h2, In h2 hs -> closes P L h2 = false) /\ E = n).

(** The test of [get_section]: [title_search.lower() in title.lower()]. *)
Definition title_matches (title_search : str) (h : heading) : bool :=
  contains (Unicode.lower (h_title h)) (Unicode.lower title_search).

(** A test of [dataset] on a heading: on its level and its normalised
    title. *)
Definition satisfies (p : nat -> str -> bool) (h : heading) : bool :=
  p (h_level h) (_norm (h_title h)).

(** An index of the loop of [dataset] after the headings [hs]: kept when
    set, else set by the first heading that passes the test. *)
Definition or_first (acc : option nat) (p : nat -> str -> bool) (hs : list heading)
  : option nat :=
  match acc with
  | Some i => Some i
  | None => option_map h_pos (find (satisfies p) hs)
  end.

(** A heading after position [s] that passes the test [p]. *)
Definition after (s : nat) (p : nat -> str -> bool) (h : heading) : bool :=
  (s <? h_pos h) && satisfies p h.



(** The blank-line test of [all_paragraphs]: the stripped line is empty. *)
Definition blank (ln : str) : bool := str_eqb (strip ln) [].

(** The lines the loop does not [continue] over. *)
Definition skip_headings (lines : list str) : list str :=
  filter (fun ln => negb (Re.match_heading_prefix ln)) lines.

(** The text of a paragraph. *)
Definition paragraph (run : list str) : str := strip (join [LF] run).

(** [maximal_runs doc runs]: [runs] lists, in order, the maximal runs of
    consecutive non-blank lines of [doc].  A run ends at a blank line or
    at the end of [doc], and the next one starts after the blank lines
    that follow. *)
Inductive maximal_runs : list str -> list (list str) -> Prop :=
| runs_nil : maximal_runs [] []
| runs_blank ln doc rs :
    blank ln = true -> maximal_runs doc rs -> maximal_runs (ln :: doc) rs
| runs_last run :
    run <> [] -> forallb (fun ln => negb (blank ln)) run = true ->
    maximal_runs run [run]
| runs_more run ln doc rs :
    run <> [] -> forallb (fun ln => negb (blank ln)) run = true ->
    blank ln = true -> maximal_runs doc rs ->
    maximal_runs (run ++ ln :: doc) (run :: rs).

(** The runs of [buf ++ doc], [buf] being a run under way. *)
Fixpoint group (buf doc : list str) : list (list str) :=
  match doc with
  | [] => match buf with [] => [] | _ :: _ => [buf] end
  | ln :: rest =>
      if blank ln
      then match buf with
           | [] => group [] rest
           | _ :: _ => buf :: group [] rest
           end
      else group (buf ++ [ln]) rest
  end.

(** The fence test of [extract_code_block]. *)
Definition is_fence (ln : str) : bool := startswith (strip ln) FENCE.

(** Line [i] lies inside code when an odd number of fence lines comes
    before it. *)
Definition in_code (lines : list str) (i : nat) : bool :=
  Nat.odd (List.length (filter is_fence (firstn i lines))).

(** The lines inside code that are not fences themselves, in order. *)
Definition code_lines (lines : list str) : list str :=
  map snd
    (filter (fun p => negb (is_fence (snd p)) && in_code lines (fst p))
            (combine (seq 0 (List.length lines)) lines)).

(** The filter of [_norm]: [unicodedata.category(c) != 'Mn']. *)
Definition not_Mn (c : codepoint) : bool := negb (Unicode.category_is_Mn c).

(** Alphabets: the code points of the tables, and those of them that
    [str.lower] maps without looking at their neighbours. *)
Definition tabled (c : codepoint) : bool := Unicode.in_tables c.

Definition plain (c : codepoint) : bool :=
  Unicode.in_tables c && negb (c =? Unicode.CAPITAL_SIGMA)%N.

(** One difference in letter case or in diacritics between two strings
    over the alphabet [A]: a character against its lower-case mapping,
    a combining mark against nothing, a precomposed character against
    its canonical decomposition. *)
Inductive edit (A : codepoint -> bool) : str -> str -> Prop :=
| edit_case s c t :
    forallb A (s ++ c :: t) = true ->
    forallb A (s ++ Unicode.tolower c ++ t) = true ->
    edit A (s ++ c :: t) (s ++ Unicode.tolower c ++ t)
| edit_mark s m t :
    Unicode.category_is_Mn m = true ->
    forallb A (s ++ m :: t) = true ->
    edit A (s ++ m :: t) (s ++ t)
| edit_decompose s c t :
    forallb A (s ++ c :: t) = true ->
    forallb A (s ++ Unicode.decompose c ++ t) = true ->
    edit A (s ++ c :: t) (s ++ Unicode.decompose c ++ t).

(** Two strings that differ only in letter case and diacritics: linked
    by such differences, in either direction. *)
Definition same_letters (A : codepoint -> bool) : str -> str -> Prop :=
  clos_refl_sym_trans str (edit A).

(** What [_norm] makes of one character of the [plain] alphabet. *)
Definition norm_char (c : codepoint) : str :=
  flat_map Unicode.tolower (filter not_Mn (Unicode.decompose c)).

(** The code points of the tables, U+0000 to U+03FF. *)
Definition all_tabled : list codepoint := map N.of_nat (seq 0 1024).

(** The facts about one character that the invariance of [_norm] rests
    on; they are checked on every character of the tables. *)
Definition char_facts (c : codepoint) : bool :=
  forallb (fun d => implb (negb (Unicode.combining d =? 0)%N) (Unicode.category_is_Mn d))
          (Unicode.decompose c)
  && negb (existsb (N.eqb Unicode.CAPITAL_SIGMA) (Unicode.decompose c))
  && implb (forallb plain (Unicode.tolower c))
           (str_eqb (flat_map norm_char (Unicode.tolower c)) (norm_char c))
  && implb (Unicode.category_is_Mn c) (str_eqb (norm_char c) [])
  && implb (forallb plain (Unicode.decompose c))
           (str_eqb (flat_map norm_char (Unicode.decompose c)) (norm_char c)).

(* ===================================================================== *)
(** * Sample documents *)
(* ===================================================================== *)

Definition doc_headings : list str :=
  [py "# Título"; py "texto"; py "##Sub"; py "#"; []; py "####### x"; py "###   "].

Definition doc_sections : list str :=
  [py "# Proyecto"; py "intro"; py "## Información general"; py "a";
   py "### Detalle"; py "b"; py "## Pasos"; py "c"; py "# Fin"].

Definition doc_empty_section : list str := [py "# Pasos"; py "# Fin"; py "z"].

Definition doc_sigma : list str :=
  [py "# ΣΥΣΤΗΜΑ"; py "a"; py "# ΑΝΑΛΥΣΗ ΣΥΣ"; py "b"].


Definition doc_dataset : list str :=
  [py "# Tienda"; py "## Dataset de Referencia"; py "resumen"; py "### Tabla Clientes";
   py "filas"; py "## Conclusiones"].

Definition doc_tabla_twice : list str :=
  [py "### Tabla clientes"; py "## Dataset de referencia"; py "resumen";
   py "### Tabla clientes"; py "filas"].

Definition doc_programa_twice : list str :=
  [py "## Programa Interactivo"; py "### Tabla clientes"; py "filas";
   py "## Programa Interactivo"; py "fin"].

Definition doc_copilot : list str :=
  [py "# Doc"; py "# Sugerencias Copilot"; py "intro"; py "## Uno"; py "a";
   py "### Uno-a"; py "b"; py "## Dos"; py "c"; py "# Fin"].

(* ===================================================================== *)
(** * More of [Menu]: [pseudocodigo_diagrama] *)
(* ===================================================================== *)

Definition TERMS : list str := [py "pseudocodigo"; py "diagrama"].

(** The ranges [pseudocodigo_diagrama] collects in [sections]: one per
    heading of level 3 whose normalised title contains one of the
    terms, from the heading's own line to its nesting boundary. *)
Definition pseudocodigo_sections (headings : list heading) (n : nat)
  : list (nat * nat) :=
  flat_map (fun h =>
    if negb (h_level h =? 3) then []
    else if existsb (fun t => contains (_norm (h_title h)) t) TERMS
         then [(h_pos h, section_end headings (h_pos h) (h_level h) n)]
         else []) headings.

(** The text [pseudocodigo_diagrama] hands to [show_text]. *)
Definition pseudocodigo_diagrama (lines : list str) : str :=
  let headings := parse_headings lines in
  match headings with
  | [] => py "No se encontraron encabezados en el documento."
  | _ :: _ =>
      match pseudocodigo_sections headings (List.length lines) with
      | [] => py "No se encontraron secciones de 'Pseudocódigo' o 'Diagrama' en el documento."
      | sections => join [LF; LF] (map (fun r => shown lines (fst r) (snd r)) sections)
      end
  end.

(** The two tests of [pseudocodigo_diagrama] on a heading, together. *)
Definition is_pseudocodigo_diagrama (h : heading) : bool :=
  (h_level h =? 3) && existsb (fun t => contains (_norm (h_title h)) t) TERMS.

(** A heading moved down by [k] lines. *)
Definition shift (k : nat) (h : heading) : heading :=
  (h_pos h + k, h_level h, h_title h).

(** Ranges that follow one another without sharing a line. *)
Definition apart (r r' : nat * nat) : Prop := snd r <= fst r'.

Definition doc_pseudo : list str :=
  [py "## Programa"; py "### Pseudocódigo"; py "inicio"; py "#### Nota"; py "n";
   py "### Diagrama de flujo"; py "d"; py "### Otros"; py "o"; py "## Fin"].

(* ===================================================================== *)
(** * More of Python's [str] and [int] *)
(* ===================================================================== *)

(** As for [Unicode], the character classes are those of the code
    points below U+0400; a code point at or above U+0400 is taken to be
    in neither class, which is not what Python does with it: the
    statements over these functions stay below U+0400. *)
Module Chars.

Definition COMMA : codepoint := 0x2C%N.
Definition HYPHEN : codepoint := 0x2D%N.
Definition UNDERSCORE : codepoint := 0x5F%N.
Definition PLUS : codepoint := 0x2B%N.

(** The characters for which [ch.isalnum()] holds. *)
Definition alnum_ranges : list (codepoint * codepoint) :=
  [
    (0x0030, 0x0039); (0x0041, 0x005A); (0x0061, 0x007A); (0x00AA, 0x00AA);
    (0x00B2, 0x00B3); (0x00B5, 0x00B5); (0x00B9, 0x00BA); (0x00BC, 0x00BE);
    (0x00C0, 0x00D6); (0x00D8, 0x00F6); (0x00F8, 0x02C1); (0x02C6, 0x02D1);
    (0x02E0, 0x02E4); (0x02EC, 0x02EC); (0x02EE, 0x02EE); (0x0370, 0x0374);
    (0x0376, 0x0377); (0x037A, 0x037D); (0x037F, 0x037F); (0x0386, 0x0386);
    (0x0388, 0x038A); (0x038C, 0x038C); (0x038E, 0x03A1); (0x03A3, 0x03F5);
    (0x03F7, 0x03FF)
  ]%N.

Definition isalnum (c : codepoint) : bool := Unicode.in_ranges alnum_ranges c.

(** The characters for which [ch.isdigit()] holds: the decimal digits
    and the superscripts one, two and three. *)
Definition isdigit_char (c : codepoint) : bool :=
  ((0x30 <=? c) && (c <=? 0x39) || (c =? 0xB2) || (c =? 0xB3) || (c =? 0xB9))%N.

(** [s.isdigit()] *)
Definition isdigit (s : str) : bool :=
  match s with
  | [] => false
  | _ :: _ => forallb isdigit_char s
  end.

(** The value of a decimal digit, as [int] reads it. *)
Definition decimal (c : codepoint) : option Z :=
  if ((0x30 <=? c) && (c <=? 0x39))%N then Some (Z.of_N (c - 0x30)) else None.

(** The digits of an [int] literal: decimal digits, with single
    underscores between them.  The result is the value and the number
    of digits. *)
Fixpoint int_digits (acc : Z) (n : nat) (after_digit : bool) (s : str)
  : option (Z * nat) :=
  match s with
  | [] => if after_digit then Some (acc, n) else None
  | c :: s' =>
      match decimal c with
      | Some d => int_digits (acc * 10 + d)%Z (S n) true s'
      | None =>
          if (c =? UNDERSCORE)%N && after_digit then int_digits acc n false s'
          else None
      end
  end.

(** The white space [int] drops around a literal: that of [isspace],
    without the four separators U+001C to U+001F. *)
Definition int_space (c : codepoint) : bool :=
  isspace c && negb ((0x1C <=? c) && (c <=? 0x1F))%N.

(** [s.strip(chars)] *)
Definition strip_chars (chars : codepoint -> bool) (s : str) : str :=
  rev (dropwhile chars (rev (dropwhile chars s))).

(** [int(s)] in base ten, [None] standing for [ValueError]: white space
    around the literal is dropped, one sign may come first, and a
    literal of more than 4300 digits is refused (the default limit of
    CPython 3.11). *)
Definition int (s : str) : option Z :=
  let s := strip_chars int_space s in
  let '(negative, digits) :=
    match s with
    | c :: r =>
        if (c =? HYPHEN)%N then (true, r)
        else if (c =? PLUS)%N then (false, r)
        else (false, s)
    | [] => (false, [])
    end in
  match int_digits 0%Z 0 false digits with
  | Some (v, n) => if 4300 <? n then None else Some (if negative then (- v)%Z else v)
  | None => None
  end.

(** [s.split(sep)] for a separator of one character; [cur] is the piece
    under way. *)
Fixpoint split_on (sep : codepoint) (cur s : str) : list str :=
  match s with
  | [] => [cur]
  | c :: s' =>
      if (c =? sep)%N then cur :: split_on sep [] s'
      else split_on sep (cur ++ [c]) s'
  end.

Definition split (sep : codepoint) (s : str) : list str := split_on sep [] s.

End Chars.

(* ===================================================================== *)
(** * The converter [pasarxlsxacsv.py] *)
(* ===================================================================== *)

Module pasarxlsxacsv.

(** What the converter reports with a [RuntimeError]. *)
Inductive failure :=
| not_opened
| no_sheets
| index_out_of_range (idx : Z)
| no_such_sheet (item : str)
| unreadable_sheet (sheet_name : str)
| unwritable (out_path : str).

(** The exceptions that leave the functions below: the [RuntimeError]
    they raise themselves, and the [ValueError] of [int]. *)
Inductive exception :=
| RuntimeError (why : failure)
| ValueError (literal : str).

(** The loop of [read_sheets_list] over the requested items. *)
Fixpoint select_sheets (all_names requested result : list str)
  : list str + exception :=
  match requested with
  | [] => inl result
  | item :: rest =>
      if Chars.isdigit item then
        match Chars.int item with
        | None => inr (ValueError item)
        | Some idx =>
            if ((idx <? 0) || (Z.of_nat (length all_names) <=? idx))%Z
            then inr (RuntimeError (index_out_of_range idx))
            else select_sheets all_names rest
                   (result ++ [nth (Z.to_nat idx) all_names []])
        end
      else if existsb (str_eqb item) all_names
           then select_sheets all_names rest (result ++ [item])
           else inr (RuntimeError (no_such_sheet item))
  end.

(** [[s.strip() for s in sheets_opt.split(",") if s.strip()]] *)
Definition requested_items (sheets_opt : str) : list str :=
  map strip
    (filter (fun s => match strip s with [] => false | _ :: _ => true end)
            (Chars.split Chars.COMMA sheets_opt)).

(** [read_sheets_list] once the workbook is open: [all_names] are its
    sheet names, in the order of the workbook. *)
Definition read_sheets_list (all_names : list str) (sheets_opt : str)
  : list str + exception :=
  match all_names with
  | [] => inr (RuntimeError no_sheets)
  | first :: _ =>
      let opt := Unicode.lower (strip sheets_opt) in
      if str_eqb opt (py "first") then inl [first]
      else if str_eqb opt (py "all") then inl all_names
      else select_sheets all_names (requested_items sheets_opt) []
  end.

(** The character [safe_sheet_suffix] keeps for [ch]. *)
Definition keep_char (ch : codepoint) : codepoint :=
  if Chars.isalnum ch || (ch =? Chars.HYPHEN)%N || (ch =? Chars.UNDERSCORE)%N then ch
  else if isspace ch then Chars.UNDERSCORE
  else Chars.UNDERSCORE.

Definition safe_sheet_suffix (name : str) : str :=
  Chars.strip_chars (N.eqb Chars.UNDERSCORE) (map keep_char name).

(** The name of the file written for a sheet, inside the output
    directory. *)
Definition out_name (base : str) (multiple : bool) (sheet_name : str) : str :=
  let suffix :=
    if multiple then Chars.UNDERSCORE :: safe_sheet_suffix sheet_name else [] in
  base ++ suffix ++ py ".csv".

(** The loop of [convert_xlsx_to_csv].  The workbook and the file
    system come in as [readable] (does [read_excel] return for this
    sheet) and [writable] (does [to_csv] return for this file); [dir]
    holds the names present in the output directory, the file written
    last first.  The result is the directory afterwards, with [created]
    or the exception raised. *)
Section Convert.

Variable readable : str -> bool.
Variable writable : str -> bool.
Variable base : str.
Variable overwrite : bool.

Fixpoint convert_loop (multiple : bool) (sheets dir created : list str)
  : list str * (list str + exception) :=
  match sheets with
  | [] => (dir, inl created)
  | sheet_name :: rest =>
      if negb (readable sheet_name)
      then (dir, inr (RuntimeError (unreadable_sheet sheet_name)))
      else
        let out_path := out_name base multiple sheet_name in
        if existsb (str_eqb out_path) dir && negb overwrite
        then convert_loop multiple rest dir created
        else if negb (writable out_path)
        then (dir, inr (RuntimeError (unwritable out_path)))
        else convert_loop multiple rest (out_path :: dir) (created ++ [out_path])
  end.

Definition convert_xlsx_to_csv (sheets dir : list str)
  : list str * (list str + exception) :=
  convert_loop (1 <? length sheets) sheets dir [].

End Convert.

(** A workbook as the converter sees it: the stem of its file name,
    the directory it lies in, its sheet names ([None] when [ExcelFile]
    raises), and the sheets [read_excel] can read. *)
Record workbook := {
  wb_stem : str;
  wb_parent : str;
  wb_sheet_names : option (list str);
  wb_readable : str -> bool
}.

(** What [glob] finds for [iter_xlsx_files]: the name of each path,
    whether it is a file, and the workbook it holds. *)
Definition entry : Type := str * bool * workbook.

Definition iter_xlsx_files (found : list entry) : list workbook :=
  flat_map (fun e : entry =>
    let '(name, is_file, wb) := e in
    if startswith name (py "~$") then []
    else if is_file then [wb] else []) found.

(** The path given as [input]. *)
Inductive in_path :=
| missing
| a_file (suffix : str) (wb : workbook)
| a_folder (found : list entry).

(** How [main] ends. *)
Inductive status := exit (code : Z) | raised (ex : exception).

End pasarxlsxacsv.

(** The characters [safe_sheet_suffix] lets through. *)
Definition safe_char (c : codepoint) : bool :=
  Chars.isalnum c || (c =? Chars.HYPHEN)%N || (c =? Chars.UNDERSCORE)%N.

(** Characters that separate path components or are reserved in file
    names: slash, backslash, colon, asterisk, question mark, double
    quote, angle brackets, bar and dot. *)
Definition RESERVED : list codepoint :=
  [0x2F; 0x5C; 0x3A; 0x2A; 0x3F; 0x22; 0x3C; 0x3E; 0x7C; 0x2E]%N.

(** The option of [--sheets] is one of the two keywords. *)
Definition is_keyword (sheets_opt : str) : bool :=
  str_eqb (Unicode.lower (strip sheets_opt)) (py "first")
  || str_eqb (Unicode.lower (strip sheets_opt)) (py "all").

(** A sheet name typed as it is: not empty, no white space at its
    ends, no comma, not made of digits, and within the code points of
    the tables. *)
Definition typed_name (item : str) : bool :=
  negb (str_eqb item []) && str_eqb (strip item) item
  && negb (existsb (N.eqb Chars.COMMA) item) && negb (Chars.isdigit item)
  && forallb tabled item.

(** Characters that [str.lower] maps to themselves wherever they stand. *)
Definition caseless (c : codepoint) : bool :=
  str_eqb (Unicode.tolower c) [c] && negb (c =? Unicode.CAPITAL_SIGMA)%N.

(* ===================================================================== *)
(** * The interactive loop of [Menu] *)
(* ===================================================================== *)

(** The text [general] hands to [show_text]. *)
Definition general (lines : list str) : str :=
  match get_section lines (py "Información general") with
  | [] => py "No se encontró la sección 'Información general' en el documento."
  | sec_lines => strip (join [LF] sec_lines)
  end.

(** The text [pasos_programa] hands to [show_text]; [None] when it
    returns without calling it. *)
Definition pasos_programa (lines : list str) : option str :=
  match get_section lines (py "Pasos") with
  | [] => Some (py "No se encontró la sección 'Pasos' en el documento.")
  | sec_lines =>
      match strip (join [LF] sec_lines) with
      | [] => None
      | text => Some text
      end
  end.

(** The text an entry of the sub-menu of [dataset] hands to [show_text]. *)
Definition dataset_text (ch : choice) (lines : list str) : str :=
  match dataset ch lines with
  | Range start stop => shown lines start stop
  | NotFound start_missing =>
      match ch with
      | choice_a => py "No se encontró la sección 'Dataset de referencia' en el documento."
      | choice_b => py "No se encontró el subtítulo 'Tabla clientes' en el documento."
      end
  | NotFound end_missing =>
      py "No se encontró el subtítulo 'Tabla clientes' después de 'Dataset de referencia'."
  end.

(** What reaches a call of [input]: a line typed, or Ctrl+C.  The end
    of the input is the end of the list of events. *)
Inductive event := Line (s : str) | Interrupt.

Inductive exn := EOFError | KeyboardInterrupt.

(** The calls of [input] the program can be waiting in:
    - [at_menu]: "Seleccione una opción: " in [seleccionar];
    - [at_continue]: "Opción vacía. ..." and "Opción no válida. ...",
      both inside the [try] of [seleccionar];
    - [at_invalid]: "Entrada no válida. ...", inside its
      [except ValueError];
    - [at_text]: "Presione Enter para regresar al menú..." in
      [show_text], called from an entry of the menu or from [dataset];
    - [at_dataset]: "Elija a/b" in [dataset]. *)
Inductive caller := from_menu | from_dataset.

Inductive prompt :=
| at_menu
| at_continue
| at_invalid
| at_text (back : caller)
| at_dataset.

(** How [seleccionar] ends: it returns, or an exception leaves it. *)
Inductive ending := returned | uncaught (e : exn).

(** From one call of [input] to the next: the next prompt or the
    ending, and the texts handed to [show_text] on the way. *)
Definition step (lines : list str) (p : prompt) (k : event)
  : (prompt + ending) * list str :=
  match p, k with
  | at_menu, Interrupt => (inr returned, [])
  | at_menu, Line s =>
      match strip s with
      | [] => (inl at_continue, [])
      | raw =>
          match Chars.int raw with
          | None => (inl at_invalid, [])
          | Some opcion =>
              if (opcion =? 1)%Z then (inl (at_text from_menu), [general lines])
              else if (opcion =? 2)%Z then (inl at_dataset, [])
              else if (opcion =? 3)%Z then
                match pasos_programa lines with
                | Some text => (inl (at_text from_menu), [text])
                | None => (inl at_menu, [])
                end
              else if (opcion =? 4)%Z then
                (inl (at_text from_menu), [pseudocodigo_diagrama lines])
              else if (opcion =? 5)%Z then
                (inl (at_text from_menu), [sugerencias_copilot lines])
              else if (opcion =? 6)%Z then (inr returned, [])
              else (inl at_continue, [])
          end
      end
  | at_continue, Line _ => (inl at_menu, [])
  | at_continue, Interrupt => (inr returned, [])
  | at_invalid, Line _ => (inl at_menu, [])
  | at_invalid, Interrupt => (inr (uncaught KeyboardInterrupt), [])
  | at_text from_menu, _ => (inl at_menu, [])
  | at_text from_dataset, _ => (inl at_dataset, [])
  | at_dataset, Interrupt => (inr returned, [])
  | at_dataset, Line s =>
      let choice := Unicode.lower (strip s) in
      if str_eqb choice (py "a")
      then (inl (at_text from_dataset), [dataset_text choice_a lines])
      else if str_eqb choice (py "b")
      then (inl (at_text from_dataset), [dataset_text choice_b lines])
      else if str_eqb choice [] then (inl at_menu, [])
      else (inl at_dataset, [])
  end.

(** The program fed with [keys] from the prompt [p]: the prompt it is
    left waiting in, or its ending, with everything shown. *)
Fixpoint run (lines : list str) (p : prompt) (keys : list event) (screen : list str)
  : (prompt + ending) * list str :=
  match keys with
  | [] => (inl p, screen)
  | k :: keys' =>
      match step lines p k with
      | (inl p', out) => run lines p' keys' (screen ++ out)
      | (inr e, out) => (inr e, screen ++ out)
      end
  end.

(** [seleccionar] on an input that ends after [keys]: a call of [input]
    at the end of the input raises [EOFError], which nothing catches. *)
Definition seleccionar (lines : list str) (keys : list event) : ending * list str :=
  match run lines at_menu keys [] with
  | (inl _, screen) => (uncaught EOFError, screen)
  | (inr e, screen) => (e, screen)
  end.

(** A line typed that does not ask to leave, made of code points of
    the tables. *)
Definition stays (k : event) : Prop :=
  exists s, k = Line s /\ forallb tabled s = true /\ Chars.int (strip s) <> Some 6%Z.

Definition doc_pasos_blank : list str :=
  [py "# Programa"; py "## Pasos"; []; py "   "; py "## Fin"; py "x"].

(* ===================================================================== *)
(** * Reading the document *)
(* ===================================================================== *)

(** The line boundaries of [str.splitlines]. *)
Definition linebreak (c : codepoint) : bool :=
  ((0x0A <=? c) && (c <=? 0x0D) || (0x1C <=? c) && (c <=? 0x1E)
   || (c =? 0x85) || (c =? 0x2028) || (c =? 0x2029))%N.

Definition CR : codepoint := 0x0D%N.

(** [s.splitlines()]; [cur] is the line under way.  A carriage return
    followed by a line feed is one boundary, and the end of the text
    closes a line only if the line has a character. *)
Fixpoint splitlines_from (cur s : str) : list str :=
  match s with
  | [] =>
      match cur with
      | [] => []
      | _ :: _ => [cur]
      end
  | c :: s' =>
      if linebreak c then
        cur ::
        match s' with
        | d :: s'' =>
            if (c =? CR)%N && (d =? LF)%N then splitlines_from [] s''
            else splitlines_from [] s'
        | [] => splitlines_from [] s'
        end
      else splitlines_from (cur ++ [c]) s'
  end.

Definition splitlines (s : str) : list str := splitlines_from [] s.

(** [read_lines] on a file that could be read, [text] being its
    decoded content. *)
Definition read_lines (text : str) : list str := splitlines text.

(** A line without a line boundary. *)
Definition unbroken (ln : str) : bool := forallb (fun c => negb (linebreak c)) ln.

(** Names written on top of a directory, none of them there before and
    no two of them equal. *)
Definition fresh_on (dir written dir' : list str) : Prop :=
  dir' = rev written ++ dir /\ NoDup written /\ (forall p, In p written -> ~ In p dir).

(* ===================================================================== *)
(** * The program over any implementation of the library *)
(* ===================================================================== *)

(** [Unicode] and [Chars] describe [str.lower], NFD, the category Mn,
    [str.isalnum], [str.isdigit] and [int] for the code points below
    U+0400, and the definitions above run the program on them; what is
    stated over them is stated for strings of these code points, or
    evaluated on such strings.  A property of the program on every
    document or on every option does not rest on the tables:
    [General] holds the functions of the program that call the
    library, with the library as an argument [L].  The functions that
    do not call it are shared. *)
Record library := {
  lib_lower : str -> str;                  (* [s.lower()] *)
  lib_normalize_NFD : str -> str;          (* [unicodedata.normalize('NFD', s)] *)
  lib_category_is_Mn : codepoint -> bool;  (* [unicodedata.category(c) == 'Mn'] *)
  lib_isalnum : codepoint -> bool;         (* [ch.isalnum()] *)
  lib_isdigit : str -> bool;               (* [s.isdigit()] *)
  lib_int : str -> option Z                (* [int(s)], [None] for [ValueError] *)
}.

(** The library of the definitions above. *)
Definition tables : library := {|
  lib_lower := Unicode.lower;
  lib_normalize_NFD := Unicode.normalize_NFD;
  lib_category_is_Mn := Unicode.category_is_Mn;
  lib_isalnum := Chars.isalnum;
  lib_isdigit := Chars.isdigit;
  lib_int := Chars.int
|}.

Module General.

Import pasarxlsxacsv.

Section Library.

Variable L : library.

(** ** [programa.py] *)

Definition get_section_range (lines : list str) (title_search : str)
  : option (nat * nat) :=
  let headings := parse_headings lines in
  match find (fun h => contains (lib_lower L (h_title h)) (lib_lower L title_search))
             headings with
  | Some h => Some (h_pos h + 1, section_end headings (h_pos h) (h_level h) (length lines))
  | None => None
  end.

Definition get_section (lines : list str) (title_search : str) : list str :=
  match get_section_range lines title_search with
  | Some (start, stop) => slice lines start stop
  | None => []
  end.

(** The test of [get_section]: [title_search.lower() in title.lower()]. *)
Definition title_matches (title_search : str) (h : heading) : bool :=
  contains (lib_lower L (h_title h)) (lib_lower L title_search).

Definition _norm (s : str) : str :=
  let s2 := lib_normalize_NFD L s in
  let s2 := filter (fun c => negb (lib_category_is_Mn L c)) s2 in
  lib_lower L s2.

Definition scan_step (first_p second_p : nat -> str -> bool)
    (st : option nat * option nat) (h : heading) : option nat * option nat :=
  let n := _norm (h_title h) in
  let a := match fst st with
           | None => if first_p (h_level h) n then Some (h_pos h) else None
           | Some i => Some i
           end in
  let b := match snd st with
           | None => if second_p (h_level h) n then Some (h_pos h) else None
           | Some i => Some i
           end in
  (a, b).

Definition scan (first_p second_p : nat -> str -> bool) (headings : list heading)
  : option nat * option nat :=
  fold_left (scan_step first_p second_p) headings (None, None).

Definition dataset (ch : choice) (lines : list str) : outcome :=
  let headings := parse_headings lines in
  match ch with
  | choice_a =>
      let '(ds_idx, tabla_idx) := scan is_dataset_referencia is_tabla_clientes headings in
      match ds_idx with
      | None => NotFound start_missing
      | Some ds =>
          match tabla_idx with
          | None => NotFound end_missing
          | Some tabla =>
              if tabla <=? ds then NotFound end_missing else Range ds tabla
          end
      end
  | choice_b =>
      let '(tabla_idx, prog_idx) := scan is_tabla_clientes is_programa_interactivo headings in
      match tabla_idx with
      | None => NotFound start_missing
      | Some tabla =>
          let end_idx :=
            match prog_idx with
            | Some prog =>
                if negb (prog =? 0) && (tabla <? prog) then prog else length lines
            | None => length lines
            end in
          Range tabla end_idx
      end
  end.

Definition find_range (start_predicate end_predicate : nat -> str -> bool)
    (fb : end_fallback) (lines : list str) : outcome :=
  let '(start_idx, end_idx) := scan start_predicate end_predicate (parse_headings lines) in
  match start_idx with
  | None => NotFound start_missing
  | Some s =>
      let missing :=
        match fb with
        | fail => NotFound end_missing
        | to_end => Range s (length lines)
        end in
      match end_idx with
      | Some e => if s <? e then Range s e else missing
      | None => missing
      end
  end.

(** A test of [dataset] on a heading: on its level and its normalised
    title. *)
Definition satisfies (p : nat -> str -> bool) (h : heading) : bool :=
  p (h_level h) (_norm (h_title h)).

Definition or_first (acc : option nat) (p : nat -> str -> bool) (hs : list heading)
  : option nat :=
  match acc with
  | Some i => Some i
  | None => option_map h_pos (find (satisfies p) hs)
  end.

Definition pseudocodigo_sections (headings : list heading) (n : nat)
  : list (nat * nat) :=
  flat_map (fun h =>
    if negb (h_level h =? 3) then []
    else if existsb (fun t => contains (_norm (h_title h)) t) TERMS
         then [(h_pos h, section_end headings (h_pos h) (h_level h) n)]
         else []) headings.

Definition is_pseudocodigo_diagrama (h : heading) : bool :=
  (h_level h =? 3) && existsb (fun t => contains (_norm (h_title h)) t) TERMS.

(** ** [pasarxlsxacsv.py] *)

Fixpoint select_sheets (all_names requested result : list str)
  : list str + exception :=
  match requested with
  | [] => inl result
  | item :: rest =>
      if lib_isdigit L item then
        match lib_int L item with
        | None => inr (ValueError item)
        | Some idx =>
            if ((idx <? 0) || (Z.of_nat (length all_names) <=? idx))%Z
            then inr (RuntimeError (index_out_of_range idx))
            else select_sheets all_names rest
                   (result ++ [nth (Z.to_nat idx) all_names []])
        end
      else if existsb (str_eqb item) all_names
           then select_sheets all_names rest (result ++ [item])
           else inr (RuntimeError (no_such_sheet item))
  end.

Definition read_sheets_list (all_names : list str) (sheets_opt : str)
  : list str + exception :=
  match all_names with
  | [] => inr (RuntimeError no_sheets)
  | first :: _ =>
      let opt := lib_lower L (strip sheets_opt) in
      if str_eqb opt (py "first") then inl [first]
      else if str_eqb opt (py "all") then inl all_names
      else select_sheets all_names (requested_items sheets_opt) []
  end.

(** The option of [--sheets] is one of the two keywords. *)
Definition is_keyword (sheets_opt : str) : bool :=
  str_eqb (lib_lower L (strip sheets_opt)) (py "first")
  || str_eqb (lib_lower L (strip sheets_opt)) (py "all").

Definition keep_char (ch : codepoint) : codepoint :=
  if lib_isalnum L ch || (ch =? Chars.HYPHEN)%N || (ch =? Chars.UNDERSCORE)%N then ch
  else if isspace ch then Chars.UNDERSCORE
  else Chars.UNDERSCORE.

Definition safe_sheet_suffix (name : str) : str :=
  Chars.strip_chars (N.eqb Chars.UNDERSCORE) (map keep_char name).

Definition out_name (base : str) (multiple : bool) (sheet_name : str) : str :=
  let suffix :=
    if multiple then Chars.UNDERSCORE :: safe_sheet_suffix sheet_name else [] in
  base ++ suffix ++ py ".csv".

Section Convert.

Variable readable : str -> bool.
Variable writable : str -> bool.
Variable base : str.
Variable overwrite : bool.

Fixpoint convert_loop (multiple : bool) (sheets dir created : list str)
  : list str * (list str + exception) :=
  match sheets with
  | [] => (dir, inl created)
  | sheet_name :: rest =>
      if negb (readable sheet_name)
      then (dir, inr (RuntimeError (unreadable_sheet sheet_name)))
      else
        let out_path := out_name base multiple sheet_name in
        if existsb (str_eqb out_path) dir && negb overwrite
        then convert_loop multiple rest dir created
        else if negb (writable out_path)
        then (dir, inr (RuntimeError (unwritable out_path)))
        else convert_loop multiple rest (out_path :: dir) (created ++ [out_path])
  end.

Definition convert_xlsx_to_csv (sheets dir : list str)
  : list str * (list str + exception) :=
  convert_loop (1 <? length sheets) sheets dir [].

End Convert.

(** The two calls [main] makes for one workbook, [read_sheets_list] and
    then [convert_xlsx_to_csv] on [target_dir = out_dir or xlsx.parent].
    The file system [fs] gives the names present in each directory;
    [writable] tells, for a directory and a name, whether [to_csv]
    returns. *)
Definition convert_workbook (writable : str -> str -> bool) (out_dir : option str)
    (sheets_opt : str) (overwrite : bool) (xlsx : workbook) (fs : str -> list str)
  : (str -> list str) * (list str + exception) :=
  match wb_sheet_names xlsx with
  | None => (fs, inr (RuntimeError not_opened))
  | Some all_names =>
      match read_sheets_list all_names sheets_opt with
      | inr ex => (fs, inr ex)
      | inl sheets =>
          let target_dir :=
            match out_dir with
            | Some d => d
            | None => wb_parent xlsx
            end in
          let '(dir', result) :=
            convert_xlsx_to_csv (wb_readable xlsx) (writable target_dir) (wb_stem xlsx)
                                overwrite sheets (fs target_dir) in
          (fun d => if str_eqb d target_dir then dir' else fs d, result)
      end
  end.

(** [main] once the arguments are parsed: [pandas] tells whether the
    import succeeded.  The result is the file system afterwards and
    the exit status. *)
Definition main (pandas : bool) (input : in_path) (out_dir : option str)
    (sheets_opt : str) (overwrite : bool) (writable : str -> str -> bool)
    (fs : str -> list str)
  : (str -> list str) * status :=
  if negb pandas then (fs, exit 2)
  else
    match input with
    | missing => (fs, exit 2)
    | a_file suffix xlsx =>
        if negb (str_eqb (lib_lower L suffix) (py ".xlsx")) then (fs, exit 2)
        else
          match convert_workbook writable out_dir sheets_opt overwrite xlsx fs with
          | (fs', inl _) => (fs', exit 0)
          | (fs', inr (RuntimeError _)) => (fs', exit 2)
          | (fs', inr ex) => (fs', raised ex)
          end
    | a_folder found =>
        match iter_xlsx_files found with
        | [] => (fs, exit 1)
        | files =>
            (fold_left
               (fun fs' xlsx =>
                  fst (convert_workbook writable out_dir sheets_opt overwrite xlsx fs'))
               files fs,
             exit 0)
        end
    end.

End Library.

End General.

(* ===================================================================== *)
(** * Running the definitions *)
(* ===================================================================== *)

Example ex_parse_1 :
  parse_headings [py "# A"; py "text"; py "##  B  "; py "#"; py "##"; py "#foo"; py "####### x"; py "# "]
  = [(0, 1, py "A"); (2, 2, py "B"); (4, 1, py "#"); (5, 1, py "foo"); (6, 6, py "# x"); (7, 1, [])].
Proof. vm_compute. reflexivity. Qed.

Example ex_paragraphs :
  all_paragraphs [py "# T"; py "a"; py "b"; []; py "  "; py "c"; py "## U"; py "d"; py "   "]
  = [py "a
b"; py "c
d"].
Proof. vm_compute. reflexivity. Qed.

Example ex_get_section :
  get_section [py "# Uno"; py "a"; py "## Dos"; py "b"; py "# Tres"; py "c"] (py "UNO")
  = [py "a"; py "## Dos"; py "b"].
Proof. vm_compute. reflexivity. Qed.

Example ex_code_block :
  extract_code_block [py "text"; FENCE; py "a"; py "b"; FENCE; py "text2"] = py "a
b".
Proof. vm_compute. reflexivity. Qed.

Example ex_norm : _norm (py "Información") = py "informacion".
Proof. vm_compute. reflexivity. Qed.

(* ===================================================================== *)
(** * Facts about the string helpers *)
(* ===================================================================== *)

Section StringFacts.

Variable p : codepoint -> bool.

Lemma takewhile_dropwhile (s : str) : takewhile p s ++ dropwhile p s = s.
Proof.
  induction s as [|c s IH]; simpl; [reflexivity|].
  destruct (p c); simpl; [now rewrite IH | reflexivity].
Qed.

Lemma takewhile_all (s : str) : forallb p s = true -> takewhile p s = s.
Proof.
  induction s as [|c s IH]; simpl; [reflexivity|].
  destruct (p c); simpl; [intros H; now rewrite IH | discriminate].
Qed.

Lemma dropwhile_all (s : str) : forallb p s = true -> dropwhile p s = [].
Proof.
  induction s as [|c s IH]; simpl; [reflexivity|].
  destruct (p c); simpl; [exact IH | discriminate].
Qed.

Lemma dropwhile_nil_all (s : str) : dropwhile p s = [] -> forallb p s = true.
Proof.
  induction s as [|c s IH]; simpl; [reflexivity|].
  destruct (p c); simpl; [exact IH | discriminate].
Qed.

Lemma dropwhile_app_all (s t : str) :
  forallb p s = true -> dropwhile p (s ++ t) = dropwhile p t.
Proof.
  induction s as [|c s IH]; simpl; [reflexivity|].
  destruct (p c); simpl; [exact IH | discriminate].
Qed.

Lemma dropwhile_head (s : str) c s' : dropwhile p s = c :: s' -> p c = false.
Proof.
  induction s as [|d s IH]; simpl; [discriminate|].
  destruct (p d) eqn:E; [exact IH | intros [= <- _]; exact E].
Qed.

Lemma dropwhile_incl (s : str) c : In c (dropwhile p s) -> In c s.
Proof.
  induction s as [|d s IH]; simpl; [tauto|].
  destruct (p d); simpl; tauto.
Qed.

Lemma dropwhile_keeps (s : str) c : In c s -> p c = false -> In c (dropwhile p s).
Proof.
  induction s as [|d s IH]; simpl; [tauto|].
  intros [->|Hin] Hc.
  - rewrite Hc. now left.
  - destruct (p d); [now apply IH | now right].
Qed.

Lemma dropwhile_app_keep (s t : str) c :
  In c s -> p c = false -> dropwhile p (s ++ t) = dropwhile p s ++ t.
Proof.
  induction s as [|d s IH]; simpl; [tauto|].
  intros [->|Hin] Hc.
  - now rewrite Hc.
  - destruct (p d); [now apply IH | reflexivity].
Qed.

End StringFacts.

Lemma strip_space_cons c (s : str) : isspace c = true -> strip (c :: s) = strip s.
Proof. intros H. unfold strip, lstrip. simpl. now rewrite H. Qed.

Lemma strip_spaces_app (w s : str) : forallb isspace w = true -> strip (w ++ s) = strip s.
Proof. intros H. unfold strip, lstrip. now rewrite dropwhile_app_all. Qed.

Lemma strip_all_space (s : str) : forallb isspace s = true -> strip s = [].
Proof. intros H. unfold strip, lstrip. now rewrite dropwhile_all. Qed.

(** A string with a character that is not white space does not strip
    to the empty string, and what is left holds such a character. *)
Lemma strip_keeps (s : str) c : In c s -> isspace c = false -> In c (strip s).
Proof.
  intros Hin Hc. unfold strip, rstrip, lstrip.
  rewrite <- in_rev. apply dropwhile_keeps; [|exact Hc].
  rewrite <- in_rev. now apply dropwhile_keeps.
Qed.

Lemma strip_incl (s : str) c : In c (strip s) -> In c s.
Proof.
  unfold strip, rstrip, lstrip. intros H.
  rewrite <- in_rev in H. apply dropwhile_incl in H. rewrite <- in_rev in H.
  now apply dropwhile_incl in H.
Qed.

Lemma not_all_space (s : str) :
  forallb isspace s = false -> exists c, In c s /\ isspace c = false.
Proof.
  induction s as [|d s IH]; simpl; [discriminate|].
  destruct (isspace d) eqn:Ed; simpl.
  - intros E. destruct (IH E) as (c & Hin & Hc). exists c. split; [now right | exact Hc].
  - intros _. exists d. split; [now left | exact Ed].
Qed.

Lemma strip_nil_iff (s : str) : strip s = [] <-> forallb isspace s = true.
Proof.
  split; [|apply strip_all_space].
  intros H. destruct (forallb isspace s) eqn:E; [reflexivity|].
  exfalso. destruct (not_all_space s E) as (c & Hin & Hc).
  pose proof (strip_keeps s c Hin Hc) as Hk. rewrite H in Hk. exact Hk.
Qed.

Lemma str_eqb_eq (a b : str) : str_eqb a b = true <-> a = b.
Proof. unfold str_eqb. destruct (list_eq_dec N.eq_dec a b); split; congruence. Qed.

Lemma str_eqb_neq (a b : str) : str_eqb a b = false <-> a <> b.
Proof. unfold str_eqb. destruct (list_eq_dec N.eq_dec a b); split; congruence. Qed.

(* ===================================================================== *)
(** * The heading pattern on a single line *)
(* ===================================================================== *)

Lemma dot_plus_eol_single_line (s : str) :
  single_line s = true ->
  Re.dot_plus_eol s = match s with [] => None | _ :: _ => Some s end.
Proof.
  intros H. unfold Re.dot_plus_eol.
  rewrite takewhile_all, dropwhile_all by exact H.
  destruct s; reflexivity.
Qed.

Lemma spaces_then_text_single_line (s : str) :
  single_line s = true -> s <> [] ->
  exists g, Re.spaces_then_text s = Some g /\ strip g = strip s.
Proof.
  induction s as [|c s IH]; intros Hs Hne; [congruence|].
  assert (Hs' : single_line s = true).
  { unfold single_line in *. simpl in Hs. now apply andb_true_iff in Hs. }
  assert (Hdot : Re.dot_plus_eol (c :: s) = Some (c :: s))
    by now rewrite dot_plus_eol_single_line.
  simpl. destruct (isspace c) eqn:Ec.
  - destruct s as [|d s'].
    + simpl. rewrite Hdot. now exists [c].
    + destruct IH as (g & Hg & Hstrip); [exact Hs' | discriminate |].
      rewrite Hg. exists g. split; [reflexivity|].
      now rewrite Hstrip, (strip_space_cons c).
  - rewrite Hdot. now exists (c :: s).
Qed.

Lemma hashes_0 {A} (k : str -> option A) taken s :
  Re.hashes k 0 taken s = hashes_stop k taken s.
Proof. reflexivity. Qed.

Lemma hashes_nil {A} (k : str -> option A) budget taken :
  Re.hashes k budget taken [] = hashes_stop k taken [].
Proof. destruct budget; reflexivity. Qed.

Lemma hashes_cons {A} (k : str -> option A) budget taken c s :
  Re.hashes k (S budget) taken (c :: s) =
  if (c =? HASH)%N then
    match Re.hashes k budget (S taken) s with
    | Some r => Some r
    | None => hashes_stop k taken (c :: s)
    end
  else hashes_stop k taken (c :: s).
Proof. reflexivity. Qed.

Lemma hashes_stop_single_line taken (s : str) :
  single_line s = true ->
  strip_group (hashes_stop Re.spaces_then_text taken s)
  = if (1 <=? taken) && (1 <=? List.length s) then Some (taken, strip s) else None.
Proof.
  intros Hs. destruct taken as [|t]; [reflexivity|].
  destruct s as [|c u]; [reflexivity|].
  destruct (spaces_then_text_single_line _ Hs) as (g & Hg & Hst); [discriminate|].
  unfold hashes_stop. rewrite Hg. simpl. now rewrite Hst.
Qed.

(** The backtracking search of [#{1,6}\s*(.+)$] in closed form. *)
Lemma hashes_single_line (budget taken : nat) (s : str) :
  single_line s = true ->
  strip_group (Re.hashes Re.spaces_then_text budget taken s) =
  let m := Nat.min (Nat.min budget (leading_hashes s)) (List.length s - 1) in
  if (1 <=? taken + m) && (1 <=? List.length s)
  then Some (taken + m, strip (skipn m s)) else None.
Proof.
  revert taken s. induction budget as [|b IH]; intros t s Hs.
  - rewrite hashes_0, hashes_stop_single_line by exact Hs.
    simpl. now rewrite Nat.add_0_r.
  - destruct s as [|c s].
    + rewrite hashes_nil, hashes_stop_single_line by exact Hs.
      simpl. now rewrite !andb_false_r.
    + assert (Hs' : single_line s = true).
      { unfold single_line in *. simpl in Hs. now apply andb_true_iff in Hs. }
      rewrite hashes_cons. simpl leading_hashes.
      destruct (c =? HASH)%N eqn:Ec.
      * specialize (IH (S t) s Hs'). cbv zeta in IH.
        destruct (Re.hashes Re.spaces_then_text b (S t) s) as [r|] eqn:Er.
        -- rewrite IH.
           destruct s as [|d s']; [cbn in IH; discriminate|].
           cbv zeta. simpl List.length.
           replace (Nat.min (Nat.min (S b) (S (leading_hashes (d :: s')))) (S (S (List.length s')) - 1))
             with (S (Nat.min (Nat.min b (leading_hashes (d :: s'))) (S (List.length s') - 1)))
             by lia.
           replace (t + S _) with (S t + Nat.min (Nat.min b (leading_hashes (d :: s'))) (S (List.length s') - 1)) by lia.
           simpl skipn. reflexivity.
        -- rewrite hashes_stop_single_line by exact Hs.
           destruct s as [|d s'].
           ++ cbv zeta. simpl. now rewrite Nat.add_0_r.
           ++ cbn in IH. discriminate.
      * rewrite hashes_stop_single_line by exact Hs. cbv zeta.
        rewrite Nat.min_0_r. simpl Nat.min. now rewrite Nat.add_0_r.
Qed.

Lemma match_heading_single_line (ln : str) :
  single_line ln = true ->
  strip_group (Re.match_heading ln) =
  if is_heading_line ln then Some (heading_level ln, heading_title ln) else None.
Proof.
  intros H. unfold Re.match_heading. rewrite hashes_single_line by exact H.
  cbv zeta. unfold is_heading_line, heading_title, heading_level.
  rewrite !Nat.add_0_l.
  destruct (1 <=? Nat.min (Nat.min 6 (leading_hashes ln)) (List.length ln - 1)) eqn:E;
    [|reflexivity].
  apply Nat.leb_le in E.
  replace (1 <=? List.length ln) with true; [reflexivity|].
  symmetry. apply Nat.leb_le. lia.
Qed.

(** A single line is a heading line when it starts with '#' and goes
    on for at least one more character. *)
Lemma is_heading_line_iff (ln : str) :
  is_heading_line ln = true <-> exists c rest, ln = HASH :: c :: rest.
Proof.
  unfold is_heading_line, heading_level. rewrite Nat.leb_le. split.
  - destruct ln as [|a [|c rest]]; cbn [List.length leading_hashes].
    + lia.
    + destruct (a =? HASH)%N; lia.
    + destruct (a =? HASH)%N eqn:Ea; [|lia].
      apply N.eqb_eq in Ea. subst a. intros _. now exists c, rest.
  - intros (c & rest & ->). cbn [leading_hashes List.length].
    rewrite N.eqb_refl. lia.
Qed.

(* ===================================================================== *)
(** * The heading index *)
(* ===================================================================== *)

Lemma hashes_level_bound {A} (k : str -> option A) budget taken s l g :
  Re.hashes k budget taken s = Some (l, g) -> 1 <= l <= taken + budget.
Proof.
  assert (Hstop : forall t u, hashes_stop k t u = Some (l, g) -> 1 <= l <= t).
  { intros t u. unfold hashes_stop. destruct t as [|t]; [discriminate|].
    destruct (k u); simpl; [|discriminate]. intros [= <- _]. lia. }
  revert taken s. induction budget as [|b IH]; intros t s.
  - rewrite hashes_0. intros H. apply Hstop in H. lia.
  - destruct s as [|c s].
    + rewrite hashes_nil. intros H. apply Hstop in H. lia.
    + rewrite hashes_cons. destruct (c =? HASH)%N.
      * destruct (Re.hashes k b (S t) s) as [r|] eqn:Er.
        -- intros [= ->]. apply IH in Er. lia.
        -- intros H. apply Hstop in H. lia.
      * intros H. apply Hstop in H. lia.
Qed.

Lemma match_heading_level (ln : str) l g :
  Re.match_heading ln = Some (l, g) -> 1 <= l <= 6.
Proof. intros H. apply hashes_level_bound in H. lia. Qed.

(** The entries of the index are the matching lines, at their line
    numbers. *)
Lemma In_parse_headings_from (i : nat) (lines : list str) (h : heading) :
  In h (parse_headings_from i lines) <->
  exists j ln l g,
    nth_error lines j = Some ln /\ Re.match_heading ln = Some (l, g)
    /\ h = (i + j, l, strip g).
Proof.
  revert i. induction lines as [|ln rest IH]; intros i.
  - simpl. split; [tauto|]. intros (j & x & l & g & Hn & _). destruct j; discriminate.
  - simpl parse_headings_from.
    assert (Htail : In h (parse_headings_from (S i) rest) <->
                    exists j x l g, nth_error (ln :: rest) (S j) = Some x
                                    /\ Re.match_heading x = Some (l, g)
                                    /\ h = (i + S j, l, strip g)).
    { rewrite IH. split; intros (j & x & l & g & Hn & Hm & ->);
        exists j, x, l, g; (split; [exact Hn|split; [exact Hm|f_equal; f_equal; lia]]). }
    destruct (Re.match_heading ln) as [[l0 g0]|] eqn:Em.
    + simpl In. rewrite Htail. split.
      * intros [<-|(j & x & l & g & Hn & Hm & ->)].
        -- exists 0, ln, l0, g0. repeat split; [exact Em | now rewrite Nat.add_0_r].
        -- now exists (S j), x, l, g.
      * intros (j & x & l & g & Hn & Hm & ->). destruct j as [|j].
        -- left. simpl in Hn. injection Hn as <-. rewrite Em in Hm.
           injection Hm as <- <-. now rewrite Nat.add_0_r.
        -- right. now exists j, x, l, g.
    + rewrite Htail. split.
      * intros (j & x & l & g & Hn & Hm & ->). now exists (S j), x, l, g.
      * intros (j & x & l & g & Hn & Hm & ->). destruct j as [|j].
        -- simpl in Hn. injection Hn as <-. congruence.
        -- now exists j, x, l, g.
Qed.

Lemma In_parse_headings (lines : list str) (h : heading) :
  In h (parse_headings lines) <->
  exists ln g,
    nth_error lines (h_pos h) = Some ln
    /\ Re.match_heading ln = Some (h_level h, g) /\ h_title h = strip g.
Proof.
  unfold parse_headings. rewrite In_parse_headings_from. split.
  - intros (j & ln & l & g & Hn & Hm & ->). now exists ln, g.
  - intros (ln & g & Hn & Hm & Ht). destruct h as [[i l] t]. simpl in *.
    exists i, ln, l, g. now subst t.
Qed.

(** Positions increase strictly along the index. *)
Lemma parse_headings_from_sorted (i : nat) (lines : list str) :
  StronglySorted lt (map h_pos (parse_headings_from i lines)).
Proof.
  revert i. induction lines as [|ln rest IH]; intros i; [constructor|].
  simpl. destruct (Re.match_heading ln) as [[l g]|]; [|apply IH].
  simpl. constructor; [apply IH|].
  apply Forall_forall. intros p Hp. apply in_map_iff in Hp.
  destruct Hp as (h & <- & Hh). apply In_parse_headings_from in Hh.
  destruct Hh as (j & x & l' & g' & _ & _ & ->). unfold h_pos. simpl. lia.
Qed.

Lemma parse_headings_sorted (lines : list str) :
  StronglySorted lt (map h_pos (parse_headings lines)).
Proof. apply parse_headings_from_sorted. Qed.

Lemma parse_headings_pos_lt (lines : list str) (h : heading) :
  In h (parse_headings lines) -> h_pos h < List.length lines.
Proof.
  intros H. apply In_parse_headings in H. destruct H as (ln & g & Hn & _).
  apply nth_error_Some. congruence.
Qed.

Lemma parse_headings_from_length (i : nat) (lines : list str) :
  List.length (parse_headings_from i lines) =
  List.length (filter (fun ln => is_some (Re.match_heading ln)) lines).
Proof.
  revert i. induction lines as [|ln rest IH]; intros i; [reflexivity|].
  simpl. destruct (Re.match_heading ln) as [[l g]|]; simpl; now rewrite IH.
Qed.

Lemma match_heading_is_heading_line (ln : str) :
  single_line ln = true ->
  is_some (Re.match_heading ln) = is_heading_line ln.
Proof.
  intros H. pose proof (match_heading_single_line ln H) as E.
  destruct (Re.match_heading ln), (is_heading_line ln); simpl in *; congruence.
Qed.

(** C1 (as amended).  On a document of single lines, [parse_headings]
    has exactly one entry per line that starts with '#' and has at
    least one more character, and none for any other line; white space
    after the '#' is not required.  The level is the number of leading
    '#', capped at six and at the length of the line minus one; the
    title is the rest of the line, trimmed, and may be empty.  The
    entries come in strictly increasing position and every level lies
    in 1..6. *)
Theorem C1_parse_headings_index (lines : list str) :
  forallb single_line lines = true ->
  (forall i level title,
      In (i, level, title) (parse_headings lines) <->
      exists ln, nth_error lines i = Some ln
                 /\ (exists c rest, ln = HASH :: c :: rest)
                 /\ level = Nat.min (Nat.min 6 (leading_hashes ln)) (List.length ln - 1)
                 /\ title = strip (skipn level ln))
  /\ List.length (parse_headings lines) = List.length (filter is_heading_line lines)
  /\ StronglySorted lt (map h_pos (parse_headings lines))
  /\ Forall (fun h => 1 <= h_level h <= 6) (parse_headings lines).
Proof.
  intros Hlines.
  assert (Hsingle : forall ln, In ln lines -> single_line ln = true)
    by (apply forallb_forall; exact Hlines).
  split; [|split; [|split]].
  - intros i level title. rewrite In_parse_headings. unfold h_pos, h_level, h_title. simpl.
    split.
    + intros (ln & g & Hn & Hm & ->). exists ln. split; [exact Hn|].
      pose proof (match_heading_single_line ln (Hsingle ln (nth_error_In _ _ Hn))) as E.
      rewrite Hm in E. simpl in E.
      destruct (is_heading_line ln) eqn:Eh; [|discriminate].
      injection E as -> ->. split; [now apply is_heading_line_iff|].
      split; reflexivity.
    + intros (ln & Hn & Hshape & -> & ->). exists ln.
      pose proof (match_heading_single_line ln (Hsingle ln (nth_error_In _ _ Hn))) as E.
      apply is_heading_line_iff in Hshape. rewrite Hshape in E.
      destruct (Re.match_heading ln) as [[l g]|]; [|discriminate].
      simpl in E. injection E as -> Hg. exists g. split; [exact Hn|].
      split; [reflexivity|]. symmetry. exact Hg.
  - unfold parse_headings. rewrite parse_headings_from_length.
    f_equal. apply filter_ext_in. intros ln Hin.
    apply match_heading_is_heading_line. now apply Hsingle.
  - apply parse_headings_sorted.
  - apply Forall_forall. intros h Hh. apply In_parse_headings in Hh.
    destruct Hh as (ln & g & _ & Hm & _). now apply match_heading_level in Hm.
Qed.

Lemma C1_parse_headings_index_witness :
  forallb single_line doc_headings = true
  /\ List.length (parse_headings doc_headings) = 4
  /\ StronglySorted lt (map h_pos (parse_headings doc_headings)).
Proof.
  split; [reflexivity|].
  destruct (C1_parse_headings_index doc_headings eq_refl) as (_ & Hlen & Hsorted & _).
  split; [exact Hlen | exact Hsorted].
Defined.

(** C1 (as stated) fails: the line '#foo' has no white space after its
    '#' and is not a heading line in the words of the specification,
    yet it is indexed, with level 1 and title 'foo'. *)
Lemma C1_counterexample_unspaced_heading :
  nth_error [py "#foo"] 0 = Some (py "#foo")
  /\ atx_heading (py "#foo") = None
  /\ In (0, 1, py "foo") (parse_headings [py "#foo"]).
Proof.
  split; [reflexivity|]. split; [reflexivity|]. vm_compute. now left.
Qed.

(** A line of more than six '#' is indexed as well, with level 6 and a
    title that starts with the seventh '#'. *)
Example ex_parse_seven_hashes :
  parse_headings [py "####### x"] = [(0, 6, py "# x")]
  /\ atx_heading (py "####### x") = None.
Proof. split; vm_compute; reflexivity. Qed.

(* ===================================================================== *)
(** * Scanning a position-ordered index *)
(* ===================================================================== *)

Section FindFirst.

Variable f : heading -> bool.

Lemma find_increasing_first (hs : list heading) (h : heading) :
  increasing hs -> find f hs = Some h -> first_with f hs h.
Proof.
  unfold increasing, first_with.
  induction hs as [|a hs IH]; simpl; [discriminate|].
  intros Hs Hf. inversion Hs as [|? ? Hs' Hall]; subst.
  destruct (f a) eqn:Ea.
  - injection Hf as <-. split; [now left|]. split; [exact Ea|].
    intros h' [<-|Hin] _; [lia|].
    rewrite Forall_forall in Hall.
    specialize (Hall (h_pos h') (in_map h_pos _ _ Hin)). lia.
  - destruct (IH Hs' Hf) as (Hin & Hfh & Hmin).
    split; [now right|]. split; [exact Hfh|].
    intros h' [<-|Hin'] Hf'; [congruence | now apply Hmin].
Qed.

Lemma find_none_all (hs : list heading) :
  find f hs = None <-> forall h, In h hs -> f h = false.
Proof.
  split; [intros H h Hin; now apply (find_none f hs H)|].
  induction hs as [|a hs IH]; simpl; [reflexivity|].
  intros H. rewrite (H a) by now left. apply IH. intros h Hin. apply H. now right.
Qed.

Lemma find_some_exists (hs : list heading) :
  (exists h, In h hs /\ f h = true) -> exists h, find f hs = Some h.
Proof.
  intros (h & Hin & Hf). destruct (find f hs) as [x|] eqn:E; [now exists x|].
  rewrite find_none_all in E. rewrite (E h Hin) in Hf. discriminate.
Qed.

(** In an increasing index two headings at one position are the same
    heading, so the first heading with a property is unique. *)
Lemma first_with_unique (hs : list heading) (h h' : heading) :
  increasing hs -> first_with f hs h -> first_with f hs h' -> h = h'.
Proof.
  intros Hs (Hin & Hf & Hmin) (Hin' & Hf' & Hmin').
  assert (Hpos : h_pos h = h_pos h').
  { specialize (Hmin h' Hin' Hf'). specialize (Hmin' h Hin Hf). lia. }
  clear Hmin Hmin' Hf Hf'. unfold increasing in Hs.
  induction hs as [|a hs IH]; [contradiction|].
  simpl in Hs. inversion Hs as [|? ? Hs' Hall]; subst.
  rewrite Forall_forall in Hall.
  destruct Hin as [<-|Hin], Hin' as [<-|Hin'].
  - reflexivity.
  - specialize (Hall (h_pos h') (in_map h_pos _ _ Hin')). lia.
  - specialize (Hall (h_pos h) (in_map h_pos _ _ Hin)). lia.
  - now apply IH.
Qed.

End FindFirst.

Lemma section_end_boundary (hs : list heading) (P L n : nat) :
  increasing hs -> nesting_boundary hs P L n (section_end hs P L n).
Proof.
  intros Hs. unfold section_end, nesting_boundary.
  change (fun h2 : heading => (P <? h_pos h2) && (h_level h2 <=? L)) with (closes P L).
  destruct (find (closes P L) hs) as [h2|] eqn:E.
  - left. exists h2. split; [now apply find_increasing_first | reflexivity].
  - right. split; [now apply find_none_all | reflexivity].
Qed.

(** The boundary lies after the anchor and within the document. *)
Lemma section_end_bounds (lines : list str) (P L : nat) :
  P < List.length lines ->
  P + 1 <= section_end (parse_headings lines) P L (List.length lines) <= List.length lines.
Proof.
  intros HP. unfold section_end.
  destruct (find _ _) as [h2|] eqn:E; [|lia].
  apply find_some in E. destruct E as (Hin & Hc).
  apply parse_headings_pos_lt in Hin.
  apply andb_true_iff in Hc. destruct Hc as (Hc & _). apply Nat.ltb_lt in Hc. lia.
Qed.

(* ===================================================================== *)
(** * Title-substring resolution: [get_section] *)
(* ===================================================================== *)

Lemma nth_error_slice {A} (l : list A) (start stop k : nat) (x : A) :
  nth_error (slice l start stop) k = Some x <->
  nth_error l (start + k) = Some x /\ start + k < stop.
Proof.
  unfold slice. rewrite nth_error_firstn, nth_error_skipn.
  destruct (k <? stop - start) eqn:E.
  - apply Nat.ltb_lt in E. split; [intros H; split; [exact H | lia] | tauto].
  - apply Nat.ltb_ge in E. split; [discriminate | intros (_ & H); lia].
Qed.

Lemma get_section_range_some (L : library) (lines : list str) (q : str) (s e : nat) :
  General.get_section_range L lines q = Some (s, e) <->
  exists h, find (General.title_matches L q) (parse_headings lines) = Some h
            /\ s = h_pos h + 1
            /\ e = section_end (parse_headings lines) (h_pos h) (h_level h) (List.length lines).
Proof.
  unfold General.get_section_range. cbv zeta.
  change (fun h : heading => contains (lib_lower L (h_title h)) (lib_lower L q))
    with (General.title_matches L q).
  destruct (find (General.title_matches L q) (parse_headings lines)) as [h|].
  - split.
    + intros [= <- <-]. now exists h.
    + intros (h' & [= <-] & -> & ->). reflexivity.
  - split; [discriminate | intros (h' & Hf & _); discriminate].
Qed.

Lemma get_section_range_none (L : library) (lines : list str) (q : str) :
  General.get_section_range L lines q = None <->
  forall h, In h (parse_headings lines) -> General.title_matches L q h = false.
Proof.
  rewrite <- find_none_all. unfold General.get_section_range. cbv zeta.
  change (fun h : heading => contains (lib_lower L (h_title h)) (lib_lower L q))
    with (General.title_matches L q).
  destruct (find (General.title_matches L q) (parse_headings lines)); split; congruence.
Qed.

(** The functions of [General] on the library [tables] are the
    functions defined on the tables directly. *)
Lemma general_at_tables :
  (forall lines q, General.get_section_range tables lines q = get_section_range lines q)
  /\ (forall lines q, General.get_section tables lines q = get_section lines q)
  /\ (forall q h, General.title_matches tables q h = title_matches q h)
  /\ (forall s, General._norm tables s = _norm s)
  /\ (forall p h, General.satisfies tables p h = satisfies p h)
  /\ (forall ch lines, General.dataset tables ch lines = dataset ch lines)
  /\ (forall sp ep fb lines, General.find_range tables sp ep fb lines = find_range sp ep fb lines)
  /\ (forall hs n, General.pseudocodigo_sections tables hs n = pseudocodigo_sections hs n)
  /\ (forall h, General.is_pseudocodigo_diagrama tables h = is_pseudocodigo_diagrama h).
Proof. repeat split. Qed.

(** C2 (as amended).  Whatever [str.lower] does: when the lower-cased
    query is a substring of the lower-cased title of some heading,
    [get_section] takes the first such heading, at position P with
    level L, and returns the lines [P+1, E), where E is the position
    of the first later heading of level at most L, or the number of
    lines when there is none. *)
Theorem C2_get_section_first_match (L : library) (lines : list str) (title_search : str) :
  (exists h, In h (parse_headings lines) /\ General.title_matches L title_search h = true) ->
  exists h E,
    first_with (General.title_matches L title_search) (parse_headings lines) h
    /\ nesting_boundary (parse_headings lines) (h_pos h) (h_level h) (List.length lines) E
    /\ h_pos h + 1 <= E <= List.length lines
    /\ General.get_section_range L lines title_search = Some (h_pos h + 1, E)
    /\ General.get_section L lines title_search = slice lines (h_pos h + 1) E.
Proof.
  intros Hex. pose proof (parse_headings_sorted lines) as Hs.
  destruct (find_some_exists _ _ Hex) as (h & Hf).
  exists h, (section_end (parse_headings lines) (h_pos h) (h_level h) (List.length lines)).
  assert (Hr : General.get_section_range L lines title_search =
               Some (h_pos h + 1,
                     section_end (parse_headings lines) (h_pos h) (h_level h) (List.length lines)))
    by (apply get_section_range_some; now exists h).
  split; [now apply find_increasing_first|].
  split; [now apply section_end_boundary|].
  split; [apply section_end_bounds, parse_headings_pos_lt; now apply (find_some _ _ Hf)|].
  split; [exact Hr|].
  unfold General.get_section. now rewrite Hr.
Qed.

Lemma C2_get_section_first_match_witness :
  General.get_section tables doc_sections (py "INFORMACIÓN")
  = [py "a"; py "### Detalle"; py "b"].
Proof.
  assert (Hex : exists h, In h (parse_headings doc_sections)
                          /\ General.title_matches tables (py "INFORMACIÓN") h = true).
  { exists (2, 2, py "Información general"). split; [vm_compute; tauto | reflexivity]. }
  destruct (C2_get_section_first_match tables doc_sections (py "INFORMACIÓN") Hex)
    as (h & E & _ & _ & _ & Hr & Hg).
  assert (Hv : General.get_section_range tables doc_sections (py "INFORMACIÓN") = Some (3, 6))
    by reflexivity.
  rewrite Hv in Hr. injection Hr as H1 H2.
  rewrite Hg, <- H1, <- H2. reflexivity.
Defined.

(** C2 (as stated) fails: the test is made on the two strings after
    [str.lower], and [str.lower] turns the capital sigma that ends the
    query into the final sigma.  In [doc_sigma] the title of the first
    heading contains the query as it is written, and yet the section
    returned is that of the second heading. *)
Lemma C2_counterexample_final_sigma :
  parse_headings doc_sigma = [(0, 1, py "ΣΥΣΤΗΜΑ"); (2, 1, py "ΑΝΑΛΥΣΗ ΣΥΣ")]
  /\ contains (py "ΣΥΣΤΗΜΑ") (py "ΣΥΣ") = true
  /\ Unicode.lower (py "ΣΥΣΤΗΜΑ") = py "συστημα"
  /\ Unicode.lower (py "ΣΥΣ") = py "συς"
  /\ title_matches (py "ΣΥΣ") (0, 1, py "ΣΥΣΤΗΜΑ") = false
  /\ get_section_range doc_sigma (py "ΣΥΣ") = Some (3, 4)
  /\ get_section doc_sigma (py "ΣΥΣ") = [py "b"].
Proof. repeat split; vm_compute; reflexivity. Qed.

(** C5.  Whatever [str.lower] does, the lines returned by
    [get_section] hold no heading line of a level at or above that of
    the anchor heading, the one just before the range; deeper headings
    may occur. *)
Theorem C5_section_has_no_shallower_heading (L : library) (lines : list str)
    (title_search : str) (start stop : nat) :
  General.get_section_range L lines title_search = Some (start, stop) ->
  exists anchor,
    In anchor (parse_headings lines)
    /\ General.title_matches L title_search anchor = true
    /\ start = h_pos anchor + 1
    /\ General.get_section L lines title_search = slice lines start stop
    /\ forall k ln level g,
         nth_error (General.get_section L lines title_search) k = Some ln ->
         Re.match_heading ln = Some (level, g) ->
         h_level anchor < level.
Proof.
  intros Hr. pose proof (parse_headings_sorted lines) as Hs.
  assert (Hg : General.get_section L lines title_search = slice lines start stop)
    by (unfold General.get_section; now rewrite Hr).
  apply get_section_range_some in Hr. destruct Hr as (h & Hf & -> & ->).
  exists h. destruct (find_some _ _ Hf) as (Hin & Hm).
  repeat (split; [assumption || reflexivity|]).
  intros k ln level g Hk Hmatch. rewrite Hg in Hk.
  apply nth_error_slice in Hk. destruct Hk as (Hn & Hlt).
  set (h3 := (h_pos h + 1 + k, level, strip g) : heading).
  assert (Hin3 : In h3 (parse_headings lines)).
  { apply In_parse_headings. exists ln, g. now repeat split. }
  destruct (Nat.lt_ge_cases (h_level h) level) as [|Hle]; [assumption|exfalso].
  assert (Hc : closes (h_pos h) (h_level h) h3 = true).
  { unfold closes, h3, h_pos at 2, h_level at 1. simpl.
    apply andb_true_iff. split; [apply Nat.ltb_lt; lia | now apply Nat.leb_le]. }
  destruct (section_end_boundary (parse_headings lines) (h_pos h) (h_level h)
              (List.length lines) Hs) as [(h2 & (_ & _ & Hmin) & HE)|(Hnone & _)].
  - specialize (Hmin h3 Hin3 Hc). rewrite HE in Hlt. unfold h3, h_pos at 2 in Hmin.
    simpl in Hmin. lia.
  - rewrite (Hnone h3 Hin3) in Hc. discriminate.
Qed.

Lemma C5_section_has_no_shallower_heading_witness :
  General.get_section_range tables doc_sections (py "general") = Some (3, 6)
  /\ exists anchor,
       anchor = (2, 2, py "Información general")
       /\ forall k ln level g,
            nth_error (General.get_section tables doc_sections (py "general")) k = Some ln ->
            Re.match_heading ln = Some (level, g) ->
            h_level anchor < level.
Proof.
  split; [reflexivity|].
  destruct (C5_section_has_no_shallower_heading tables doc_sections (py "general") 3 6 eq_refl)
    as (anchor & Hin & _ & Hstart & _ & Hall).
  exists anchor. split; [|exact Hall].
  vm_compute in Hin.
  destruct anchor as [[i l] t]. unfold h_pos in Hstart. simpl in Hstart.
  repeat (destruct Hin as [Hin|Hin]; [injection Hin as <- <- <-; try lia; reflexivity|]).
  contradiction.
Defined.

(** C9 (as amended).  [get_section] raises nothing and signals "not
    found" by the empty list.  Whatever [str.lower] does, it finds no
    heading exactly when the lower-cased query is in no lower-cased
    title, and then returns the empty list; a result that is not empty
    comes from a matching heading.  The comparison is a plain
    substring test after [lower]: a query that differs from the title
    in an accent does not match. *)
Theorem C9_get_section_not_found :
  (forall L lines title_search,
      (General.get_section_range L lines title_search = None <->
       forall h, In h (parse_headings lines) -> General.title_matches L title_search h = false)
      /\ (General.get_section_range L lines title_search = None ->
          General.get_section L lines title_search = [])
      /\ (General.get_section L lines title_search <> [] ->
          exists h, In h (parse_headings lines)
                    /\ General.title_matches L title_search h = true))
  /\ get_section doc_sections (py "información GENERAL") = [py "a"; py "### Detalle"; py "b"]
  /\ get_section doc_sections (py "informacion general") = [].
Proof.
  split; [|split; reflexivity].
  intros L lines q. split; [apply get_section_range_none|]. split.
  - intros H. unfold General.get_section. now rewrite H.
  - intros Hne. destruct (General.get_section_range L lines q) as [[s e]|] eqn:E.
    + apply get_section_range_some in E. destruct E as (h & Hf & _).
      exists h. now apply (find_some _ _ Hf).
    + unfold General.get_section in Hne. rewrite E in Hne. congruence.
Qed.

Lemma C9_get_section_not_found_witness :
  General.get_section_range tables doc_sections (py "inexistente") = None
  /\ General.get_section tables doc_sections (py "inexistente") = [].
Proof.
  split; [reflexivity|].
  now apply (proj1 C9_get_section_not_found tables doc_sections (py "inexistente")).
Defined.

(** C9 (as stated) fails in one direction: a heading that matches but
    has no line below it before the next heading gives the empty list
    too, the value that stands for "not found". *)
Lemma C9_counterexample_empty_section :
  In (0, 1, py "Pasos") (parse_headings doc_empty_section)
  /\ title_matches (py "Pasos") (0, 1, py "Pasos") = true
  /\ get_section_range doc_empty_section (py "Pasos") = Some (1, 1)
  /\ get_section doc_empty_section (py "Pasos") = [].
Proof.
  split; [vm_compute; now left|]. repeat split; reflexivity.
Qed.

(* ===================================================================== *)
(** * Anchored dual-boundary resolution: [dataset] *)
(* ===================================================================== *)

Lemma scan_fold (p q : nat -> str -> bool) (hs : list heading) (a b : option nat) :
  fold_left (scan_step p q) hs (a, b) = (or_first a p hs, or_first b q hs).
Proof.
  revert a b. induction hs as [|h hs IH]; intros a b.
  - destruct a, b; reflexivity.
  - cbn [fold_left]. destruct (scan_step p q (a, b) h) as [a' b'] eqn:E.
    rewrite IH. unfold scan_step in E. cbn [fst snd] in E. injection E as <- <-.
    unfold or_first. cbn [find].
    change (satisfies p h) with (p (h_level h) (_norm (h_title h))).
    change (satisfies q h) with (q (h_level h) (_norm (h_title h))).
    destruct a, b; try reflexivity;
      destruct (p (h_level h) (_norm (h_title h)));
      destruct (q (h_level h) (_norm (h_title h))); reflexivity.
Qed.

(** Each index of the loop is the position of the first heading of the
    whole list that passes its test. *)
Lemma scan_first (p q : nat -> str -> bool) (hs : list heading) :
  scan p q hs = (option_map h_pos (find (satisfies p) hs),
                 option_map h_pos (find (satisfies q) hs)).
Proof. unfold scan. now rewrite scan_fold. Qed.

(** The two entries of [dataset] are instances of [find_range]. *)
Lemma dataset_a_find_range (lines : list str) :
  dataset choice_a lines = find_range is_dataset_referencia is_tabla_clientes fail lines.
Proof.
  unfold dataset, find_range. cbv zeta.
  destruct (scan is_dataset_referencia is_tabla_clientes (parse_headings lines))
    as [[ds|] [tabla|]]; try reflexivity.
  destruct (tabla <=? ds) eqn:E1, (ds <? tabla) eqn:E2; try reflexivity.
  - apply Nat.leb_le in E1. apply Nat.ltb_lt in E2. lia.
  - apply Nat.leb_gt in E1. apply Nat.ltb_ge in E2. lia.
Qed.

Lemma dataset_b_find_range (lines : list str) :
  dataset choice_b lines = find_range is_tabla_clientes is_programa_interactivo to_end lines.
Proof.
  unfold dataset, find_range. cbv zeta.
  destruct (scan is_tabla_clientes is_programa_interactivo (parse_headings lines))
    as [[tabla|] [prog|]]; try reflexivity.
  destruct (tabla <? prog) eqn:E.
  - apply Nat.ltb_lt in E. destruct prog; [lia | reflexivity].
  - now rewrite andb_false_r.
Qed.

Lemma find_range_start_missing (sp ep : nat -> str -> bool) fb (lines : list str) :
  find_range sp ep fb lines = NotFound start_missing <->
  forall h, In h (parse_headings lines) -> satisfies sp h = false.
Proof.
  rewrite <- find_none_all. unfold find_range. rewrite scan_first.
  destruct (find (satisfies sp) (parse_headings lines)) as [h|]; simpl.
  - split; [|discriminate].
    destruct (find (satisfies ep) (parse_headings lines)) as [e|]; simpl;
      [destruct (h_pos h <? h_pos e)|]; destruct fb; discriminate.
  - tauto.
Qed.

Lemma find_range_start (sp ep : nat -> str -> bool) fb (lines : list str) (s e : nat) :
  find_range sp ep fb lines = Range s e ->
  exists h, first_with (satisfies sp) (parse_headings lines) h /\ s = h_pos h.
Proof.
  unfold find_range. rewrite scan_first.
  destruct (find (satisfies sp) (parse_headings lines)) as [h|] eqn:Eh; simpl;
    [|discriminate].
  intros H. exists h. split.
  - apply find_increasing_first; [apply parse_headings_sorted | exact Eh].
  - destruct (find (satisfies ep) (parse_headings lines)) as [x|]; simpl in H;
      [destruct (h_pos h <? h_pos x)|]; destruct fb; congruence.
Qed.

(** The same facts, whatever the library does. *)
Lemma scan_fold_general (L : library) (p q : nat -> str -> bool) (hs : list heading)
    (a b : option nat) :
  fold_left (General.scan_step L p q) hs (a, b)
  = (General.or_first L a p hs, General.or_first L b q hs).
Proof.
  revert a b. induction hs as [|h hs IH]; intros a b.
  - destruct a, b; reflexivity.
  - cbn [fold_left]. destruct (General.scan_step L p q (a, b) h) as [a' b'] eqn:E.
    rewrite IH. unfold General.scan_step in E. cbn [fst snd] in E. injection E as <- <-.
    unfold General.or_first. cbn [find].
    change (General.satisfies L p h) with (p (h_level h) (General._norm L (h_title h))).
    change (General.satisfies L q h) with (q (h_level h) (General._norm L (h_title h))).
    destruct a, b; try reflexivity;
      destruct (p (h_level h) (General._norm L (h_title h)));
      destruct (q (h_level h) (General._norm L (h_title h))); reflexivity.
Qed.

Lemma scan_first_general (L : library) (p q : nat -> str -> bool) (hs : list heading) :
  General.scan L p q hs = (option_map h_pos (find (General.satisfies L p) hs),
                           option_map h_pos (find (General.satisfies L q) hs)).
Proof. unfold General.scan. now rewrite scan_fold_general. Qed.

Lemma dataset_a_find_range_general (L : library) (lines : list str) :
  General.dataset L choice_a lines
  = General.find_range L is_dataset_referencia is_tabla_clientes fail lines.
Proof.
  unfold General.dataset, General.find_range. cbv zeta.
  destruct (General.scan L is_dataset_referencia is_tabla_clientes (parse_headings lines))
    as [[ds|] [tabla|]]; try reflexivity.
  destruct (tabla <=? ds) eqn:E1, (ds <? tabla) eqn:E2; try reflexivity.
  - apply Nat.leb_le in E1. apply Nat.ltb_lt in E2. lia.
  - apply Nat.leb_gt in E1. apply Nat.ltb_ge in E2. lia.
Qed.

Lemma dataset_b_find_range_general (L : library) (lines : list str) :
  General.dataset L choice_b lines
  = General.find_range L is_tabla_clientes is_programa_interactivo to_end lines.
Proof.
  unfold General.dataset, General.find_range. cbv zeta.
  destruct (General.scan L is_tabla_clientes is_programa_interactivo (parse_headings lines))
    as [[tabla|] [prog|]]; try reflexivity.
  destruct (tabla <? prog) eqn:E.
  - apply Nat.ltb_lt in E. destruct prog; [lia | reflexivity].
  - now rewrite andb_false_r.
Qed.

Lemma find_range_start_general (L : library) (sp ep : nat -> str -> bool) fb
    (lines : list str) (s e : nat) :
  General.find_range L sp ep fb lines = Range s e ->
  exists h, first_with (General.satisfies L sp) (parse_headings lines) h /\ s = h_pos h.
Proof.
  unfold General.find_range. rewrite scan_first_general.
  destruct (find (General.satisfies L sp) (parse_headings lines)) as [h|] eqn:Eh; simpl;
    [|discriminate].
  intros H. exists h. split.
  - apply find_increasing_first; [apply parse_headings_sorted | exact Eh].
  - destruct (find (General.satisfies L ep) (parse_headings lines)) as [x|]; simpl in H;
      [destruct (h_pos h <? h_pos x)|]; destruct fb; congruence.
Qed.

(** C4.  Whatever the library makes of a title: when the start heading
    is found at [s] and the first heading passing the end test, if
    there is one, does not lie after it (so also when no heading after
    [s] passes it), [find_range] answers [NotFound end_missing] under
    [fail] and the range from [s] to the number of lines under
    [to_end].  Entry a of [dataset] is the [fail] instance and entry b
    the [to_end] instance. *)
Theorem C4_end_fallback (L : library) (sp ep : nat -> str -> bool) (lines : list str)
    (h : heading) :
  first_with (General.satisfies L sp) (parse_headings lines) h ->
  (forall e, first_with (General.satisfies L ep) (parse_headings lines) e ->
             h_pos e <= h_pos h) ->
  General.find_range L sp ep fail lines = NotFound end_missing
  /\ General.find_range L sp ep to_end lines = Range (h_pos h) (List.length lines)
  /\ General.dataset L choice_a lines
     = General.find_range L is_dataset_referencia is_tabla_clientes fail lines
  /\ General.dataset L choice_b lines
     = General.find_range L is_tabla_clientes is_programa_interactivo to_end lines.
Proof.
  intros Hstart Hend. pose proof (parse_headings_sorted lines) as Hs.
  assert (Hfind : find (General.satisfies L sp) (parse_headings lines) = Some h).
  { destruct (find_some_exists (General.satisfies L sp) (parse_headings lines)) as (h' & Hf).
    - exists h. split; apply Hstart.
    - rewrite Hf. f_equal.
      apply (first_with_unique (General.satisfies L sp) (parse_headings lines)); auto.
      now apply find_increasing_first. }
  assert (Hboth : forall fb, General.find_range L sp ep fb lines =
                             match fb with
                             | fail => NotFound end_missing
                             | to_end => Range (h_pos h) (List.length lines)
                             end).
  { intros fb. unfold General.find_range. rewrite scan_first_general, Hfind. simpl.
    destruct (find (General.satisfies L ep) (parse_headings lines)) as [e|] eqn:Ee; simpl;
      [|reflexivity].
    apply find_increasing_first in Ee; [|exact Hs]. apply Hend in Ee.
    apply Nat.ltb_ge in Ee. now rewrite Ee. }
  split; [apply (Hboth fail)|]. split; [apply (Hboth to_end)|].
  split; [apply dataset_a_find_range_general | apply dataset_b_find_range_general].
Qed.

Lemma C4_end_fallback_witness :
  General.find_range tables is_tabla_clientes is_programa_interactivo fail doc_dataset
    = NotFound end_missing
  /\ General.find_range tables is_tabla_clientes is_programa_interactivo to_end doc_dataset
    = Range 3 6.
Proof.
  assert (Hstart : first_with (General.satisfies tables is_tabla_clientes)
                     (parse_headings doc_dataset) (3, 3, py "Tabla Clientes")).
  { apply find_increasing_first; [apply parse_headings_sorted | reflexivity]. }
  assert (Hend : forall e, first_with (General.satisfies tables is_programa_interactivo)
                             (parse_headings doc_dataset) e -> h_pos e <= 3).
  { intros e (Hin & He & _). vm_compute in Hin.
    repeat (destruct Hin as [<-|Hin]; [discriminate He|]). contradiction. }
  destruct (C4_end_fallback tables is_tabla_clientes is_programa_interactivo doc_dataset
              (3, 3, py "Tabla Clientes") Hstart Hend) as (Hfail & Hto & _).
  split; [exact Hfail | exact Hto].
Defined.

(** C3.  The start of [find_range] is the position of the first heading
    that passes the start test, and the answer is [start_missing]
    exactly when there is none.  The end is not the first heading after
    the start that passes the end test: the loop keeps the first such
    heading of the whole document, and when that one does not lie after
    the start the later ones are never looked at.  In [doc_tabla_twice]
    entry a reports a missing 'Tabla clientes' although one follows at
    line 3; in [doc_programa_twice] entry b runs to the end of the
    document although 'Programa Interactivo' follows at line 3. *)
Theorem C3_find_range_boundaries :
  (forall sp ep fb lines,
      (find_range sp ep fb lines = NotFound start_missing <->
       forall h, In h (parse_headings lines) -> satisfies sp h = false)
      /\ (forall s e, find_range sp ep fb lines = Range s e ->
          exists h, first_with (satisfies sp) (parse_headings lines) h /\ s = h_pos h)
      /\ (forall s e, find_range sp ep fail lines = Range s e ->
          exists h2, first_with (satisfies ep) (parse_headings lines) h2
                     /\ e = h_pos h2 /\ s < e))
  /\ (first_with (after 1 is_tabla_clientes) (parse_headings doc_tabla_twice)
        (3, 3, py "Tabla clientes")
      /\ dataset choice_a doc_tabla_twice = NotFound end_missing)
  /\ (first_with (after 1 is_programa_interactivo) (parse_headings doc_programa_twice)
        (3, 2, py "Programa Interactivo")
      /\ dataset choice_b doc_programa_twice = Range 1 5).
Proof.
  split; [|split].
  - intros sp ep fb lines. split; [apply find_range_start_missing|].
    split; [apply find_range_start|].
    intros s e. unfold find_range. rewrite scan_first.
    destruct (find (satisfies sp) (parse_headings lines)) as [h|]; simpl; [|discriminate].
    destruct (find (satisfies ep) (parse_headings lines)) as [h2|] eqn:E2; simpl;
      [|discriminate].
    destruct (h_pos h <? h_pos h2) eqn:Elt; [|discriminate].
    intros [= <- <-]. exists h2. apply Nat.ltb_lt in Elt.
    split; [|split; [reflexivity | exact Elt]].
    apply find_increasing_first; [apply parse_headings_sorted | exact E2].
  - split; [|reflexivity].
    apply find_increasing_first; [apply parse_headings_sorted | reflexivity].
  - split; [|reflexivity].
    apply find_increasing_first; [apply parse_headings_sorted | reflexivity].
Qed.

(* ===================================================================== *)
(** * Subsection partition: [sugerencias_copilot] *)
(* ===================================================================== *)



(** What [sugerencias_copilot] shows is the text of the ranges of
    [partition_subsections] for the levels 2 and 3, joined by an empty
    line, unless that text is empty. *)
Lemma sugerencias_copilot_partition (lines : list str) (target : heading) :
  find (fun h => contains (Unicode.lower (h_title h)) (py "sugerencias copilot"))
       (parse_headings lines) = Some target ->
  let start := h_pos target in
  let stop := section_end (parse_headings lines) start (h_level target) (List.length lines) in
  let text := join [LF; LF]
                (map (fun r => shown lines (fst r) (snd r))
                     (partition_subsections [2; 3] (parse_headings lines) start stop)) in
  sugerencias_copilot lines = text
  \/ (text = [] /\ sugerencias_copilot lines = py "No hay contenido en 'Sugerencias Copilot'.").
Proof.
  intros Hf start stop text. unfold sugerencias_copilot. cbv zeta. rewrite Hf.
  fold start. fold stop. subst text. unfold partition_subsections.
  destruct (subsections [2; 3] (parse_headings lines) start stop) as [|r rs].
  - cbn [map join fst snd]. destruct (shown lines start stop); [right | left]; now split.
  - now left.
Qed.




(** A heading on the first line of the outer range counts as well: when
    the section heading itself has level 2 or 3, the first range is
    the whole section and the subsections follow it. *)
Example ex_partition_first_line :
  partition_subsections [2; 3]
    (parse_headings [py "## Sugerencias Copilot"; py "intro"; py "### A"; py "a"]) 0 4
  = [(0, 4); (2, 4)].
Proof. reflexivity. Qed.

Example ex_sugerencias_copilot :
  sugerencias_copilot doc_copilot =
  py "## Uno
a
### Uno-a
b

### Uno-a
b

## Dos
c".
Proof. vm_compute. reflexivity. Qed.

(* ===================================================================== *)
(** * Paragraphs *)
(* ===================================================================== *)

Lemma hashes_always (budget taken : nat) (s : str) :
  exists r, Re.hashes (fun _ : str => Some tt) budget (S taken) s = Some r.
Proof.
  revert taken s. induction budget as [|b IH]; intros t s.
  - rewrite hashes_0. simpl. eauto.
  - destruct s as [|c s]; [rewrite hashes_nil; simpl; eauto|].
    rewrite hashes_cons. destruct (c =? HASH)%N; [|simpl; eauto].
    destruct (IH (S t) s) as (r & ->). eauto.
Qed.

Lemma match_heading_prefix_iff (ln : str) :
  Re.match_heading_prefix ln = true <-> exists rest, ln = HASH :: rest.
Proof.
  unfold Re.match_heading_prefix. split.
  - destruct ln as [|c rest]; [discriminate|].
    rewrite hashes_cons. destruct (c =? HASH)%N eqn:E; [|discriminate].
    apply N.eqb_eq in E. subst c. intros _. now exists rest.
  - intros (rest & ->). rewrite hashes_cons. rewrite N.eqb_refl.
    now destruct (hashes_always 5 0 rest) as (r & ->).
Qed.

Lemma all_paragraphs_loop_group (paras buf lines : list str) :
  all_paragraphs_loop paras buf lines
  = paras ++ map paragraph (group buf (skip_headings lines)).
Proof.
  revert paras buf. induction lines as [|ln rest IH]; intros paras buf.
  - simpl. destruct buf; simpl; [now rewrite app_nil_r | reflexivity].
  - cbn [all_paragraphs_loop skip_headings filter].
    destruct (Re.match_heading_prefix ln); cbn [negb]; [apply IH|].
    cbn [group]. fold (blank ln). fold (skip_headings rest).
    destruct (blank ln); rewrite IH; [|reflexivity].
    destruct buf; simpl; [reflexivity | now rewrite <- app_assoc].
Qed.

Lemma group_run (buf run doc : list str) :
  forallb (fun ln => negb (blank ln)) run = true ->
  group buf (run ++ doc) = group (buf ++ run) doc.
Proof.
  revert buf. induction run as [|ln run IH]; intros buf H.
  - now rewrite app_nil_r.
  - simpl in H. apply andb_true_iff in H. destruct H as (Hln & Hrun).
    apply negb_true_iff in Hln. simpl. rewrite Hln, IH by exact Hrun.
    now rewrite <- app_assoc.
Qed.

Lemma group_maximal (buf doc : list str) :
  forallb (fun ln => negb (blank ln)) buf = true ->
  maximal_runs (buf ++ doc) (group buf doc).
Proof.
  revert buf. induction doc as [|ln rest IH]; intros buf Hbuf.
  - rewrite app_nil_r. destruct buf as [|b buf]; [constructor|].
    apply runs_last; [discriminate | exact Hbuf].
  - simpl. destruct (blank ln) eqn:Eln.
    + destruct buf as [|b buf].
      * simpl. apply runs_blank; [exact Eln | now apply (IH [])].
      * apply runs_more; [discriminate | exact Hbuf | exact Eln | now apply (IH [])].
    + replace (buf ++ ln :: rest) with ((buf ++ [ln]) ++ rest)
        by now rewrite <- app_assoc.
      apply IH. rewrite forallb_app, Hbuf. simpl. now rewrite Eln.
Qed.

Lemma maximal_runs_group (doc : list str) (rs : list (list str)) :
  maximal_runs doc rs -> rs = group [] doc.
Proof.
  induction 1 as [|ln doc rs Hln _ IH|run Hne Hrun|run ln doc rs Hne Hrun Hln _ IH].
  - reflexivity.
  - simpl. now rewrite Hln.
  - rewrite <- (app_nil_r run) at 2. rewrite group_run by exact Hrun.
    destruct run; [congruence | reflexivity].
  - rewrite group_run by exact Hrun. simpl. rewrite Hln.
    destruct run; [congruence | now rewrite IH].
Qed.

Lemma In_join (sep : str) (parts : list str) (p : str) c :
  In p parts -> In c p -> In c (join sep parts).
Proof.
  induction parts as [|a parts IH]; [contradiction|].
  intros [->|Hin] Hc.
  - destruct parts; simpl; [exact Hc | apply in_or_app; now left].
  - destruct parts as [|b parts]; [contradiction|].
    change (join sep (a :: b :: parts)) with (a ++ sep ++ join sep (b :: parts)).
    apply in_or_app. right. apply in_or_app. right. now apply IH.
Qed.

(** The text of a run is not empty and not white space only. *)
Lemma paragraph_not_blank (run : list str) :
  run <> [] -> forallb (fun ln => negb (blank ln)) run = true ->
  paragraph run <> [] /\ forallb isspace (paragraph run) = false.
Proof.
  intros Hne Hrun. destruct run as [|ln run]; [congruence|].
  simpl in Hrun. apply andb_true_iff in Hrun. destruct Hrun as (Hln & _).
  apply negb_true_iff in Hln. unfold blank in Hln. apply str_eqb_neq in Hln.
  assert (exists c, In c ln /\ isspace c = false) as (c & Hc & Hsp).
  { destruct (forallb isspace ln) eqn:E.
    - apply strip_all_space in E. congruence.
    - now apply not_all_space. }
  assert (Hin : In c (paragraph (ln :: run))).
  { unfold paragraph. apply strip_keeps; [|exact Hsp].
    apply In_join with (p := ln); [now left | exact Hc]. }
  split.
  - intros E. rewrite E in Hin. exact Hin.
  - destruct (forallb isspace (paragraph (ln :: run))) eqn:E; [|reflexivity].
    rewrite forallb_forall in E. specialize (E c Hin). congruence.
Qed.

Lemma maximal_runs_not_blank (doc : list str) (rs : list (list str)) :
  maximal_runs doc rs ->
  Forall (fun run => run <> [] /\ forallb (fun ln => negb (blank ln)) run = true) rs.
Proof. induction 1; repeat constructor; assumption. Qed.

Lemma group_blank_only (doc : list str) :
  forallb blank doc = true -> group [] doc = [].
Proof.
  induction doc as [|ln doc IH]; [reflexivity|].
  simpl. intros H. apply andb_true_iff in H. destruct H as (Hln & Hdoc).
  rewrite Hln. now apply IH.
Qed.

(** C7 (as amended).  With the lines that start with '#' left out,
    the document splits into
    maximal runs of non-blank lines, and [all_paragraphs] returns the
    trimmed, newline-joined text of each of them, in order and nothing
    else.  No paragraph is empty or white space only, and a document of
    heading lines and blank lines has no paragraph. *)
Theorem C7_all_paragraphs_runs (lines : list str) :
  (exists runs, maximal_runs (skip_headings lines) runs)
  /\ (forall runs, maximal_runs (skip_headings lines) runs ->
        all_paragraphs lines = map paragraph runs)
  /\ Forall (fun p => p <> [] /\ forallb isspace p = false) (all_paragraphs lines)
  /\ (forallb (fun ln => Re.match_heading_prefix ln || blank ln) lines = true ->
      all_paragraphs lines = []).
Proof.
  assert (Hall : all_paragraphs lines = map paragraph (group [] (skip_headings lines)))
    by apply (all_paragraphs_loop_group [] []).
  assert (Hmax : maximal_runs (skip_headings lines) (group [] (skip_headings lines)))
    by now apply (group_maximal []).
  split; [now exists (group [] (skip_headings lines))|]. split; [|split].
  - intros runs Hruns. apply maximal_runs_group in Hruns. now subst runs.
  - rewrite Hall. apply Forall_map.
    apply maximal_runs_not_blank in Hmax.
    eapply Forall_impl; [|exact Hmax].
    intros run (Hne & Hrun). now apply paragraph_not_blank.
  - intros H. rewrite Hall, group_blank_only; [reflexivity|].
    apply forallb_forall. intros ln Hin. unfold skip_headings in Hin.
    apply filter_In in Hin. destruct Hin as (Hin & Hnh).
    rewrite forallb_forall in H. specialize (H ln Hin).
    apply negb_true_iff in Hnh. now rewrite Hnh in H.
Qed.

Lemma C7_all_paragraphs_runs_witness :
  all_paragraphs [py "# T"; []; py "## U"; py "   "] = []
  /\ all_paragraphs [py "uno"; py "# T"; py "dos"; []; py "tres"]
     = [paragraph [py "uno"; py "dos"]; paragraph [py "tres"]].
Proof.
  split.
  - now apply (C7_all_paragraphs_runs [py "# T"; []; py "## U"; py "   "]).
  - apply (proj1 (proj2 (C7_all_paragraphs_runs
                           [py "uno"; py "# T"; py "dos"; []; py "tres"]))
                  [[py "uno"; py "dos"]; [py "tres"]]).
    apply (runs_more [py "uno"; py "dos"] [] [py "tres"] [[py "tres"]]);
      try reflexivity; [discriminate|].
    apply runs_last; [discriminate | reflexivity].
Defined.

(** C7 (as stated) fails: the lines left out are all the lines that
    start with '#', and leaving one out does not end the paragraph
    under way.  A heading between two text lines does not separate
    them; a lone '#', which [parse_headings] does not index, is left
    out all the same; and so is '#foo', which is no heading line in
    the words of the specification. *)
Lemma C7_counterexample_hash_lines :
  all_paragraphs [py "uno"; py "# T"; py "dos"] = [py "uno
dos"]
  /\ parse_headings [py "texto"; py "#"; py "mas"] = []
  /\ all_paragraphs [py "texto"; py "#"; py "mas"] = [py "texto
mas"]
  /\ atx_heading (py "#foo") = None
  /\ all_paragraphs [py "#foo"] = [].
Proof. repeat split; vm_compute; reflexivity. Qed.

(* ===================================================================== *)
(** * Fenced code *)
(* ===================================================================== *)

Lemma firstn_length_app {A} (pre rest : list A) :
  firstn (List.length pre) (pre ++ rest) = pre.
Proof. induction pre as [|a pre IH]; simpl; [now destruct rest | now rewrite IH]. Qed.

Lemma extract_code_loop_spec (pre rest acc : list str) :
  extract_code_loop (Nat.odd (List.length (filter is_fence pre))) acc rest
  = acc ++ map snd
      (filter (fun p => negb (is_fence (snd p)) && in_code (pre ++ rest) (fst p))
              (combine (seq (List.length pre) (List.length rest)) rest)).
Proof.
  revert pre acc. induction rest as [|ln rest IH]; intros pre acc.
  - simpl. now rewrite app_nil_r.
  - assert (Hnext : pre ++ ln :: rest = (pre ++ [ln]) ++ rest)
      by now rewrite <- app_assoc.
    assert (Hlen : S (List.length pre) = List.length (pre ++ [ln]))
      by (rewrite length_app; simpl; lia).
    cbn [extract_code_loop List.length seq combine filter fst snd].
    fold (is_fence ln).
    assert (Hhere : in_code (pre ++ ln :: rest) (List.length pre)
                    = Nat.odd (List.length (filter is_fence pre)))
      by (unfold in_code; now rewrite firstn_length_app).
    rewrite Hhere, Hnext, Hlen.
    destruct (is_fence ln) eqn:Ef; cbn [negb andb].
    + rewrite <- IH. f_equal.
      rewrite filter_app, length_app. simpl. rewrite Ef. simpl.
      rewrite Nat.add_1_r, Nat.odd_succ. apply Nat.negb_odd.
    + assert (Hsame : Nat.odd (List.length (filter is_fence (pre ++ [ln])))
                      = Nat.odd (List.length (filter is_fence pre))).
      { rewrite filter_app. simpl. rewrite Ef. now rewrite app_nil_r. }
      destruct (Nat.odd (List.length (filter is_fence pre))) eqn:Eo.
      * cbn [map snd]. rewrite <- Hsame at 1.
        rewrite IH, <- app_assoc. reflexivity.
      * rewrite <- Hsame at 1. now rewrite IH.
Qed.

Lemma extract_code_loop_code_lines (lines : list str) :
  extract_code_loop false [] lines = code_lines lines.
Proof. exact (extract_code_loop_spec [] lines []). Qed.

Lemma extract_code_loop_inside (body acc : list str) :
  forallb (fun ln => negb (is_fence ln)) body = true ->
  extract_code_loop true acc body = acc ++ body.
Proof.
  revert acc. induction body as [|ln body IH]; intros acc H.
  - simpl. now rewrite app_nil_r.
  - simpl in H. apply andb_true_iff in H. destruct H as (Hln & Hbody).
    apply negb_true_iff in Hln. cbn [extract_code_loop]. fold (is_fence ln).
    rewrite Hln, IH by exact Hbody. now rewrite <- app_assoc.
Qed.

(** C8.  [extract_code_block] returns, trimmed and joined by line
    feeds, the lines that are not fences and come after an odd number
    of fence lines: every fence line flips the flag and is left out.
    When the last fence is never closed, everything after it is
    returned; there is no failure. *)
Theorem C8_extract_code_block :
  (forall lines,
      extract_code_block lines = strip (join [LF] (code_lines lines))
      /\ Forall (fun ln => is_fence ln = false) (code_lines lines))
  /\ (forall fence body,
        is_fence fence = true ->
        forallb (fun ln => negb (is_fence ln)) body = true ->
        extract_code_block (fence :: body) = strip (join [LF] body))
  /\ extract_code_block [FENCE; py "x"; py "y"] = py "x
y"
  /\ extract_code_block [py "text"; FENCE; py "a"; py "b"; FENCE; py "text2"] = py "a
b".
Proof.
  split; [|split; [|split; reflexivity]].
  - intros lines. split.
    + unfold extract_code_block. now rewrite extract_code_loop_code_lines.
    + apply Forall_forall. intros ln Hin. unfold code_lines in Hin.
      apply in_map_iff in Hin. destruct Hin as (p & <- & Hp).
      apply filter_In in Hp. destruct Hp as (_ & Hp).
      apply andb_true_iff in Hp. destruct Hp as (Hp & _). now apply negb_true_iff.
  - intros fence body Hf Hbody. unfold extract_code_block.
    cbn [extract_code_loop]. fold (is_fence fence). rewrite Hf. cbn [negb].
    now rewrite (extract_code_loop_inside body []).
Qed.

Lemma C8_extract_code_block_witness :
  extract_code_block [py "```python"; py "x = 1"; py "  y = 2"; []]
  = strip (join [LF] [py "x = 1"; py "  y = 2"; []]).
Proof.
  now apply (proj1 (proj2 C8_extract_code_block)).
Defined.

(* ===================================================================== *)
(** * The normaliser [_norm] *)
(* ===================================================================== *)

Import Unicode.

Lemma in_all_tabled (c : codepoint) : in_tables c = true -> In c all_tabled.
Proof.
  unfold in_tables, all_tabled. rewrite N.ltb_lt. intros H.
  rewrite <- (N2Nat.id c). apply in_map. apply in_seq. lia.
Qed.

Lemma char_facts_tabled : forallb (fun c => implb (plain c) (char_facts c)) all_tabled = true.
Proof. vm_compute. reflexivity. Qed.

Lemma plain_char_facts (c : codepoint) : plain c = true -> char_facts c = true.
Proof.
  intros H. pose proof char_facts_tabled as Hall. rewrite forallb_forall in Hall.
  assert (Hin : In c all_tabled).
  { apply in_all_tabled. unfold plain in H. now apply andb_true_iff in H. }
  specialize (Hall c Hin). now rewrite H in Hall.
Qed.

(** Boolean conjunctions among the hypotheses, taken apart. *)
Ltac split_andb :=
  repeat match goal with
         | H : _ && _ = true |- _ => apply andb_true_iff in H; destruct H
         end.

(** The facts of [char_facts], one by one. *)
Section PlainCharacter.

Variable c : codepoint.
Hypothesis Hc : plain c = true.

Lemma decompose_marks (d : codepoint) :
  In d (decompose c) -> (combining d =? 0)%N = false -> category_is_Mn d = true.
Proof.
  intros Hd Hcomb. pose proof (plain_char_facts c Hc) as Hf.
  unfold char_facts in Hf. split_andb.
  match goal with H : forallb _ (decompose c) = true |- _ =>
    rewrite forallb_forall in H; specialize (H d Hd); now rewrite Hcomb in H end.
Qed.

Lemma decompose_no_sigma : existsb (N.eqb CAPITAL_SIGMA) (decompose c) = false.
Proof.
  pose proof (plain_char_facts c Hc) as Hf. unfold char_facts in Hf. split_andb.
  now apply negb_true_iff.
Qed.

Lemma norm_char_tolower :
  forallb plain (tolower c) = true -> flat_map norm_char (tolower c) = norm_char c.
Proof.
  intros Hlow. pose proof (plain_char_facts c Hc) as Hf.
  unfold char_facts in Hf. rewrite Hlow in Hf. split_andb. now apply str_eqb_eq.
Qed.

Lemma norm_char_mark : category_is_Mn c = true -> norm_char c = [].
Proof.
  intros Hm. pose proof (plain_char_facts c Hc) as Hf.
  unfold char_facts in Hf. rewrite Hm in Hf. split_andb. now apply str_eqb_eq.
Qed.

Lemma norm_char_decompose :
  forallb plain (decompose c) = true -> flat_map norm_char (decompose c) = norm_char c.
Proof.
  intros Hdec. pose proof (plain_char_facts c Hc) as Hf.
  unfold char_facts in Hf. rewrite Hdec in Hf. split_andb. now apply str_eqb_eq.
Qed.

End PlainCharacter.

(** Canonical ordering moves marks only. *)
Lemma filter_sink (f : codepoint -> bool) (c : codepoint) (out : str) :
  f c = false -> filter f (sink c out) = filter f out.
Proof.
  intros Hc. induction out as [|p out IH]; simpl; [now rewrite Hc|].
  destruct ((combining p =? 0)%N || (combining p <=? combining c)%N); simpl.
  - now rewrite Hc.
  - now rewrite IH.
Qed.

Lemma filter_canonical_order (f : codepoint -> bool) (s : str) :
  (forall c, In c s -> (combining c =? 0)%N = false -> f c = false) ->
  filter f (canonical_order s) = filter f s.
Proof.
  unfold canonical_order.
  assert (H : forall out,
             (forall c, In c s -> (combining c =? 0)%N = false -> f c = false) ->
             filter f (rev (fold_left place s out)) = filter f (rev out) ++ filter f s).
  { induction s as [|c s IH]; intros out Hs; simpl; [now rewrite app_nil_r|].
    rewrite IH by (intros d Hd; apply Hs; now right).
    unfold place. destruct (combining c =? 0)%N eqn:Ec.
    - simpl rev. rewrite filter_app. simpl. rewrite <- app_assoc.
      now destruct (f c).
    - assert (Hc : f c = false) by (apply Hs; [now left | exact Ec]).
      rewrite !filter_rev, filter_sink by exact Hc. now rewrite Hc. }
  intros Hs. now rewrite (H [] Hs).
Qed.

Lemma filter_flat_map {A} (f : codepoint -> bool) (g : A -> str) (l : list A) :
  filter f (flat_map g l) = flat_map (fun x => filter f (g x)) l.
Proof.
  induction l as [|a l IH]; simpl; [reflexivity|]. now rewrite filter_app, IH.
Qed.

(** Without a capital sigma, [lower] maps character by character. *)
Lemma lower_from_plain (before s : str) :
  existsb (N.eqb CAPITAL_SIGMA) s = false ->
  lower_from before s = flat_map tolower s.
Proof.
  revert before. induction s as [|c s IH]; intros before H; [reflexivity|].
  cbn [existsb] in H. apply orb_false_iff in H. destruct H as (Hc & Hs).
  cbn [lower_from flat_map]. rewrite N.eqb_sym in Hc. rewrite Hc. now rewrite IH.
Qed.

Lemma existsb_flat_map_false {A} (p : codepoint -> bool) (g : A -> str) (l : list A) :
  (forall x, In x l -> existsb p (g x) = false) -> existsb p (flat_map g l) = false.
Proof.
  induction l as [|a l IH]; intros H; simpl; [reflexivity|].
  rewrite existsb_app, (H a) by now left. apply IH. intros x Hx. apply H. now right.
Qed.

Lemma existsb_filter_false (p f : codepoint -> bool) (s : str) :
  existsb p s = false -> existsb p (filter f s) = false.
Proof.
  induction s as [|c s IH]; simpl; [reflexivity|].
  intros H. apply orb_false_iff in H. destruct H as (Hc & Hs).
  destruct (f c); simpl; [rewrite Hc|]; now apply IH.
Qed.

(** On the [plain] alphabet [_norm] works character by character. *)
Lemma norm_plain (s : str) :
  forallb plain s = true -> _norm s = flat_map norm_char s.
Proof.
  intros Hs. rewrite forallb_forall in Hs.
  unfold _norm, normalize_NFD. cbv zeta.
  change (fun c : codepoint => negb (category_is_Mn c)) with not_Mn.
  rewrite filter_canonical_order.
  - rewrite filter_flat_map. unfold lower. rewrite lower_from_plain.
    + unfold norm_char. clear. induction s as [|c s IH]; simpl; [reflexivity|].
      now rewrite flat_map_app, IH.
    + apply existsb_flat_map_false. intros c Hc. apply existsb_filter_false.
      apply decompose_no_sigma, Hs, Hc.
  - intros d Hd Hcomb. apply in_flat_map in Hd. destruct Hd as (c & Hc & Hd).
    unfold not_Mn. now rewrite (decompose_marks c (Hs c Hc) d Hd Hcomb).
Qed.

Lemma forallb_middle (A : codepoint -> bool) (s x t : str) :
  forallb A (s ++ x ++ t) = true -> forallb A x = true.
Proof. rewrite !forallb_app. intros H. now split_andb. Qed.

Lemma forallb_without_middle (A : codepoint -> bool) (s x t : str) :
  forallb A (s ++ x ++ t) = true -> forallb A (s ++ t) = true.
Proof.
  rewrite !forallb_app. intros H. split_andb. apply andb_true_iff. now split.
Qed.

(** Replacing a piece of a string by one with the same normal form. *)
Lemma norm_plain_middle (s x y t : str) :
  forallb plain (s ++ x ++ t) = true -> forallb plain (s ++ y ++ t) = true ->
  flat_map norm_char x = flat_map norm_char y ->
  _norm (s ++ x ++ t) = _norm (s ++ y ++ t).
Proof.
  intros Hx Hy E. rewrite !norm_plain by assumption.
  rewrite !flat_map_app. now rewrite E.
Qed.

Lemma plain_singleton (c : codepoint) : forallb plain [c] = true -> plain c = true.
Proof. simpl. now rewrite andb_true_r. Qed.

Lemma edit_norm (s t : str) : edit plain s t -> _norm s = _norm t.
Proof.
  intros [u c v Hl Hr|u m v Hm Hl|u c v Hl Hr].
  - apply (norm_plain_middle u [c] (tolower c) v Hl Hr).
    simpl. rewrite app_nil_r. symmetry. apply norm_char_tolower.
    + apply plain_singleton, (forallb_middle plain u [c] v Hl).
    + apply (forallb_middle plain u _ v Hr).
  - apply (norm_plain_middle u [m] [] v Hl).
    + apply (forallb_without_middle plain u [m] v Hl).
    + simpl. rewrite app_nil_r. apply norm_char_mark; [|exact Hm].
      apply plain_singleton, (forallb_middle plain u [m] v Hl).
  - apply (norm_plain_middle u [c] (decompose c) v Hl Hr).
    simpl. rewrite app_nil_r. symmetry. apply norm_char_decompose.
    + apply plain_singleton, (forallb_middle plain u [c] v Hl).
    + apply (forallb_middle plain u _ v Hr).
Qed.

(** C10 (as amended).  [_norm] decomposes, drops the characters of
    category Mn and lower-cases.  Two strings over the code points
    below U+0400 other than the capital sigma U+03A3 that differ only
    in letter case and diacritics have the same normal form. *)
Theorem C10_norm_same_letters (s t : str) :
  same_letters plain s t -> _norm s = _norm t.
Proof.
  induction 1 as [s t H|s|s t _ IH|s t u _ IH1 _ IH2].
  - now apply edit_norm.
  - reflexivity.
  - now symmetry.
  - now transitivity (_norm t).
Qed.

Lemma C10_norm_same_letters_witness :
  same_letters plain (py "Información") (py "informacion")
  /\ _norm (py "Información") = _norm (py "informacion").
Proof.
  assert (H : same_letters plain (py "Información") (py "informacion")).
  { apply rst_trans with (y := py "información").
    - apply rst_step. apply (edit_case plain [] 0x49%N (py "nformación")); reflexivity.
    - apply rst_trans with (y := py "informacio" ++ [0x301%N] ++ py "n").
      + apply rst_step.
        apply (edit_decompose plain (py "informaci") 0xF3%N (py "n")); reflexivity.
      + apply rst_step.
        apply (edit_mark plain (py "informacio") 0x301%N (py "n")); reflexivity. }
  split; [exact H | exact (C10_norm_same_letters _ _ H)].
Defined.

(** C10 (as stated) fails: [str.lower] turns a capital sigma at the end
    of a word into the final sigma, so the upper-case and lower-case
    spellings of alpha-sigma do not normalise to the same string. *)
Lemma C10_counterexample_final_sigma :
  same_letters tabled (py "ΑΣ") (py "ασ")
  /\ _norm (py "ΑΣ") = py "ας"
  /\ _norm (py "ασ") = py "ασ"
  /\ _norm (py "ΑΣ") <> _norm (py "ασ").
Proof.
  split; [|split; [reflexivity | split; [reflexivity | discriminate]]].
  apply rst_trans with (y := py "αΣ").
  - apply rst_step. apply (edit_case tabled [] 0x391%N (py "Σ")); reflexivity.
  - apply rst_step. apply (edit_case tabled (py "α") 0x3A3%N []); reflexivity.
Qed.

Example ex_norm_example : _norm (py "Información") = _norm (py "informacion").
Proof. reflexivity. Qed.

(* ===================================================================== *)
(** * Further properties of the heading index *)
(* ===================================================================== *)

Section DropwhileMore.

Variable p : codepoint -> bool.

Lemma dropwhile_idempotent (s : str) : dropwhile p (dropwhile p s) = dropwhile p s.
Proof.
  induction s as [|c s IH]; [reflexivity|].
  simpl. destruct (p c) eqn:E; [exact IH | simpl; now rewrite E].
Qed.

Lemma dropwhile_app_stop (s t : str) c :
  p c = false -> dropwhile p (s ++ c :: t) = dropwhile p s ++ c :: t.
Proof.
  intros Hc. induction s as [|d s IH]; simpl; [now rewrite Hc|].
  destruct (p d); [exact IH | reflexivity].
Qed.

Lemma takewhile_forallb (s : str) : forallb p (takewhile p s) = true.
Proof.
  induction s as [|c s IH]; [reflexivity|].
  simpl. destruct (p c) eqn:E; simpl; [now rewrite E | reflexivity].
Qed.

Lemma forallb_dropwhile (q : codepoint -> bool) (s : str) :
  forallb q s = true -> forallb q (dropwhile p s) = true.
Proof.
  induction s as [|c s IH]; [reflexivity|].
  simpl. intros H. apply andb_true_iff in H. destruct H as (Hc & Hs).
  destruct (p c); [now apply IH | simpl; now rewrite Hc, Hs].
Qed.

End DropwhileMore.

(** Trimming twice is trimming once. *)
Lemma strip_idempotent (s : str) : strip (strip s) = strip s.
Proof.
  unfold strip, lstrip, rstrip.
  destruct (dropwhile isspace s) as [|c a] eqn:Ea; [reflexivity|].
  pose proof (dropwhile_head isspace s c a Ea) as Hc.
  simpl rev. rewrite (dropwhile_app_stop isspace (rev a) [] c Hc).
  rewrite rev_app_distr. simpl. rewrite Hc.
  change (c :: rev (dropwhile isspace (rev a)))
    with (rev [c] ++ rev (dropwhile isspace (rev a))).
  rewrite <- rev_app_distr, rev_involutive.
  rewrite (dropwhile_app_stop isspace (dropwhile isspace (rev a)) [] c Hc).
  now rewrite dropwhile_idempotent.
Qed.

Lemma forallb_strip (q : codepoint -> bool) (s : str) :
  forallb q s = true -> forallb q (strip s) = true.
Proof.
  intros H. apply forallb_forall. intros c Hc. apply strip_incl in Hc.
  rewrite forallb_forall in H. now apply H.
Qed.

Lemma dot_plus_eol_single (s g : str) :
  Re.dot_plus_eol s = Some g -> single_line g = true.
Proof.
  unfold Re.dot_plus_eol.
  pose proof (takewhile_forallb (fun c => negb (c =? LF)%N) s) as H.
  destruct (takewhile (fun c => negb (c =? LF)%N) s) as [|c body]; [discriminate|].
  destruct (dropwhile (fun c => negb (c =? LF)%N) s) as [|d [|e rest]];
    try discriminate; intros [= <-]; exact H.
Qed.

Lemma spaces_then_text_single (s g : str) :
  Re.spaces_then_text s = Some g -> single_line g = true.
Proof.
  induction s as [|c s IH]; simpl.
  - apply dot_plus_eol_single.
  - destruct (isspace c); [|apply dot_plus_eol_single].
    destruct (Re.spaces_then_text s) as [g'|].
    + intros [= <-]. now apply IH.
    + apply dot_plus_eol_single.
Qed.

Lemma hashes_group_single (budget taken : nat) (s : str) l g :
  Re.hashes Re.spaces_then_text budget taken s = Some (l, g) -> single_line g = true.
Proof.
  assert (Hstop : forall t u, hashes_stop Re.spaces_then_text t u = Some (l, g) ->
                              single_line g = true).
  { intros t u. unfold hashes_stop. destruct t; [discriminate|].
    destruct (Re.spaces_then_text u) as [g'|] eqn:E; simpl; [|discriminate].
    intros [= _ <-]. now apply spaces_then_text_single in E. }
  revert taken s. induction budget as [|b IH]; intros t s.
  - rewrite hashes_0. apply Hstop.
  - destruct s as [|c s]; [rewrite hashes_nil; apply Hstop|].
    rewrite hashes_cons. destruct (c =? HASH)%N; [|apply Hstop].
    destruct (Re.hashes Re.spaces_then_text b (S t) s) as [r|] eqn:Er; [|apply Hstop].
    intros [= ->]. now apply IH in Er.
Qed.

(** X1.  Every title of the index is trimmed, trimming it again changes
    nothing, and it holds no line feed, whatever the lines are. *)
Theorem X1_titles_trimmed (lines : list str) (h : heading) :
  In h (parse_headings lines) ->
  strip (h_title h) = h_title h /\ single_line (h_title h) = true.
Proof.
  intros H. apply In_parse_headings in H. destruct H as (ln & g & _ & Hm & ->).
  split; [apply strip_idempotent|].
  apply forallb_strip. unfold Re.match_heading in Hm.
  now apply hashes_group_single in Hm.
Qed.

Lemma X1_titles_trimmed_witness :
  In (2, 2, py "B  c") (parse_headings [py "# A"; py "text"; py "##    B  c   "])
  /\ strip (py "B  c") = py "B  c".
Proof.
  assert (Hin : In (2, 2, py "B  c")
                   (parse_headings [py "# A"; py "text"; py "##    B  c   "]))
    by (vm_compute; tauto).
  split; [exact Hin|]. exact (proj1 (X1_titles_trimmed _ _ Hin)).
Defined.

Lemma parse_headings_from_app (i : nat) (a b : list str) :
  parse_headings_from i (a ++ b)
  = parse_headings_from i a ++ parse_headings_from (i + List.length a) b.
Proof.
  revert i. induction a as [|ln a IH]; intros i; simpl.
  - now rewrite Nat.add_0_r.
  - rewrite IH. replace (S i + List.length a) with (i + S (List.length a)) by lia.
    destruct (Re.match_heading ln) as [[l g]|]; reflexivity.
Qed.

Lemma parse_headings_from_shift (i k : nat) (b : list str) :
  parse_headings_from (i + k) b = map (shift k) (parse_headings_from i b).
Proof.
  revert i. induction b as [|ln b IH]; intros i; [reflexivity|].
  simpl. destruct (Re.match_heading ln) as [[l g]|];
    change (S (i + k)) with (S i + k); rewrite (IH (S i)); reflexivity.
Qed.

(** X2.  The index of a document made of two parts is the index of the
    first part followed by the index of the second, its positions moved
    down by the length of the first. *)
Theorem X2_parse_headings_app (a b : list str) :
  parse_headings (a ++ b)
  = parse_headings a ++ map (shift (List.length a)) (parse_headings b).
Proof.
  unfold parse_headings. rewrite parse_headings_from_app.
  now rewrite <- (parse_headings_from_shift 0).
Qed.

(* ===================================================================== *)
(** * Further properties of paragraphs and fenced code *)
(* ===================================================================== *)

Lemma all_paragraphs_group (lines : list str) :
  all_paragraphs lines = map paragraph (group [] (skip_headings lines)).
Proof. apply (all_paragraphs_loop_group [] []). Qed.

Lemma skip_headings_app (a b : list str) :
  skip_headings (a ++ b) = skip_headings a ++ skip_headings b.
Proof. apply filter_app. Qed.

Lemma blank_not_heading (s : str) :
  blank s = true -> Re.match_heading_prefix s = false.
Proof.
  intros Hb. unfold blank in Hb. apply str_eqb_eq in Hb. apply strip_nil_iff in Hb.
  destruct (Re.match_heading_prefix s) eqn:E; [|reflexivity].
  apply match_heading_prefix_iff in E. destruct E as (rest & ->).
  simpl in Hb. discriminate.
Qed.

Lemma group_blank_split (buf x y : list str) (s : str) :
  blank s = true -> group buf (x ++ s :: y) = group buf x ++ group [] y.
Proof.
  intros Hs. revert buf. induction x as [|ln x IH]; intros buf.
  - simpl. rewrite Hs. now destruct buf.
  - simpl. destruct (blank ln); [|apply IH].
    destruct buf; rewrite IH; reflexivity.
Qed.

(** X3.  A heading line neither ends nor starts a paragraph: taking it
    out of the document leaves the paragraphs as they are, so the text
    lines around a heading belong to one paragraph unless a blank line
    separates them. *)
Theorem X3_heading_line_transparent (a b : list str) (h : str) :
  Re.match_heading_prefix h = true ->
  all_paragraphs (a ++ h :: b) = all_paragraphs (a ++ b).
Proof.
  intros Hh. rewrite !all_paragraphs_group, !skip_headings_app.
  unfold skip_headings at 2. cbn [filter]. rewrite Hh. reflexivity.
Qed.

Lemma X3_heading_line_transparent_witness :
  all_paragraphs [py "uno"; py "## Título"; py "dos"] = all_paragraphs [py "uno"; py "dos"]
  /\ all_paragraphs [py "uno"; py "dos"] = [paragraph [py "uno"; py "dos"]].
Proof.
  split; [|reflexivity].
  now apply (X3_heading_line_transparent [py "uno"] [py "dos"] (py "## Título")).
Defined.

(** X4.  A blank line cuts the document in two for [all_paragraphs]: the
    paragraphs of the whole are those of the part before it followed by
    those of the part after it. *)
Theorem X4_paragraphs_split_at_blank (a b : list str) (s : str) :
  blank s = true ->
  all_paragraphs (a ++ s :: b) = all_paragraphs a ++ all_paragraphs b.
Proof.
  intros Hs. rewrite !all_paragraphs_group, skip_headings_app.
  unfold skip_headings at 2. cbn [filter].
  rewrite (blank_not_heading s Hs). cbn [negb]. fold (skip_headings b).
  now rewrite group_blank_split, map_app.
Qed.

Lemma X4_paragraphs_split_at_blank_witness :
  all_paragraphs [py "uno"; py "dos"; py "   "; py "# T"; py "tres"]
  = all_paragraphs [py "uno"; py "dos"] ++ all_paragraphs [py "# T"; py "tres"].
Proof.
  now apply (X4_paragraphs_split_at_blank [py "uno"; py "dos"] [py "# T"; py "tres"] (py "   ")).
Defined.

Lemma extract_code_loop_acc (inside : bool) (acc lines : list str) :
  extract_code_loop inside acc lines = acc ++ extract_code_loop inside [] lines.
Proof.
  revert inside acc. induction lines as [|ln rest IH]; intros inside acc.
  - simpl. now rewrite app_nil_r.
  - cbn [extract_code_loop]. destruct (startswith (strip ln) FENCE); [apply IH|].
    destruct inside; [|apply IH].
    rewrite (IH true (acc ++ [ln])), (IH true ([] ++ [ln])).
    now rewrite <- app_assoc.
Qed.

Lemma extract_code_loop_app (inside : bool) (acc a b : list str) :
  extract_code_loop inside acc (a ++ b)
  = extract_code_loop (xorb inside (Nat.odd (List.length (filter is_fence a))))
                      (extract_code_loop inside acc a) b.
Proof.
  revert inside acc. induction a as [|ln a IH]; intros inside acc.
  - simpl. now rewrite xorb_false_r.
  - cbn [app extract_code_loop filter]. fold (is_fence ln).
    destruct (is_fence ln) eqn:Ef.
    + rewrite IH. cbn [List.length]. rewrite Nat.odd_succ, <- Nat.negb_odd.
      now destruct inside, (Nat.odd (List.length (filter is_fence a))).
    + destruct inside; apply IH.
Qed.

(** X5.  Outside fences nothing is collected: a document without a
    fence line gives the empty string.  When the fences of a first part
    are all closed, the lines collected from a document are those of
    the first part followed by those of the rest, so several blocks
    come out one after the other. *)
Theorem X5_code_blocks_concatenate :
  (forall lines,
      forallb (fun ln => negb (is_fence ln)) lines = true ->
      extract_code_block lines = [])
  /\ (forall a b,
        Nat.even (List.length (filter is_fence a)) = true ->
        extract_code_loop false [] (a ++ b)
        = extract_code_loop false [] a ++ extract_code_loop false [] b).
Proof.
  split.
  - intros lines H. unfold extract_code_block.
    assert (E : extract_code_loop false [] lines = []).
    { induction lines as [|ln rest IH]; [reflexivity|].
      simpl in H. apply andb_true_iff in H. destruct H as (Hln & Hrest).
      apply negb_true_iff in Hln. cbn [extract_code_loop]. fold (is_fence ln).
      rewrite Hln. now apply IH. }
    now rewrite E.
  - intros a b Ha. rewrite extract_code_loop_app.
    rewrite <- Nat.negb_odd in Ha. apply negb_true_iff in Ha. rewrite Ha.
    cbn [xorb]. apply extract_code_loop_acc.
Qed.

Lemma X5_code_blocks_concatenate_witness :
  extract_code_block [py "texto"; py "sin código"] = []
  /\ extract_code_loop false []
       ([FENCE; py "a"; FENCE; py "entre"] ++ [py "```py"; py "b"; FENCE])
     = [py "a"] ++ [py "b"].
Proof.
  split.
  - now apply (proj1 X5_code_blocks_concatenate).
  - now rewrite (proj2 X5_code_blocks_concatenate).
Defined.

(* ===================================================================== *)
(** * Further properties of sections *)
(* ===================================================================== *)

Lemma closes_iff (P L : nat) (h : heading) :
  closes P L h = true <-> P < h_pos h /\ h_level h <= L.
Proof.
  unfold closes. rewrite andb_true_iff, Nat.ltb_lt, Nat.leb_le. tauto.
Qed.

(** The section of a heading ends at or before every later heading that
    is not deeper. *)
Lemma section_end_le_closer (hs : list heading) (P L n : nat) (h : heading) :
  increasing hs -> In h hs -> closes P L h = true ->
  section_end hs P L n <= h_pos h.
Proof.
  intros Hs Hin Hc.
  destruct (section_end_boundary hs P L n Hs) as [(h2 & (_ & _ & Hmin) & ->)|(Hnone & _)].
  - now apply Hmin.
  - rewrite (Hnone h Hin) in Hc. discriminate.
Qed.

(** X6.  Sections nest: of two headings of a document, the section of
    the later one either starts at or after the end of the earlier one's
    section, or the later heading is deeper and its section ends within
    the earlier one's.  Two sections never overlap in part. *)
Theorem X6_sections_nest (lines : list str) (h1 h2 : heading) :
  In h1 (parse_headings lines) -> In h2 (parse_headings lines) ->
  h_pos h1 < h_pos h2 ->
  let hs := parse_headings lines in
  let E1 := section_end hs (h_pos h1) (h_level h1) (List.length lines) in
  let E2 := section_end hs (h_pos h2) (h_level h2) (List.length lines) in
  E1 <= h_pos h2 \/ (h_level h1 < h_level h2 /\ E2 <= E1).
Proof.
  intros H1 H2 Hlt hs E1 E2. pose proof (parse_headings_sorted lines) as Hs.
  destruct (Nat.le_gt_cases E1 (h_pos h2)) as [Hle|Hgt]; [now left|right].
  assert (Hdeep : h_level h1 < h_level h2).
  { destruct (Nat.lt_ge_cases (h_level h1) (h_level h2)) as [|Hge]; [assumption|].
    assert (Hc : closes (h_pos h1) (h_level h1) h2 = true) by now apply closes_iff.
    pose proof (section_end_le_closer hs _ _ (List.length lines) h2 Hs H2 Hc).
    unfold E1 in Hgt. lia. }
  split; [exact Hdeep|].
  destruct (section_end_boundary hs (h_pos h1) (h_level h1) (List.length lines) Hs)
    as [(h3 & (Hin3 & Hc3 & _) & HE1)|(_ & HE1)].
  - fold E1 in HE1. apply closes_iff in Hc3. destruct Hc3 as (Hp3 & Hl3).
    assert (Hc : closes (h_pos h2) (h_level h2) h3 = true)
      by (apply closes_iff; lia).
    pose proof (section_end_le_closer hs _ _ (List.length lines) h3 Hs Hin3 Hc).
    unfold E2. lia.
  - fold E1 in HE1. unfold E2. rewrite HE1.
    apply section_end_bounds. now apply parse_headings_pos_lt.
Qed.

Lemma X6_sections_nest_witness :
  section_end (parse_headings doc_sections) 4 3 9 <= section_end (parse_headings doc_sections) 2 2 9
  /\ section_end (parse_headings doc_sections) 2 2 9 <= 6.
Proof.
  assert (H1 : In (2, 2, py "Información general") (parse_headings doc_sections))
    by (vm_compute; tauto).
  assert (H2 : In (4, 3, py "Detalle") (parse_headings doc_sections))
    by (vm_compute; tauto).
  assert (H3 : In (6, 2, py "Pasos") (parse_headings doc_sections))
    by (vm_compute; tauto).
  split.
  - destruct (X6_sections_nest doc_sections _ _ H1 H2) as [H|(_ & H)];
      [unfold h_pos; simpl; lia | vm_compute in H; lia | exact H].
  - destruct (X6_sections_nest doc_sections _ _ H1 H3) as [H|(H & _)];
      [unfold h_pos; simpl; lia | exact H | vm_compute in H; lia].
Defined.

Lemma pseudocodigo_sections_filter (L : library) (all hs : list heading) (n : nat) :
  flat_map (fun h =>
    if negb (h_level h =? 3) then []
    else if existsb (fun t => contains (General._norm L (h_title h)) t) TERMS
         then [(h_pos h, section_end all (h_pos h) (h_level h) n)]
         else []) hs
  = map (fun h => (h_pos h, section_end all (h_pos h) (h_level h) n))
        (filter (General.is_pseudocodigo_diagrama L) hs).
Proof.
  induction hs as [|h hs IH]; [reflexivity|].
  cbn [flat_map filter]. rewrite IH.
  change (General.is_pseudocodigo_diagrama L h)
    with ((h_level h =? 3)
          && existsb (fun t => contains (General._norm L (h_title h)) t) TERMS).
  destruct (h_level h =? 3); cbn [negb andb]; [|reflexivity].
  destruct (existsb (fun t => contains (General._norm L (h_title h)) t) TERMS); reflexivity.
Qed.

Lemma level3_sections_apart (L : library) (all sub : list heading) (n : nat) :
  increasing all -> incl sub all -> increasing sub ->
  StronglySorted apart
    (map (fun h => (h_pos h, section_end all (h_pos h) (h_level h) n))
         (filter (General.is_pseudocodigo_diagrama L) sub)).
Proof.
  intros Hall.
  induction sub as [|h sub IH]; intros Hincl Hs; [constructor|].
  unfold increasing in Hs, IH. simpl in Hs. inversion Hs as [|? ? Hs' Hlt]; subst.
  assert (Hincl' : incl sub all) by (intros x Hx; apply Hincl; now right).
  cbn [filter]. destruct (General.is_pseudocodigo_diagrama L h) eqn:Eh; [|now apply IH].
  cbn [map]. constructor; [now apply IH|].
  apply Forall_forall. intros r Hr. apply in_map_iff in Hr.
  destruct Hr as (h' & <- & Hh'). apply filter_In in Hh'. destruct Hh' as (Hin' & Eh').
  unfold apart. cbn [fst snd].
  apply section_end_le_closer; [exact Hall | now apply Hincl' |].
  apply closes_iff. rewrite Forall_forall in Hlt.
  split; [apply Hlt; now apply in_map|].
  unfold General.is_pseudocodigo_diagrama in Eh, Eh'.
  apply andb_true_iff in Eh, Eh'. destruct Eh as (Eh & _), Eh' as (Eh' & _).
  apply Nat.eqb_eq in Eh, Eh'. lia.
Qed.

(** X7.  Whatever the library makes of a title, the sections
    [pseudocodigo_diagrama] shows are those of the level-3 headings
    whose normalised title contains 'pseudocodigo' or 'diagrama', in
    document order.  Each starts at its own heading line, is not empty
    and stays within the document, and no line is in two of them: a
    section ends where the next one starts, or before. *)
Theorem X7_pseudocodigo_sections_apart (L : library) (lines : list str) :
  let hs := parse_headings lines in
  let rs := General.pseudocodigo_sections L hs (List.length lines) in
  rs = map (fun h => (h_pos h, section_end hs (h_pos h) (h_level h) (List.length lines)))
           (filter (General.is_pseudocodigo_diagrama L) hs)
  /\ Forall (fun r => fst r < snd r <= List.length lines) rs
  /\ StronglySorted apart rs.
Proof.
  intros hs rs.
  assert (E : rs = map (fun h => (h_pos h, section_end hs (h_pos h) (h_level h)
                                                     (List.length lines)))
                       (filter (General.is_pseudocodigo_diagrama L) hs))
    by apply pseudocodigo_sections_filter.
  split; [exact E|]. rewrite E. split.
  - apply Forall_forall. intros r Hr. apply in_map_iff in Hr.
    destruct Hr as (h & <- & Hh). apply filter_In in Hh. destruct Hh as (Hin & _).
    cbn [fst snd]. pose proof (parse_headings_pos_lt lines h Hin) as Hlt.
    pose proof (section_end_bounds lines (h_pos h) (h_level h) Hlt). fold hs in H. lia.
  - apply level3_sections_apart; try apply parse_headings_sorted. apply incl_refl.
Qed.

Example ex_pseudocodigo_diagrama :
  pseudocodigo_sections (parse_headings doc_pseudo) 10 = [(1, 5); (5, 7)]
  /\ pseudocodigo_diagrama doc_pseudo =
     py "### Pseudocódigo
inicio
#### Nota
n

### Diagrama de flujo
d".
Proof. split; reflexivity. Qed.

Lemma find_range_bounds (L : library) (sp ep : nat -> str -> bool) fb (lines : list str)
    (s e : nat) :
  General.find_range L sp ep fb lines = Range s e -> s < e <= List.length lines.
Proof.
  unfold General.find_range. rewrite scan_first_general.
  destruct (find (General.satisfies L sp) (parse_headings lines)) as [h|] eqn:Eh; simpl;
    [|discriminate].
  apply find_some in Eh. destruct Eh as (Hin & _).
  pose proof (parse_headings_pos_lt lines h Hin) as Hlt.
  destruct (find (General.satisfies L ep) (parse_headings lines)) as [x|] eqn:Ex; simpl.
  - apply find_some in Ex. destruct Ex as (Hinx & _).
    pose proof (parse_headings_pos_lt lines x Hinx) as Hltx.
    destruct (h_pos h <? h_pos x) eqn:E.
    + apply Nat.ltb_lt in E. intros [= <- <-]. lia.
    + destruct fb; [discriminate|]. intros [= <- <-]. lia.
  - destruct fb; [discriminate|]. intros [= <- <-]. lia.
Qed.

(** X8.  Whatever the library makes of a title, what an entry of the
    [dataset] sub-menu shows is never empty and never reaches outside
    the document: the range starts at a heading line, of level 2 for
    entry a and of level 3 for entry b, and ends after it, at the
    number of lines at most. *)
Theorem X8_dataset_range_bounds (L : library) (ch : choice) (lines : list str) (s e : nat) :
  General.dataset L ch lines = Range s e ->
  s < e <= List.length lines
  /\ exists ln g,
       nth_error (slice lines s e) 0 = Some ln
       /\ Re.match_heading ln
          = Some (match ch with choice_a => 2 | choice_b => 3 end, g).
Proof.
  intros H.
  assert (Hfr : exists sp ep fb,
             General.find_range L sp ep fb lines = Range s e
             /\ forall l n, sp l n = true ->
                            l = match ch with choice_a => 2 | choice_b => 3 end).
  { destruct ch.
    - exists is_dataset_referencia, is_tabla_clientes, fail.
      split; [now rewrite <- dataset_a_find_range_general|].
      intros l n Hl. unfold is_dataset_referencia in Hl.
      apply andb_true_iff in Hl. destruct Hl as (Hl & _).
      apply andb_true_iff in Hl. destruct Hl as (Hl & _). now apply Nat.eqb_eq.
    - exists is_tabla_clientes, is_programa_interactivo, to_end.
      split; [now rewrite <- dataset_b_find_range_general|].
      intros l n Hl. unfold is_tabla_clientes in Hl.
      apply andb_true_iff in Hl. destruct Hl as (Hl & _).
      apply andb_true_iff in Hl. destruct Hl as (Hl & _). now apply Nat.eqb_eq. }
  destruct Hfr as (sp & ep & fb & Hfr & Hlevel).
  pose proof (find_range_bounds L sp ep fb lines s e Hfr) as Hb.
  split; [exact Hb|].
  destruct (find_range_start_general L sp ep fb lines s e Hfr) as (h & (Hin & Hsat & _) & ->).
  apply In_parse_headings in Hin. destruct Hin as (ln & g & Hn & Hm & _).
  exists ln, g. split.
  - apply nth_error_slice. rewrite Nat.add_0_r. split; [exact Hn | lia].
  - rewrite Hm. f_equal. f_equal. apply (Hlevel _ _ Hsat).
Qed.

Lemma X8_dataset_range_bounds_witness :
  General.dataset tables choice_a doc_dataset = Range 1 3
  /\ 1 < 3 <= List.length doc_dataset.
Proof.
  split; [reflexivity|].
  exact (proj1 (X8_dataset_range_bounds tables choice_a doc_dataset 1 3 eq_refl)).
Defined.

(* ===================================================================== *)
(** * The converter: sheet names and file names *)
(* ===================================================================== *)

Import pasarxlsxacsv.

Section StripChars.

Variable p : codepoint -> bool.

Lemma strip_chars_incl (s : str) c : In c (Chars.strip_chars p s) -> In c s.
Proof.
  unfold Chars.strip_chars. intros H. rewrite <- in_rev in H.
  apply dropwhile_incl in H. rewrite <- in_rev in H. now apply dropwhile_incl in H.
Qed.

Lemma dropwhile_length (s : str) : length (dropwhile p s) <= length s.
Proof.
  induction s as [|c s IH]; simpl; [lia|]. destruct (p c); simpl; lia.
Qed.

Lemma strip_chars_length (s : str) : length (Chars.strip_chars p s) <= length s.
Proof.
  unfold Chars.strip_chars. rewrite length_rev.
  etransitivity; [apply dropwhile_length|]. rewrite length_rev. apply dropwhile_length.
Qed.

(** What is left starts with a character outside [p] ... *)
Lemma strip_chars_first (s : str) c :
  hd_error (Chars.strip_chars p s) = Some c -> p c = false.
Proof.
  unfold Chars.strip_chars.
  destruct (dropwhile p s) as [|d0 d'] eqn:Ed; [discriminate|].
  assert (Hd0 : p d0 = false) by (eapply dropwhile_head; exact Ed).
  cbn [rev]. rewrite (dropwhile_app_stop p (rev d') [] d0 Hd0).
  rewrite rev_app_distr. simpl. intros H. now injection H as <-.
Qed.

(** ... and ends with one. *)
Lemma strip_chars_last (s : str) c :
  hd_error (rev (Chars.strip_chars p s)) = Some c -> p c = false.
Proof.
  unfold Chars.strip_chars. rewrite rev_involutive. intros H.
  destruct (dropwhile p (rev (dropwhile p s))) as [|x t] eqn:E; [discriminate|].
  simpl in H. injection H as ->. eapply dropwhile_head. exact E.
Qed.

Lemma strip_chars_fixed (s : str) :
  (forall c, hd_error s = Some c -> p c = false) ->
  (forall c, hd_error (rev s) = Some c -> p c = false) ->
  Chars.strip_chars p s = s.
Proof.
  intros Hf Hl. unfold Chars.strip_chars.
  assert (E1 : dropwhile p s = s).
  { destruct s as [|c s]; [reflexivity|]. simpl. now rewrite (Hf c eq_refl). }
  rewrite E1.
  assert (E2 : dropwhile p (rev s) = rev s).
  { destruct (rev s) as [|c r]; [reflexivity|]. simpl. now rewrite (Hl c eq_refl). }
  rewrite E2. apply rev_involutive.
Qed.

Lemma strip_chars_idempotent (s : str) :
  Chars.strip_chars p (Chars.strip_chars p s) = Chars.strip_chars p s.
Proof.
  apply strip_chars_fixed; [apply strip_chars_first|apply strip_chars_last].
Qed.

End StripChars.

Lemma in_ranges_tabled (rs : list (codepoint * codepoint)) (c : codepoint) :
  forallb (fun r => in_tables (snd r)) rs = true ->
  in_ranges rs c = true -> in_tables c = true.
Proof.
  intros Hrs H. unfold in_ranges in H. apply existsb_exists in H.
  destruct H as (r & Hin & Hr). rewrite forallb_forall in Hrs. specialize (Hrs r Hin).
  cbv beta in Hrs. apply andb_true_iff in Hr. destruct Hr as (_ & Hr).
  unfold in_tables in *. apply N.ltb_lt. apply N.ltb_lt in Hrs. apply N.leb_le in Hr. eapply N.le_lt_trans; eassumption.
Qed.

Lemma safe_char_tabled (c : codepoint) : safe_char c = true -> in_tables c = true.
Proof.
  unfold safe_char. intros H. apply orb_true_iff in H. destruct H as [H|H].
  - apply orb_true_iff in H. destruct H as [H|H].
    + eapply in_ranges_tabled; [|exact H]. reflexivity.
    + apply N.eqb_eq in H. now subst.
  - apply N.eqb_eq in H. now subst.
Qed.

Lemma safe_chars_checked :
  forallb (fun c => implb (safe_char c)
                      (negb (isspace c) && negb (existsb (N.eqb c) RESERVED)))
          all_tabled = true.
Proof. vm_compute. reflexivity. Qed.

Lemma safe_char_harmless (c : codepoint) :
  safe_char c = true -> isspace c = false /\ ~ In c RESERVED.
Proof.
  intros H. pose proof (in_all_tabled c (safe_char_tabled c H)) as Hin.
  pose proof safe_chars_checked as Hall. rewrite forallb_forall in Hall.
  specialize (Hall c Hin). cbv beta in Hall. rewrite H in Hall. cbn [implb] in Hall.
  apply andb_true_iff in Hall. destruct Hall as (Hs & Hr).
  apply negb_true_iff in Hs, Hr. split; [exact Hs|].
  intros Hc. assert (Hex : existsb (N.eqb c) RESERVED = true).
  { apply existsb_exists. exists c. split; [exact Hc|apply N.eqb_refl]. }
  congruence.
Qed.

Lemma keep_char_safe (c : codepoint) : safe_char (keep_char c) = true.
Proof.
  unfold keep_char. fold (safe_char c). destruct (safe_char c) eqn:E; [exact E|].
  now destruct (isspace c).
Qed.

Lemma keep_char_fixed (c : codepoint) : safe_char c = true -> keep_char c = c.
Proof. intros H. unfold keep_char. fold (safe_char c). now rewrite H. Qed.

Lemma safe_sheet_suffix_safe (name : str) :
  forallb safe_char (safe_sheet_suffix name) = true.
Proof.
  apply forallb_forall. intros c Hin. unfold safe_sheet_suffix in Hin.
  apply strip_chars_incl in Hin. apply in_map_iff in Hin.
  destruct Hin as (x & <- & _). apply keep_char_safe.
Qed.

(** X9.  The suffix [safe_sheet_suffix] makes of a sheet name (of
    code points below U+0400) is safe in a file name: it is made of
    alphanumeric characters, hyphens and underscores only, so it holds
    no white space, no path separator and no reserved character; it
    neither starts nor ends with an underscore; and it is never longer
    than the name. *)
Theorem X9_safe_sheet_suffix_safe (name : str) :
  forallb tabled name = true ->
  let suffix := safe_sheet_suffix name in
  Forall (fun c => safe_char c = true /\ isspace c = false /\ ~ In c RESERVED) suffix
  /\ hd_error suffix <> Some Chars.UNDERSCORE
  /\ hd_error (rev suffix) <> Some Chars.UNDERSCORE
  /\ length suffix <= length name.
Proof.
  intros _ suffix. split; [|split; [|split]].
  - apply Forall_forall. intros c Hin.
    pose proof (safe_sheet_suffix_safe name) as H. rewrite forallb_forall in H.
    specialize (H c Hin). split; [exact H|]. now apply safe_char_harmless.
  - intros H. apply strip_chars_first in H. now rewrite N.eqb_refl in H.
  - intros H. apply strip_chars_last in H. now rewrite N.eqb_refl in H.
  - unfold suffix, safe_sheet_suffix.
    etransitivity; [apply strip_chars_length|]. now rewrite length_map.
Qed.

Lemma X9_safe_sheet_suffix_safe_witness :
  safe_sheet_suffix (py " Año 2024: ventas/cobros (%) ") = py "Año_2024__ventas_cobros"
  /\ length (py "Año_2024__ventas_cobros") <= length (py " Año 2024: ventas/cobros (%) ").
Proof.
  split; [reflexivity|].
  apply (X9_safe_sheet_suffix_safe (py " Año 2024: ventas/cobros (%) ")). reflexivity.
Defined.

Lemma map_keep_char_fixed (s : str) : forallb safe_char s = true -> map keep_char s = s.
Proof.
  induction s as [|c s IH]; intros H; [reflexivity|].
  simpl in H. apply andb_true_iff in H. destruct H as (Hc & Hs).
  simpl. now rewrite keep_char_fixed, IH.
Qed.

(** X10.  [safe_sheet_suffix] is idempotent: the suffix of a name (of
    code points below U+0400) is its own suffix.  More generally a name
    that is already made of safe characters and has no underscore at
    either end is returned as it is. *)
Theorem X10_safe_sheet_suffix_idempotent :
  (forall name,
     forallb tabled name = true ->
     safe_sheet_suffix (safe_sheet_suffix name) = safe_sheet_suffix name)
  /\ (forall name,
        forallb safe_char name = true ->
        hd_error name <> Some Chars.UNDERSCORE ->
        hd_error (rev name) <> Some Chars.UNDERSCORE ->
        safe_sheet_suffix name = name).
Proof.
  split.
  - intros name _. unfold safe_sheet_suffix at 1.
    rewrite map_keep_char_fixed by apply safe_sheet_suffix_safe.
    unfold safe_sheet_suffix. apply strip_chars_idempotent.
  - intros name Hs Hf Hl. unfold safe_sheet_suffix.
    rewrite map_keep_char_fixed by exact Hs.
    apply strip_chars_fixed; intros c Hc; apply N.eqb_neq; intros <-; congruence.
Qed.

Lemma X10_safe_sheet_suffix_idempotent_witness :
  safe_sheet_suffix (safe_sheet_suffix (py "_Ventas 2024 (%)_")) = py "Ventas_2024"
  /\ safe_sheet_suffix (py "Ventas_2024") = py "Ventas_2024".
Proof.
  split.
  - rewrite (proj1 X10_safe_sheet_suffix_idempotent) by reflexivity. reflexivity.
  - apply (proj2 X10_safe_sheet_suffix_idempotent); [reflexivity| |]; discriminate.
Defined.
(* ===================================================================== *)
(** * The converter: choosing the sheets *)
(* ===================================================================== *)

Lemma strip_as_strip_chars (s : str) : strip s = Chars.strip_chars isspace s.
Proof. reflexivity. Qed.

Lemma split_on_no_sep (sep : codepoint) (cur s : str) :
  existsb (N.eqb sep) s = false -> Chars.split_on sep cur s = [cur ++ s].
Proof.
  revert cur. induction s as [|c s IH]; intros cur H; simpl.
  - now rewrite app_nil_r.
  - simpl in H. apply orb_false_iff in H. destruct H as (Hc & Hs).
    rewrite N.eqb_sym, Hc, IH by exact Hs. now rewrite <- app_assoc.
Qed.

Lemma split_on_join (sep : codepoint) (cur p : str) (ps : list str) :
  existsb (N.eqb sep) p = false ->
  Chars.split_on sep cur (p ++ sep :: join [sep] ps)
  = (cur ++ p) :: Chars.split_on sep [] (join [sep] ps).
Proof.
  revert cur. induction p as [|c p IH]; intros cur H; simpl.
  - now rewrite N.eqb_refl, app_nil_r.
  - simpl in H. apply orb_false_iff in H. destruct H as (Hc & Hp).
    rewrite N.eqb_sym, Hc, IH by exact Hp. now rewrite <- app_assoc.
Qed.

(** [split] undoes [join] when no piece holds the separator. *)
Lemma split_join (sep : codepoint) (ps : list str) :
  ps <> [] ->
  forallb (fun p => negb (existsb (N.eqb sep) p)) ps = true ->
  Chars.split sep (join [sep] ps) = ps.
Proof.
  unfold Chars.split. induction ps as [|p ps IH]; intros Hne H; [congruence|].
  simpl in H. apply andb_true_iff in H. destruct H as (Hp & Hps).
  apply negb_true_iff in Hp.
  destruct ps as [|q ps].
  - simpl. now rewrite split_on_no_sep.
  - change (join [sep] (p :: q :: ps)) with (p ++ sep :: join [sep] (q :: ps)).
    rewrite split_on_join by exact Hp. simpl app. f_equal. apply IH; [discriminate|exact Hps].
Qed.

(** The pieces of [split] are made of characters of the string other
    than the separator. *)
Lemma split_on_pieces (sep : codepoint) (cur s p : str) c :
  In p (Chars.split_on sep cur s) -> In c p ->
  In c cur \/ (In c s /\ c <> sep).
Proof.
  revert cur. induction s as [|d s IH]; intros cur Hp Hc; simpl in Hp.
  - destruct Hp as [<-|[]]. now left.
  - destruct (d =? sep)%N eqn:E.
    + destruct Hp as [<-|Hp]; [now left|].
      destruct (IH [] Hp Hc) as [[]|(Hin & Hne)]. right. split; [now right|exact Hne].
    + destruct (IH (cur ++ [d]) Hp Hc) as [Hin|(Hin & Hne)].
      * apply in_app_or in Hin. destruct Hin as [Hin|[<-|[]]]; [now left|].
        right. split; [now left|]. now apply N.eqb_neq.
      * right. split; [now right|exact Hne].
Qed.

Lemma lookup_key {V} (t : list (codepoint * V)) (c : codepoint) (v : V) :
  lookup t c = Some v -> In c (map fst t).
Proof.
  induction t as [|[k w] t IH]; simpl; [discriminate|].
  destruct (c =? k)%N eqn:E; [|now right; apply IH].
  intros _. left. apply N.eqb_eq in E. now subst.
Qed.

(** [str.lower] leaves a code point outside the tables alone. *)
Lemma tolower_untabled (c : codepoint) : in_tables c = false -> tolower c = [c].
Proof.
  intros H. unfold tolower. destruct (lookup lower_table c) as [l|] eqn:E; [|reflexivity].
  apply lookup_key in E.
  assert (Hall : forallb in_tables (map fst lower_table) = true) by (vm_compute; reflexivity).
  rewrite forallb_forall in Hall. rewrite (Hall c E) in H. discriminate.
Qed.

Lemma lower_caseless (s : str) : forallb caseless s = true -> lower s = s.
Proof.
  intros H. unfold lower. rewrite lower_from_plain.
  - induction s as [|c s IH]; [reflexivity|]. simpl in H.
    apply andb_true_iff in H. destruct H as (Hc & Hs).
    unfold caseless in Hc. apply andb_true_iff in Hc. destruct Hc as (Hc & _).
    apply str_eqb_eq in Hc. simpl. rewrite Hc. simpl. now rewrite IH.
  - destruct (existsb (N.eqb CAPITAL_SIGMA) s) eqn:E; [|reflexivity].
    apply existsb_exists in E. destruct E as (c & Hin & Hc).
    rewrite forallb_forall in H. specialize (H c Hin).
    unfold caseless in H. apply andb_true_iff in H. destruct H as (_ & H).
    rewrite N.eqb_sym in Hc. now rewrite Hc in H.
Qed.

Lemma digits_and_blanks_checked :
  forallb (fun c =>
    implb (Chars.isdigit_char c)
          (negb (isspace c) && negb (c =? Chars.COMMA)%N && caseless c
           && negb (Chars.int_space c) && negb (c =? Chars.HYPHEN)%N
           && negb (c =? Chars.PLUS)%N)
    && implb (isspace c || (c =? Chars.COMMA)%N) (caseless c)) all_tabled = true.
Proof. vm_compute. reflexivity. Qed.

Lemma blank_char_caseless (c : codepoint) :
  isspace c || (c =? Chars.COMMA)%N = true -> caseless c = true.
Proof.
  intros H. destruct (in_tables c) eqn:Et.
  - pose proof (in_all_tabled c Et) as Hin.
    pose proof digits_and_blanks_checked as Hall. rewrite forallb_forall in Hall.
    specialize (Hall c Hin). cbv beta in Hall.
    apply andb_true_iff in Hall. destruct Hall as (_ & Hall).
    rewrite H in Hall. exact Hall.
  - unfold caseless. rewrite (tolower_untabled c Et).
    apply andb_true_iff. split; [now apply str_eqb_eq|].
    apply negb_true_iff, N.eqb_neq. intros ->. discriminate Et.
Qed.

Lemma read_sheets_list_select (all_names : list str) (sheets_opt : str) :
  all_names <> [] -> is_keyword sheets_opt = false ->
  read_sheets_list all_names sheets_opt
  = select_sheets all_names (requested_items sheets_opt) [].
Proof.
  intros Hne Hk. unfold read_sheets_list. destruct all_names as [|first rest]; [congruence|].
  unfold is_keyword in Hk. apply orb_false_iff in Hk. destruct Hk as (H1 & H2).
  cbv zeta. now rewrite H1, H2.
Qed.

Lemma read_sheets_list_select_general (L : library) (all_names : list str) (sheets_opt : str) :
  all_names <> [] -> General.is_keyword L sheets_opt = false ->
  General.read_sheets_list L all_names sheets_opt
  = General.select_sheets L all_names (requested_items sheets_opt) [].
Proof.
  intros Hne Hk. unfold General.read_sheets_list.
  destruct all_names as [|first rest]; [congruence|].
  unfold General.is_keyword in Hk. apply orb_false_iff in Hk. destruct Hk as (H1 & H2).
  cbv zeta. now rewrite H1, H2.
Qed.

(** The item loop handles the items one after the other and stops at
    the first one it refuses. *)
Lemma select_sheets_app (L : library) (all_names a b result : list str) :
  General.select_sheets L all_names (a ++ b) result
  = match General.select_sheets L all_names a result with
    | inl chosen => General.select_sheets L all_names b chosen
    | inr ex => inr ex
    end.
Proof.
  revert result. induction a as [|item a IH]; intros result; [reflexivity|].
  cbn [app General.select_sheets]. destruct (lib_isdigit L item).
  - destruct (lib_int L item) as [idx|]; [|reflexivity].
    destruct ((idx <? 0)%Z || (Z.of_nat (length all_names) <=? idx)%Z);
      [reflexivity|apply IH].
  - destruct (existsb (str_eqb item) all_names); [apply IH|reflexivity].
Qed.

(** [read_sheets_list] at an item that [str.isdigit] accepts, the items
    before it having been accepted. *)
Lemma read_sheets_list_at_digits (L : library) (all_names : list str) (sheets_opt : str)
    (before after chosen : list str) (item : str) :
  all_names <> [] ->
  General.is_keyword L sheets_opt = false ->
  requested_items sheets_opt = before ++ item :: after ->
  General.select_sheets L all_names before [] = inl chosen ->
  lib_isdigit L item = true ->
  General.read_sheets_list L all_names sheets_opt
  = match lib_int L item with
    | None => inr (ValueError item)
    | Some idx =>
        if ((idx <? 0) || (Z.of_nat (length all_names) <=? idx))%Z
        then inr (RuntimeError (index_out_of_range idx))
        else General.select_sheets L all_names after
               (chosen ++ [nth (Z.to_nat idx) all_names []])
    end.
Proof.
  intros Hne Hk Hreq Hbefore Hd.
  rewrite read_sheets_list_select_general, Hreq, select_sheets_app, Hbefore by assumption.
  cbn [General.select_sheets]. now rewrite Hd.
Qed.

(** The functions of [General] on the library [tables] are the
    functions of the converter defined on the tables directly. *)
Lemma general_converter_at_tables :
  (forall all_names requested result,
      General.select_sheets tables all_names requested result
      = select_sheets all_names requested result)
  /\ (forall all_names sheets_opt,
        General.read_sheets_list tables all_names sheets_opt
        = read_sheets_list all_names sheets_opt)
  /\ (forall sheets_opt, General.is_keyword tables sheets_opt = is_keyword sheets_opt)
  /\ (forall name, General.safe_sheet_suffix tables name = safe_sheet_suffix name)
  /\ (forall base multiple sheet_name,
        General.out_name tables base multiple sheet_name = out_name base multiple sheet_name)
  /\ (forall readable writable base overwrite sheets dir,
        General.convert_xlsx_to_csv tables readable writable base overwrite sheets dir
        = convert_xlsx_to_csv readable writable base overwrite sheets dir).
Proof. repeat split; intros; reflexivity. Qed.

(** X11.  Whatever [str.lower], [str.isdigit] and [int] do: when
    [read_sheets_list] returns, the workbook has a sheet and every
    name returned is the name of one of its sheets; unless the option
    is one of the keywords, it returns one name for each item
    requested. *)
Theorem X11_read_sheets_list_names (L : library) (all_names : list str) (sheets_opt : str)
    (result : list str) :
  General.read_sheets_list L all_names sheets_opt = inl result ->
  all_names <> [] /\ incl result all_names
  /\ (General.is_keyword L sheets_opt = false ->
      length result = length (requested_items sheets_opt)).
Proof.
  intros H.
  assert (Hsel : forall requested acc r,
             General.select_sheets L all_names requested acc = inl r ->
             exists new, r = acc ++ new /\ incl new all_names
                         /\ length new = length requested).
  { clear. induction requested as [|item rest IH]; intros acc r H; simpl in H.
    - injection H as <-. exists []. rewrite app_nil_r. repeat split. intros x [].
    - destruct (lib_isdigit L item).
      + destruct (lib_int L item) as [idx|]; [|discriminate].
        destruct ((idx <? 0)%Z || (Z.of_nat (length all_names) <=? idx)%Z) eqn:E; [discriminate|].
        apply orb_false_iff in E. destruct E as (E0 & E1).
        apply Z.ltb_ge in E0. apply Z.leb_gt in E1.
        apply IH in H. destruct H as (new & -> & Hincl & Hlen).
        exists (nth (Z.to_nat idx) all_names [] :: new). rewrite <- app_assoc.
        repeat split; [|simpl; now rewrite Hlen].
        intros x [<-|Hx]; [|now apply Hincl]. apply nth_In. lia.
      + destruct (existsb (str_eqb item) all_names) eqn:E; [|discriminate].
        apply IH in H. destruct H as (new & -> & Hincl & Hlen).
        exists (item :: new). rewrite <- app_assoc.
        repeat split; [|simpl; now rewrite Hlen].
        intros x [<-|Hx]; [|now apply Hincl].
        apply existsb_exists in E. destruct E as (y & Hy & Hxy).
        apply str_eqb_eq in Hxy. now subst. }
  unfold General.read_sheets_list in H.
  destruct all_names as [|first rest] eqn:Ea; [discriminate|].
  split; [discriminate|]. cbv zeta in H. unfold General.is_keyword.
  destruct (str_eqb (lib_lower L (strip sheets_opt)) (py "first")).
  - injection H as <-. split; [|discriminate]. intros x [<-|[]]. now left.
  - destruct (str_eqb (lib_lower L (strip sheets_opt)) (py "all")).
    + injection H as <-. split; [apply incl_refl|discriminate].
    + rewrite <- Ea in *. apply Hsel in H. destruct H as (new & -> & Hincl & Hlen).
      split; [exact Hincl|]. intros _. exact Hlen.
Qed.

Lemma X11_read_sheets_list_names_witness :
  incl [py "Ventas"; py "Clientes"; py "Ventas"] [py "Clientes"; py "Productos"; py "Ventas"].
Proof.
  apply (X11_read_sheets_list_names tables [py "Clientes"; py "Productos"; py "Ventas"]
           (py " Ventas, 0 ,,Ventas") [py "Ventas"; py "Clientes"; py "Ventas"]).
  vm_compute. reflexivity.
Defined.

(** X12.  Whatever [str.lower], [str.isdigit] and [int] do: an item of
    the option that [str.isdigit] accepts and [int] reads is used as a
    position and never looked up among the sheet names.  When the
    items before it have been accepted, the option is refused as out
    of range if the number read is not the position of a sheet,
    whether or not the workbook has a sheet with exactly that name,
    and otherwise the sheet at that position is chosen and the
    selection goes on with the items after it. *)
Theorem X12_digits_are_positions (L : library) (all_names : list str) (sheets_opt : str)
    (before after chosen : list str) (item : str) (idx : Z) :
  all_names <> [] ->
  General.is_keyword L sheets_opt = false ->
  requested_items sheets_opt = before ++ item :: after ->
  General.select_sheets L all_names before [] = inl chosen ->
  lib_isdigit L item = true -> lib_int L item = Some idx ->
  General.read_sheets_list L all_names sheets_opt
  = if ((idx <? 0) || (Z.of_nat (length all_names) <=? idx))%Z
    then inr (RuntimeError (index_out_of_range idx))
    else General.select_sheets L all_names after
           (chosen ++ [nth (Z.to_nat idx) all_names []]).
Proof.
  intros Hne Hk Hreq Hbefore Hd Hi.
  rewrite (read_sheets_list_at_digits L all_names sheets_opt before after chosen item)
    by assumption.
  now rewrite Hi.
Qed.

Lemma X12_digits_are_positions_witness :
  General.read_sheets_list tables [py "2023"; py "2024"] (py " 0 ,2024")
  = inr (RuntimeError (index_out_of_range 2024)).
Proof.
  apply (X12_digits_are_positions tables [py "2023"; py "2024"] (py " 0 ,2024")
           [py "0"] [] [py "2023"] (py "2024") 2024);
    [discriminate|reflexivity|reflexivity|reflexivity|reflexivity|reflexivity].
Defined.

(** X13.  Whatever [str.lower], [str.isdigit] and [int] do: an item of
    the option that [str.isdigit] accepts and [int] refuses, the items
    before it having been accepted, leaves [read_sheets_list] as the
    [ValueError] of [int], not as the [RuntimeError] of its other
    refusals.  A superscript two is such an item. *)
Theorem X13_digit_item_value_error (L : library) (all_names : list str) (sheets_opt : str)
    (before after chosen : list str) (item : str) :
  all_names <> [] ->
  General.is_keyword L sheets_opt = false ->
  requested_items sheets_opt = before ++ item :: after ->
  General.select_sheets L all_names before [] = inl chosen ->
  lib_isdigit L item = true -> lib_int L item = None ->
  General.read_sheets_list L all_names sheets_opt = inr (ValueError item).
Proof.
  intros Hne Hk Hreq Hbefore Hd Hi.
  rewrite (read_sheets_list_at_digits L all_names sheets_opt before after chosen item)
    by assumption.
  now rewrite Hi.
Qed.

Lemma X13_digit_item_value_error_witness :
  General.read_sheets_list tables [py "Hoja1"; py "Hoja2"] (py "Hoja2, ² ,Hoja1")
  = inr (ValueError (py "²")).
Proof.
  apply (X13_digit_item_value_error tables [py "Hoja1"; py "Hoja2"] (py "Hoja2, ² ,Hoja1")
           [py "Hoja2"] [py "Hoja1"] [py "Hoja2"] (py "²"));
    [discriminate|reflexivity|reflexivity|reflexivity|reflexivity|reflexivity].
Defined.
Lemma filter_none {A} (f : A -> bool) (l : list A) :
  (forall x, In x l -> f x = false) -> filter f l = [].
Proof.
  induction l as [|x l IH]; intros H; [reflexivity|].
  simpl. rewrite (H x) by now left. apply IH. intros y Hy. apply H. now right.
Qed.

Lemma filter_all {A} (f : A -> bool) (l : list A) :
  forallb f l = true -> filter f l = l.
Proof.
  induction l as [|x l IH]; intros H; [reflexivity|].
  simpl in H. apply andb_true_iff in H. destruct H as (Hx & Hl).
  simpl. now rewrite Hx, IH.
Qed.

(** X14.  An option made of white space and commas only, the empty
    option among them, is not an error: [read_sheets_list] returns the
    empty list for it, so that nothing is converted. *)
Theorem X14_blank_option_selects_nothing (all_names : list str) (sheets_opt : str) :
  all_names <> [] ->
  forallb (fun c => isspace c || (c =? Chars.COMMA)%N) sheets_opt = true ->
  read_sheets_list all_names sheets_opt = inl [].
Proof.
  intros Hne Hb. rewrite forallb_forall in Hb.
  assert (Hlow : lower (strip sheets_opt) = strip sheets_opt).
  { apply lower_caseless. apply forallb_forall. intros c Hin.
    apply blank_char_caseless, Hb. now apply strip_incl in Hin. }
  assert (Hk : is_keyword sheets_opt = false).
  { unfold is_keyword. rewrite Hlow.
    apply orb_false_iff. split; apply str_eqb_neq; intros E.
    - assert (Hin : In 0x66%N (strip sheets_opt)) by (rewrite E; now left).
      apply strip_incl, Hb in Hin. discriminate Hin.
    - assert (Hin : In 0x61%N (strip sheets_opt)) by (rewrite E; now left).
      apply strip_incl, Hb in Hin. discriminate Hin. }
  rewrite read_sheets_list_select by assumption.
  unfold requested_items. rewrite filter_none; [reflexivity|].
  intros p Hp. rewrite strip_all_space; [reflexivity|].
  apply forallb_forall. intros c Hc.
  destruct (split_on_pieces _ _ _ _ _ Hp Hc) as [[]|(Hin & Hsep)].
  specialize (Hb c Hin). apply orb_true_iff in Hb. destruct Hb as [Hb|Hb]; [exact Hb|].
  apply N.eqb_eq in Hb. contradiction.
Qed.

Lemma X14_blank_option_selects_nothing_witness :
  read_sheets_list [py "Hoja1"] (py " , ,") = inl [].
Proof.
  apply (X14_blank_option_selects_nothing [py "Hoja1"] (py " , ,"));
    [discriminate|reflexivity].
Defined.

Lemma select_sheets_names (all_names requested acc : list str) :
  forallb typed_name requested = true ->
  forallb (fun item => existsb (str_eqb item) all_names) requested = true ->
  select_sheets all_names requested acc = inl (acc ++ requested).
Proof.
  revert acc. induction requested as [|item rest IH]; intros acc Ht Hin; simpl.
  - now rewrite app_nil_r.
  - simpl in Ht, Hin. apply andb_true_iff in Ht, Hin.
    destruct Ht as (Ht & Hts). destruct Hin as (Hi & His).
    unfold typed_name in Ht. apply andb_true_iff in Ht. destruct Ht as (Ht & _).
    apply andb_true_iff in Ht. destruct Ht as (_ & Hd).
    apply negb_true_iff in Hd. rewrite Hd, Hi, IH by assumption.
    now rewrite <- app_assoc.
Qed.

(** X15.  Sheet names typed as they are (not empty, no white space at
    the ends, no comma, not made of digits, code points below U+0400)
    and joined with commas are
    returned as they were given, in the order given and as often as
    given, when each names a sheet of the workbook and the option as a
    whole is not one of the keywords. *)
Theorem X15_names_round_trip (all_names requested : list str) :
  all_names <> [] ->
  forallb typed_name requested = true ->
  forallb (fun item => existsb (str_eqb item) all_names) requested = true ->
  is_keyword (join [Chars.COMMA] requested) = false ->
  read_sheets_list all_names (join [Chars.COMMA] requested) = inl requested.
Proof.
  intros Hne Ht Hin Hk. rewrite read_sheets_list_select by assumption.
  assert (Hreq : requested_items (join [Chars.COMMA] requested) = requested).
  { destruct requested as [|r rs] eqn:Er; [reflexivity|]. rewrite <- Er in *.
    unfold requested_items. rewrite split_join.
    - rewrite filter_all.
      + clear - Ht. induction requested as [|x l IH]; [reflexivity|].
        simpl in Ht. apply andb_true_iff in Ht. destruct Ht as (Hx & Hl).
        unfold typed_name in Hx. repeat (apply andb_true_iff in Hx; destruct Hx as (Hx & ?)).
        simpl. rewrite IH by exact Hl. f_equal. now apply str_eqb_eq.
      + apply forallb_forall. intros x Hx. rewrite forallb_forall in Ht.
        specialize (Ht x Hx). unfold typed_name in Ht.
        repeat (apply andb_true_iff in Ht; destruct Ht as (Ht & ?)).
        match goal with E : str_eqb (strip x) x = true |- _ =>
          apply str_eqb_eq in E; rewrite E end.
        destruct x; [discriminate Ht|reflexivity].
    - subst requested. discriminate.
    - apply forallb_forall. intros x Hx. rewrite forallb_forall in Ht.
      specialize (Ht x Hx). unfold typed_name in Ht.
      repeat (apply andb_true_iff in Ht; destruct Ht as (Ht & ?)). assumption. }
  rewrite Hreq. now apply select_sheets_names.
Qed.

Lemma X15_names_round_trip_witness :
  read_sheets_list [py "Clientes"; py "Ventas 2024"; py "All"]
                   (py "Ventas 2024,All,Ventas 2024")
  = inl [py "Ventas 2024"; py "All"; py "Ventas 2024"].
Proof.
  apply (X15_names_round_trip [py "Clientes"; py "Ventas 2024"; py "All"]
           [py "Ventas 2024"; py "All"; py "Ventas 2024"]);
    [discriminate|reflexivity|reflexivity|reflexivity].
Defined.

(* ===================================================================== *)
(** * The converter: writing the files *)
(* ===================================================================== *)

Section ConvertFacts.

Variable L : library.
Variable readable : str -> bool.
Variable writable : str -> bool.
Variable base : str.

(** Without [--overwrite] the loop writes only names that are not in
    the directory yet. *)
Lemma convert_loop_fresh (multiple : bool) (sheets dir created : list str) :
  exists written,
    fst (General.convert_loop L readable writable base false multiple sheets dir created)
    = rev written ++ dir
    /\ NoDup written
    /\ (forall p, In p written -> ~ In p dir)
    /\ (forall result,
          snd (General.convert_loop L readable writable base false multiple sheets dir created)
          = inl result -> result = created ++ written).
Proof.
  revert dir created. induction sheets as [|sheet_name rest IH]; intros dir created.
  - exists []. simpl. repeat split; [constructor|tauto|].
    intros result H. injection H as <-. now rewrite app_nil_r.
  - cbn [General.convert_loop]. destruct (readable sheet_name); cbn [negb].
    + set (out_path := General.out_name L base multiple sheet_name).
      rewrite andb_true_r. destruct (existsb (str_eqb out_path) dir) eqn:Ex.
      * apply IH.
      * destruct (writable out_path); cbn [negb].
        -- destruct (IH (out_path :: dir) (created ++ [out_path]))
             as (w & Hdir & Hnd & Hfresh & Hres).
           exists (out_path :: w). split; [|split; [|split]].
           ++ rewrite Hdir. cbn [rev]. now rewrite <- app_assoc.
           ++ constructor; [|exact Hnd]. intros Hin. apply (Hfresh _ Hin). now left.
           ++ intros p [<-|Hp].
              ** intros Hin. assert (existsb (str_eqb out_path) dir = true).
                 { apply existsb_exists. exists out_path. split; [exact Hin|now apply str_eqb_eq]. }
                 congruence.
              ** intros Hin. apply (Hfresh _ Hp). now right.
           ++ intros result H. rewrite (Hres _ H). now rewrite <- app_assoc.
        -- exists []. simpl. repeat split; [constructor|tauto|discriminate].
    + exists []. simpl. repeat split; [constructor|tauto|discriminate].
Qed.


End ConvertFacts.

(** X16.  Whatever [str.isalnum] does: without [--overwrite],
    [convert_xlsx_to_csv] never writes over a file.  The files it
    writes have names that were not in the output directory and that
    differ from one another, whatever the sheets are and whether or
    not the call ends in an exception; when it returns, the list
    returned is the list of the files written, in the order written. *)
Theorem X16_convert_never_clobbers (L : library)
    (readable writable : str -> bool) (base : str) (sheets dir : list str) :
  exists written,
    fst (General.convert_xlsx_to_csv L readable writable base false sheets dir)
    = rev written ++ dir
    /\ NoDup written
    /\ (forall p, In p written -> ~ In p dir)
    /\ (forall created,
          snd (General.convert_xlsx_to_csv L readable writable base false sheets dir)
          = inl created ->
          created = written).
Proof.
  unfold General.convert_xlsx_to_csv.
  destruct (convert_loop_fresh L readable writable base (1 <? length sheets) sheets dir [])
    as (w & H1 & H2 & H3 & H4).
  exists w. split; [exact H1|]. split; [exact H2|]. split; [exact H3|].
  intros created H. now apply H4 in H.
Qed.





(* ===================================================================== *)
(** * The converter: [main] *)
(* ===================================================================== *)

Example ex_int :
  map Chars.int [py " +1_000 "; py "-07"; py "1__0"; py "²"; py "6.0"; []]
  = [Some 1000%Z; Some (-7)%Z; None; None; None; None].
Proof. vm_compute. reflexivity. Qed.

Example ex_read_sheets_list :
  read_sheets_list [py "Clientes"; py "Productos"; py "Ventas"] (py " Ventas, 0 ,,Ventas")
  = inl [py "Ventas"; py "Clientes"; py "Ventas"]
  /\ read_sheets_list [py "Clientes"; py "Productos"] (py " FIRST ") = inl [py "Clientes"]
  /\ read_sheets_list [py "Clientes"; py "Productos"] (py "2")
     = inr (RuntimeError (index_out_of_range 2))
  /\ read_sheets_list [py "Clientes"; py "Productos"] (py "clientes")
     = inr (RuntimeError (no_such_sheet (py "clientes"))).
Proof. vm_compute. repeat split. Qed.

Lemma fresh_on_refl (dir : list str) : fresh_on dir [] dir.
Proof. split; [reflexivity|]. split; [constructor|tauto]. Qed.

Lemma fresh_on_trans (dir w1 dir1 w2 dir2 : list str) :
  fresh_on dir w1 dir1 -> fresh_on dir1 w2 dir2 -> fresh_on dir (w1 ++ w2) dir2.
Proof.
  intros (-> & Hn1 & Hf1) (-> & Hn2 & Hf2). split; [|split].
  - now rewrite rev_app_distr, app_assoc.
  - apply NoDup_app; [exact Hn1|exact Hn2|].
    intros p Hp1 Hp2. apply (Hf2 p Hp2). apply in_or_app. left. now rewrite <- in_rev.
  - intros p Hp. apply in_app_or in Hp. destruct Hp as [Hp|Hp]; [now apply Hf1|].
    intros Hin. apply (Hf2 p Hp). apply in_or_app. now right.
Qed.

Lemma convert_workbook_fresh (L : library) (writable : str -> str -> bool)
    (out_dir : option str) (sheets_opt : str) (xlsx : workbook) (fs : str -> list str)
    (d : str) :
  exists written,
    fresh_on (fs d) written
      (fst (General.convert_workbook L writable out_dir sheets_opt false xlsx fs) d).
Proof.
  unfold General.convert_workbook. destruct (wb_sheet_names xlsx) as [all_names|];
    [|exists []; apply fresh_on_refl].
  destruct (General.read_sheets_list L all_names sheets_opt) as [sheets|ex];
    [|exists []; apply fresh_on_refl].
  cbv zeta.
  set (target_dir := match out_dir with Some t => t | None => wb_parent xlsx end).
  unfold General.convert_xlsx_to_csv.
  destruct (convert_loop_fresh L (wb_readable xlsx) (writable target_dir) (wb_stem xlsx)
              (1 <? length sheets) sheets (fs target_dir) []) as (w & H1 & H2 & H3 & _).
  destruct (General.convert_loop L (wb_readable xlsx) (writable target_dir) (wb_stem xlsx)
              false (1 <? length sheets) sheets (fs target_dir) []) as [dir' result].
  cbn [fst] in *. destruct (str_eqb d target_dir) eqn:E.
  - apply str_eqb_eq in E. subst d. exists w. now split.
  - exists []. apply fresh_on_refl.
Qed.

(** X22.  Whatever the library does: without [--overwrite] a whole run
    of the converter, on one file or on a folder of files, with or
    without an output directory, never writes over a file.  In every
    directory, what it writes are names that were not there before,
    each written once, whatever the workbooks hold, whichever of them
    fail and whatever sheets are asked for. *)
Theorem X22_main_never_clobbers (L : library) (pandas : bool) (input : in_path)
    (out_dir : option str) (sheets_opt : str) (writable : str -> str -> bool)
    (fs : str -> list str) (d : str) :
  exists written,
    fst (General.main L pandas input out_dir sheets_opt false writable fs) d
    = rev written ++ fs d
    /\ NoDup written
    /\ (forall p, In p written -> ~ In p (fs d)).
Proof.
  change (exists written,
             fresh_on (fs d) written
               (fst (General.main L pandas input out_dir sheets_opt false writable fs) d)).
  unfold General.main. destruct pandas; cbn [negb]; [|exists []; apply fresh_on_refl].
  destruct input as [|suffix xlsx|found]; [exists []; apply fresh_on_refl| |].
  - destruct (negb (str_eqb (lib_lower L suffix) (py ".xlsx")));
      [exists []; apply fresh_on_refl|].
    destruct (convert_workbook_fresh L writable out_dir sheets_opt xlsx fs d) as (w & Hw).
    exists w.
    destruct (General.convert_workbook L writable out_dir sheets_opt false xlsx fs)
      as [fs' [c|[f|l]]]; exact Hw.
  - destruct (iter_xlsx_files found) as [|x files] eqn:E; [exists []; apply fresh_on_refl|].
    cbn [fst]. generalize (x :: files). clear. intros files. revert fs.
    induction files as [|xlsx files IH]; intros fs; [exists []; apply fresh_on_refl|].
    cbn [fold_left].
    destruct (convert_workbook_fresh L writable out_dir sheets_opt xlsx fs d) as (w1 & H1).
    destruct (IH (fst (General.convert_workbook L writable out_dir sheets_opt false xlsx fs)))
      as (w2 & H2).
    exists (w1 ++ w2). eapply fresh_on_trans; eassumption.
Qed.

(** X23.  Whatever the library does: when an item of [--sheets] is
    accepted by [str.isdigit] and refused by [int], the items before
    it having been accepted, a run on a single .xlsx file whose
    workbook opens with a sheet ends with the [ValueError] of [int],
    which [main] does not catch, and nothing is written.  On a folder
    that holds this workbook alone the same option is reported and the
    run ends with status 0, as it does on a folder with at least one
    workbook whatever happens to its files. *)
Theorem X23_value_error_leaves_main (L : library) (xlsx : workbook) (all_names : list str)
    (suffix sheets_opt item : str) (before after chosen : list str)
    (out_dir : option str) (overwrite : bool) (writable : str -> str -> bool)
    (fs : str -> list str) :
  wb_sheet_names xlsx = Some all_names -> all_names <> [] ->
  lib_lower L suffix = py ".xlsx" ->
  General.is_keyword L sheets_opt = false ->
  requested_items sheets_opt = before ++ item :: after ->
  General.select_sheets L all_names before [] = inl chosen ->
  lib_isdigit L item = true -> lib_int L item = None ->
  General.main L true (a_file suffix xlsx) out_dir sheets_opt overwrite writable fs
  = (fs, raised (ValueError item))
  /\ (forall found,
        iter_xlsx_files found = [xlsx] ->
        General.main L true (a_folder found) out_dir sheets_opt overwrite writable fs
        = (fs, exit 0))
  /\ (forall found other_opt,
        iter_xlsx_files found <> [] ->
        snd (General.main L true (a_folder found) out_dir other_opt overwrite writable fs)
        = exit 0).
Proof.
  intros Hwb Hne Hsuffix Hk Hreq Hbefore Hd Hi.
  assert (Hcw : General.convert_workbook L writable out_dir sheets_opt overwrite xlsx fs
                = (fs, inr (ValueError item))).
  { unfold General.convert_workbook. rewrite Hwb.
    rewrite (read_sheets_list_at_digits L all_names sheets_opt before after chosen item)
      by assumption.
    now rewrite Hi. }
  split; [|split].
  - unfold General.main. cbn [negb]. rewrite Hsuffix.
    replace (str_eqb (py ".xlsx") (py ".xlsx")) with true by (symmetry; now apply str_eqb_eq).
    cbn [negb]. now rewrite Hcw.
  - intros found Hf. unfold General.main. cbn [negb]. rewrite Hf.
    cbn [fold_left]. now rewrite Hcw.
  - intros found other_opt Hf. unfold General.main. cbn [negb].
    now destruct (iter_xlsx_files found).
Qed.

Lemma X23_value_error_leaves_main_witness :
  fst (General.main tables true
         (a_file (py ".XLSX")
                 {| wb_stem := py "ventas"; wb_parent := py "datos";
                    wb_sheet_names := Some [py "Hoja1"];
                    wb_readable := fun _ => true |})
         None (py "Hoja1,²") false (fun _ _ => true) (fun _ => [])) (py "datos") = []
  /\ snd (General.main tables true
            (a_file (py ".XLSX")
                    {| wb_stem := py "ventas"; wb_parent := py "datos";
                       wb_sheet_names := Some [py "Hoja1"];
                       wb_readable := fun _ => true |})
            None (py "Hoja1,²") false (fun _ _ => true) (fun _ => []))
     = raised (ValueError (py "²")).
Proof.
  rewrite (proj1 (X23_value_error_leaves_main tables
           {| wb_stem := py "ventas"; wb_parent := py "datos";
              wb_sheet_names := Some [py "Hoja1"];
              wb_readable := fun _ => true |}
           [py "Hoja1"] (py ".XLSX") (py "Hoja1,²") (py "²") [py "Hoja1"] [] [py "Hoja1"]
           None false (fun _ _ => true) (fun _ => [])
           eq_refl ltac:(discriminate) eq_refl eq_refl eq_refl eq_refl eq_refl eq_refl)).
  split; reflexivity.
Defined.

Example ex_main_beside_each_workbook :
  let wb parent := {| wb_stem := py "ventas"; wb_parent := parent;
                      wb_sheet_names := Some [py "Hoja1"];
                      wb_readable := fun _ => true |} in
  let run out_dir :=
    fst (General.main tables true
           (a_folder [(py "ventas.xlsx", true, wb (py "a"));
                      (py "~$ventas.xlsx", true, wb (py "a"));
                      (py "ventas.xlsx", true, wb (py "b"))])
           out_dir (py "first") false (fun _ _ => true) (fun _ => [])) in
  run None (py "a") = [py "ventas.csv"]
  /\ run None (py "b") = [py "ventas.csv"]
  /\ run (Some (py "salida")) (py "salida") = [py "ventas.csv"]
  /\ run (Some (py "salida")) (py "a") = [].
Proof. vm_compute. repeat split. Qed.

(* ===================================================================== *)
(** * The interactive loop *)
(* ===================================================================== *)

Example ex_seleccionar :
  seleccionar doc_sections
    [Line (py " 3 "); Line (py "6"); Line (py "2"); Line (py "x"); Line []; Line (py "+6");
     Line (py "1")]
  = (returned, [py "c"]).
Proof. vm_compute. reflexivity. Qed.


(** Where a session stands does not depend on what is on the screen. *)
Lemma run_fst_screen (lines : list str) (p : prompt) (keys : list event) (screen : list str) :
  fst (run lines p keys screen) = fst (run lines p keys []).
Proof.
  revert p screen. induction keys as [|k keys IH]; intros p screen; [reflexivity|].
  cbn [run]. destruct (step lines p k) as [[p'|e] out]; [|reflexivity].
  rewrite IH. symmetry. apply IH.
Qed.


Lemma seleccionar_fst (lines : list str) (keys : list event) :
  fst (seleccionar lines keys)
  = match fst (run lines at_menu keys []) with
    | inl _ => uncaught EOFError
    | inr e => e
    end.
Proof.
  unfold seleccionar. now destruct (run lines at_menu keys []) as [[p|e] screen].
Qed.







(** X20.  The loop never ends by itself: when every line typed is
    something other than a number equal to 6 and Ctrl+C is not
    pressed, the program is still waiting for input when the input
    ends, whatever was typed, and the session ends in the [EOFError] of
    that last [input]. *)
Theorem X20_no_exit_without_six (lines : list str) (keys : list event) :
  Forall stays keys ->
  fst (seleccionar lines keys) = uncaught EOFError.
Proof.
  intros H. rewrite seleccionar_fst.
  assert (Hrun : forall p, exists q, fst (run lines p keys []) = inl q).
  { induction H as [|k keys (s & -> & _ & Hs) _ IH]; intros p; [now exists p|].
    cbn [run].
    assert (Hstep : exists q out, step lines p (Line s) = (inl q, out)).
    { destruct p as [| | |[|]|]; cbn [step]; eauto.
      - destruct (strip s) as [|c r]; [eauto|].
        destruct (Chars.int (c :: r)) as [n|]; [|eauto].
        destruct (n =? 1)%Z; [eauto|]. destruct (n =? 2)%Z; [eauto|].
        destruct (n =? 3)%Z; [destruct (pasos_programa lines); eauto|].
        destruct (n =? 4)%Z; [eauto|]. destruct (n =? 5)%Z; [eauto|].
        destruct (n =? 6)%Z eqn:E6; [|eauto].
        apply Z.eqb_eq in E6. subst n. congruence.
      - cbv zeta.
        repeat match goal with
               | |- context [if ?b then _ else _] => destruct b; eauto
               end. }
    destruct Hstep as (q & out & ->). rewrite run_fst_screen. apply IH. }
  destruct (Hrun at_menu) as (q & ->). reflexivity.
Qed.

Lemma X20_no_exit_without_six_witness :
  fst (seleccionar doc_sections [Line (py "1"); Line []; Line (py "2"); Line (py "a");
                                 Line (py "x"); Line []; Line (py "7"); Line (py "six")])
  = uncaught EOFError.
Proof.
  apply (X20_no_exit_without_six doc_sections).
  repeat (apply Forall_cons;
          [eexists; split; [reflexivity|]; split; [reflexivity|]; vm_compute; discriminate|]).
  apply Forall_nil.
Defined.

Lemma join_chars (sep : str) (parts : list str) c :
  In c (join sep parts) -> In c sep \/ exists p, In p parts /\ In c p.
Proof.
  induction parts as [|a parts IH]; [contradiction|].
  destruct parts as [|b parts].
  - simpl. intros H. right. exists a. split; [now left|exact H].
  - change (join sep (a :: b :: parts)) with (a ++ sep ++ join sep (b :: parts)).
    intros H. apply in_app_or in H. destruct H as [H|H].
    + right. exists a. split; [now left|exact H].
    + apply in_app_or in H. destruct H as [H|H]; [now left|].
      destruct (IH H) as [Hs|(p & Hp & Hc)]; [now left|].
      right. exists p. split; [now right|exact Hc].
Qed.

(** The text of a section is empty exactly when its lines are blank. *)
Lemma strip_join_nil (sec_lines : list str) :
  strip (join [LF] sec_lines) = [] <-> forallb blank sec_lines = true.
Proof.
  rewrite strip_nil_iff. split; intros H.
  - apply forallb_forall. intros ln Hln. unfold blank. apply str_eqb_eq.
    apply strip_all_space. apply forallb_forall. intros c Hc.
    rewrite forallb_forall in H. apply H. now apply In_join with (p := ln).
  - apply forallb_forall. intros c Hc. apply join_chars in Hc.
    destruct Hc as [[<-|[]]|(p & Hp & Hc)]; [reflexivity|].
    rewrite forallb_forall in H. specialize (H p Hp).
    unfold blank in H. apply str_eqb_eq, strip_nil_iff in H.
    rewrite forallb_forall in H. now apply H.
Qed.

(** X21.  [pasos_programa] shows nothing at all, not even its
    not-found message, exactly when the section 'Pasos' is there and
    all its lines are blank; entry 3 of the menu then leads straight
    back to the menu, without the pause for Enter. *)
Theorem X21_pasos_programa_silent (lines : list str) :
  (pasos_programa lines = None <->
   get_section lines (py "Pasos") <> []
   /\ forallb blank (get_section lines (py "Pasos")) = true)
  /\ (pasos_programa lines = None ->
      forall screen, run lines at_menu [Line (py "3")] screen = (inl at_menu, screen)).
Proof.
  split; [split|].
  - unfold pasos_programa. destruct (get_section lines (py "Pasos")) as [|l sec] eqn:E;
      [discriminate|].
    destruct (strip (join [LF] (l :: sec))) eqn:Es; [|discriminate].
    intros _. split; [discriminate|]. now apply strip_join_nil.
  - intros (Hne & Hb). unfold pasos_programa.
    destruct (get_section lines (py "Pasos")) as [|l sec] eqn:E; [congruence|].
    apply strip_join_nil in Hb. now rewrite Hb.
  - intros H screen. cbn [run].
    assert (Hs : step lines at_menu (Line (py "3")) = (inl at_menu, [])).
    { cbn [step].
      change (strip (py "3")) with (py "3").
      change (Chars.int (py "3")) with (Some 3%Z). cbn [Z.eqb Pos.eqb]. now rewrite H. }
    rewrite Hs. now rewrite app_nil_r.
Qed.

Lemma X21_pasos_programa_silent_witness :
  run doc_pasos_blank at_menu [Line (py "3")] [] = (inl at_menu, []).
Proof.
  apply (X21_pasos_programa_silent doc_pasos_blank). reflexivity.
Defined.

(* ===================================================================== *)
(** * Reading the document *)
(* ===================================================================== *)

Example ex_splitlines :
  splitlines [0x61; 0x0D; 0x0A; 0x0A; 0x62; 0x0D; 0x63; 0x0A]%N
  = [[0x61]; []; [0x62]; [0x63]]%N.
Proof. reflexivity. Qed.

Lemma splitlines_from_spec (n : nat) (s cur : str) :
  length s <= n ->
  unbroken cur = true ->
  Forall (fun ln => unbroken ln = true) (splitlines_from cur s)
  /\ concat (splitlines_from cur s) = cur ++ filter (fun c => negb (linebreak c)) s.
Proof.
  revert s cur. induction n as [|n IH]; intros s cur Hlen Hcur.
  - destruct s; [|simpl in Hlen; lia]. simpl. destruct cur; simpl.
    + split; [constructor|reflexivity].
    + split; [now repeat constructor|now rewrite !app_nil_r].
  - destruct s as [|c s']; simpl.
    + destruct cur; simpl.
      * split; [constructor|reflexivity].
      * split; [now repeat constructor|now rewrite !app_nil_r].
    + simpl in Hlen. destruct (linebreak c) eqn:Ec; cbn [negb].
      * assert (Hrest : forall t, length t <= n ->
                   Forall (fun ln => unbroken ln = true) (splitlines_from [] t)
                   /\ concat (splitlines_from [] t)
                      = filter (fun c => negb (linebreak c)) t).
        { intros t Ht. now apply (IH t []). }
        destruct s' as [|d s''].
        -- split; [now repeat constructor|reflexivity].
        -- destruct ((c =? CR)%N && (d =? LF)%N) eqn:Ecr.
           ++ apply andb_true_iff in Ecr. destruct Ecr as (_ & Ed).
              apply N.eqb_eq in Ed. subst d.
              destruct (Hrest s'' ltac:(simpl in Hlen; lia)) as (H1 & H2).
              split; [now constructor|].
              cbn [concat filter]. change (linebreak LF) with true. cbn [negb].
              now rewrite H2.
           ++ destruct (Hrest (d :: s'') ltac:(simpl in *; lia)) as (H1 & H2).
              split; [now constructor|]. cbn [concat]. now rewrite H2.
      * destruct (IH s' (cur ++ [c]) ltac:(lia)) as (H1 & H2).
        { unfold unbroken in *. rewrite forallb_app, Hcur. simpl. now rewrite Ec. }
        split; [exact H1|]. rewrite H2. now rewrite <- app_assoc.
Qed.

Lemma splitlines_from_line (cur l rest : str) :
  unbroken l = true ->
  splitlines_from cur (l ++ LF :: rest) = (cur ++ l) :: splitlines_from [] rest.
Proof.
  revert cur. induction l as [|c l IH]; intros cur H.
  - cbn [app splitlines_from]. change (linebreak LF) with true. cbn iota.
    rewrite app_nil_r. f_equal. now destruct rest.
  - unfold unbroken in H. cbn [forallb] in H. apply andb_true_iff in H.
    destruct H as (Hc & Hl). apply negb_true_iff in Hc.
    cbn [app splitlines_from]. rewrite Hc, IH by exact Hl. now rewrite <- app_assoc.
Qed.

Lemma unbroken_single_line (ln : str) : unbroken ln = true -> single_line ln = true.
Proof.
  unfold unbroken, single_line. intros H. apply forallb_forall. intros c Hc.
  rewrite forallb_forall in H. specialize (H c Hc).
  destruct (c =? LF)%N eqn:E; [|reflexivity].
  apply N.eqb_eq in E. subst c. discriminate H.
Qed.

(** X24.  The lines [read_lines] returns never hold a line boundary,
    so each is a single line for the patterns of [Menu]; put end to
    end they are the text without its boundaries, nothing else is
    dropped or added; and a text of lines that each end in a line feed
    gives these lines back. *)
Theorem X24_read_lines_single_lines :
  (forall text,
     Forall (fun ln => unbroken ln = true /\ single_line ln = true) (read_lines text)
     /\ concat (read_lines text) = filter (fun c => negb (linebreak c)) text)
  /\ (forall lines,
        forallb unbroken lines = true ->
        read_lines (flat_map (fun ln => ln ++ [LF]) lines) = lines).
Proof.
  split.
  - intros text.
    destruct (splitlines_from_spec (length text) text [] (le_n _) eq_refl) as (H1 & H2).
    split; [|exact H2]. eapply Forall_impl; [|exact H1].
    intros ln H. split; [exact H|now apply unbroken_single_line].
  - unfold read_lines, splitlines. induction lines as [|ln lines IH]; intros H; [reflexivity|].
    cbn [forallb] in H. apply andb_true_iff in H. destruct H as (Hl & Hls).
    cbn [flat_map]. rewrite <- app_assoc. cbn [app].
    rewrite splitlines_from_line by exact Hl. cbn [app]. now rewrite IH.
Qed.

Lemma X24_read_lines_single_lines_witness :
  read_lines (flat_map (fun ln => ln ++ [LF]) doc_headings) = doc_headings.
Proof.
  apply (proj2 X24_read_lines_single_lines). reflexivity.
Defined.
